(** * PageSpeed Insights MCP server: cache, retry, dispatch and response parsing

    A shallow embedding of the TypeScript sources
    ([pagespeed-client.ts], [cache.ts], [response-parser.ts], [schemas.ts],
    [recommendations.ts] and the server's [index.ts]) together with the
    properties the design document states about them (C1 to C10) and
    further properties of the same code (X1 to X21).

    JSON data is embedded as the inductive type [value]; JavaScript
    evaluation that can raise is embedded in the type [outcome]; the client
    and the server run in a state-and-exception monad [M] over a [World]
    that holds the clock, the two caches, the upstream and an event trace. *)

From Stdlib Require Import ZArith QArith Qround String Ascii DecimalString List Bool Lia
  Sorted.
From stdpp Require Import gmap strings.
Import ListNotations.

Local Open Scope Z_scope.
Local Open Scope list_scope.
Local Open Scope string_scope.
Local Set Warnings "-register-all".

(* ===================================================================== *)
(** * Part I.  JavaScript values and the operations the sources use       *)
(* ===================================================================== *)

(** An [Error] object: its [name] and its [message]. *)
Record JsError : Type := mkError { err_name : string; err_message : string }.

Definition TypeError (msg : string) : JsError := mkError "TypeError" msg.

(** Result of evaluating a JavaScript expression: normal completion or a
    raised exception. *)
Inductive outcome (A : Type) : Type :=
| Ok (a : A)
| Throw (e : JsError).
Arguments Ok {A} a.
Arguments Throw {A} e.

Definition obind {A B} (o : outcome A) (k : A -> outcome B) : outcome B :=
  match o with
  | Ok a => k a
  | Throw e => Throw e
  end.

Declare Scope js_scope.
Delimit Scope js_scope with js.
Notation "'let!' x ':=' c 'in' k" := (obind c (fun x => k))
  (at level 10, x name, c at level 100, k at level 200) : js_scope.
Local Open Scope js_scope.

(** Left-to-right traversal of a list with a callback that can raise:
    the shape of [Array.prototype.map] and [filter] with such callbacks. *)
Fixpoint mapO {A B} (f : A -> outcome B) (l : list A) : outcome (list B) :=
  match l with
  | [] => Ok []
  | x :: xs =>
      let! y := f x in
      let! ys := mapO f xs in
      Ok (y :: ys)
  end.

Fixpoint filterO {A} (p : A -> outcome bool) (l : list A) : outcome (list A) :=
  match l with
  | [] => Ok []
  | x :: xs =>
      let! b := p x in
      let! ys := filterO p xs in
      Ok (if b then x :: ys else ys)
  end.

(** The values [JSON.parse] produces, plus [undefined] and [NaN].  A
    number is the exact rational value of its IEEE double; an object lists
    its own properties in insertion order. *)
Inductive value : Type :=
| VUndefined
| VNull
| VBool (b : bool)
| VNum (q : Q)
| VNaN
| VStr (s : string)
| VArr (items : list value)
| VObj (fields : list (string * value)).

Definition num (z : Z) : value := VNum (inject_Z z).

(** What the sources take from the JavaScript runtime: the rounding
    arithmetic of doubles and the conversions between numbers and
    strings.  They are parameters of the development; nothing proved
    below depends on how a runtime rounds or prints. *)
Class Runtime : Type := {
  number_to_string : Q -> string;          (* Number::toString *)
  string_to_number : string -> option Q;   (* StringToNumber, [None] is NaN *)
  number_add : Q -> Q -> Q;                (* x + y *)
  number_mul : Q -> Q -> Q;                (* x * y *)
  math_round : Q -> Q                      (* Math.round *)
}.

(** [ToBoolean]. *)
Definition truthy (v : value) : bool :=
  match v with
  | VUndefined | VNull | VNaN => false
  | VBool b => b
  | VNum q => negb (Z.eqb (Qnum q) 0)
  | VStr s => negb (String.eqb s "")
  | VArr _ | VObj _ => true
  end.

Definition nullish (v : value) : bool :=
  match v with
  | VUndefined | VNull => true
  | _ => false
  end.

(** [a || b]. *)
Definition js_or (a b : value) : value := if truthy a then a else b.

(** Own-property lookup in an object. *)
Fixpoint lookup_field (k : string) (fs : list (string * value)) : value :=
  match fs with
  | [] => VUndefined
  | (k', v) :: rest => if String.eqb k k' then v else lookup_field k rest
  end.

Fixpoint has_own (k : string) (fs : list (string * value)) : bool :=
  match fs with
  | [] => false
  | (k', _) :: rest => String.eqb k k' || has_own k rest
  end.

(** [v.k] for a data property [k].  Reading a property of [undefined] or
    [null] raises; primitives and arrays have no data property other than
    [length].  (Members inherited from a prototype are functions; the
    sources read none of them as data.) *)
Definition prop (v : value) (k : string) : outcome value :=
  match v with
  | VUndefined =>
      Throw (TypeError ("Cannot read properties of undefined (reading '" ++ k ++ "')"))
  | VNull =>
      Throw (TypeError ("Cannot read properties of null (reading '" ++ k ++ "')"))
  | VObj fs => Ok (lookup_field k fs)
  | VArr l => Ok (if String.eqb k "length" then num (Z.of_nat (List.length l)) else VUndefined)
  | VStr s => Ok (if String.eqb k "length" then num (Z.of_nat (String.length s)) else VUndefined)
  | VBool _ | VNum _ | VNaN => Ok VUndefined
  end.

(** [v?.k]: [undefined] when [v] is nullish, never raises. *)
Definition opt_prop (v : value) (k : string) : value :=
  match prop v k with
  | Ok x => x
  | Throw _ => VUndefined
  end.

(** [v[0]] and [v?.[0]]. *)
Definition first_elem (v : value) : outcome value :=
  match v with
  | VUndefined => Throw (TypeError "Cannot read properties of undefined (reading '0')")
  | VNull => Throw (TypeError "Cannot read properties of null (reading '0')")
  | VArr l => Ok (match l with x :: _ => x | [] => VUndefined end)
  | VStr s => Ok (match s with String c _ => VStr (String c EmptyString) | EmptyString => VUndefined end)
  | VObj fs => Ok (lookup_field "0" fs)
  | VBool _ | VNum _ | VNaN => Ok VUndefined
  end.

Definition opt_first (v : value) : value :=
  match first_elem v with
  | Ok x => x
  | Throw _ => VUndefined
  end.

(** Receiver check of an array method call [v.m(...)]. *)
Definition as_array (method : string) (v : value) : outcome (list value) :=
  match v with
  | VArr l => Ok l
  | VUndefined =>
      Throw (TypeError ("Cannot read properties of undefined (reading '" ++ method ++ "')"))
  | VNull =>
      Throw (TypeError ("Cannot read properties of null (reading '" ++ method ++ "')"))
  | _ => Throw (TypeError (method ++ " is not a function"))
  end.

(** [v.map(f)]. *)
Definition js_map (v : value) (f : value -> outcome value) : outcome value :=
  let! l := as_array "map" v in
  let! r := mapO f l in
  Ok (VArr r).

(** [v.filter(p)]; the callback's result is used through [ToBoolean]. *)
Definition js_filter (v : value) (p : value -> outcome value) : outcome value :=
  let! l := as_array "filter" v in
  let! r := filterO (fun x => let! b := p x in Ok (truthy b)) l in
  Ok (VArr r).

(** [v.slice(0, n)]. *)
Definition js_slice0 (v : value) (n : nat) : outcome value :=
  match v with
  | VArr l => Ok (VArr (firstn n l))
  | VStr s => Ok (VStr (String.substring 0 n s))
  | VUndefined => Throw (TypeError "Cannot read properties of undefined (reading 'slice')")
  | VNull => Throw (TypeError "Cannot read properties of null (reading 'slice')")
  | _ => Throw (TypeError "slice is not a function")
  end.

(** [v !== null], [v !== undefined], [v !== false], [v === "s"]. *)
Definition is_null (v : value) : bool :=
  match v with VNull => true | _ => false end.
Definition is_undefined (v : value) : bool :=
  match v with VUndefined => true | _ => false end.
Definition is_false (v : value) : bool :=
  match v with VBool false => true | _ => false end.
Definition is_string (s : string) (v : value) : bool :=
  match v with VStr s' => String.eqb s' s | _ => false end.

Definition Qltb (x y : Q) : bool :=
  match Qcompare x y with Lt => true | _ => false end.

Section Coercions.
Context `{Runtime}.

(** [ToString].  An array joins the strings of its elements with commas,
    [null] and [undefined] elements giving the empty string.  An object
    from [JSON.parse] prints as [[object Object]], unless it has an own
    property [toString]: that property is not callable, the inherited
    [valueOf] returns the object itself, and the conversion raises. *)
Fixpoint to_string (v : value) : outcome string :=
  match v with
  | VUndefined => Ok "undefined"
  | VNull => Ok "null"
  | VBool true => Ok "true"
  | VBool false => Ok "false"
  | VNum q => Ok (number_to_string q)
  | VNaN => Ok "NaN"
  | VStr s => Ok s
  | VArr l =>
      (fix join (l : list value) : outcome string :=
         match l with
         | [] => Ok ""
         | x :: rest =>
             let! a := if nullish x then Ok "" else to_string x in
             match rest with
             | [] => Ok a
             | _ => let! b := join rest in Ok (a ++ "," ++ b)
             end
         end) l
  | VObj fs =>
      if has_own "toString" fs
      then Throw (TypeError "Cannot convert object to primitive value")
      else Ok "[object Object]"
  end.

(** [ToPrimitive]: arrays and objects become their strings. *)
Definition to_primitive (v : value) : outcome value :=
  match v with
  | VArr _ | VObj _ => let! s := to_string v in Ok (VStr s)
  | _ => Ok v
  end.

(** [ToNumber]; [None] stands for [NaN]. *)
Definition to_number (v : value) : outcome (option Q) :=
  let! p := to_primitive v in
  Ok (match p with
      | VNum q => Some q
      | VNull | VBool false => Some 0%Q
      | VBool true => Some 1%Q
      | VStr s => string_to_number s
      | _ => None
      end).

Definition of_number (n : option Q) : value :=
  match n with Some q => VNum q | None => VNaN end.

(** [a + b]: concatenation as soon as one primitive is a string, the
    sum of the two numbers otherwise. *)
Definition js_add (a b : value) : outcome value :=
  let! pa := to_primitive a in
  let! pb := to_primitive b in
  match pa, pb with
  | VStr _, _ | _, VStr _ =>
      let! sa := to_string pa in
      let! sb := to_string pb in
      Ok (VStr (sa ++ sb))
  | _, _ =>
      let! na := to_number pa in
      let! nb := to_number pb in
      Ok (match na, nb with
          | Some x, Some y => VNum (number_add x y)
          | _, _ => VNaN
          end)
  end.

(** [v < 1]. *)
Definition js_lt_one (v : value) : outcome bool :=
  let! n := to_number v in
  Ok (match n with Some q => Qltb q 1%Q | None => false end).

(** [Math.round(v * 100)]. *)
Definition js_round_times_100 (v : value) : outcome value :=
  let! n := to_number v in
  Ok (match n with
      | Some q => VNum (math_round (number_mul q 100%Q))
      | None => VNaN
      end).

(** [v[k]] with a computed key: the key is [ToString k]. *)
Definition elem (v k : value) : outcome value :=
  let! key := to_string k in prop v key.

(** [v?.[k]]. *)
Definition opt_elem (v k : value) : outcome value :=
  if nullish v then Ok VUndefined else elem v k.

End Coercions.

(** Object literal whose property initialisers are evaluated in order. *)
Fixpoint build (fs : list (string * outcome value)) : outcome (list (string * value)) :=
  match fs with
  | [] => Ok []
  | (k, c) :: rest =>
      let! v := c in
      let! vs := build rest in
      Ok ((k, v) :: vs)
  end.

Definition object (fs : list (string * outcome value)) : outcome value :=
  let! l := build fs in Ok (VObj l).

(** [item.k || d]. *)
Definition or_default (item : value) (k : string) (d : value) : outcome value :=
  let! x := prop item k in Ok (js_or x d).

(* ===================================================================== *)
(** * Part II.  response-parser.ts                                        *)
(* ===================================================================== *)

Module ResponseParser.
Section WithRuntime.
Context `{Runtime}.

(** [response.lighthouseResult?.audits || {}] *)
Definition audits_of (response : value) : outcome value :=
  let! lighthouse := prop response "lighthouseResult" in
  Ok (js_or (opt_prop lighthouse "audits") (VObj [])).

(** [response.lighthouseResult?.categories || {}] *)
Definition categories_of (response : value) : outcome value :=
  let! lighthouse := prop response "lighthouseResult" in
  Ok (js_or (opt_prop lighthouse "categories") (VObj [])).

(** [audit?.details?.items] *)
Definition details_items (audit : value) : value :=
  opt_prop (opt_prop audit "details") "items".

(** [audit.details.items.map(f)] *)
Definition map_items (audit : value) (f : value -> outcome value) : outcome value :=
  let! details := prop audit "details" in
  let! items := prop details "items" in
  js_map items f.

(** [if (audit?.details?.items) list = audit.details.items.map(f)], with
    the initial [[]] otherwise. *)
Definition items_or_empty (audit : value) (f : value -> outcome value) : outcome value :=
  if truthy (details_items audit) then map_items audit f else Ok (VArr []).

Definition normalizeNode (node : value) : outcome value :=
  object
    [ ("type", Ok (VStr "node"));
      ("lhId", prop node "lhId");
      ("path", prop node "path");
      ("selector", or_default node "selector" (VStr ""));
      ("boundingRect", prop node "boundingRect");
      ("snippet", or_default node "snippet" (VStr ""));
      ("nodeLabel", prop node "nodeLabel");
      ("explanation", prop node "explanation") ].

(** [audit.details.items[0].node] *)
Definition first_item_node (audit : value) : outcome value :=
  let! details := prop audit "details" in
  let! items := prop details "items" in
  let! item := first_elem items in
  prop item "node".

(** [if (audit?.details?.items?.[0]?.node) x = normalizeNode(audit.details.items[0].node)],
    with the initial [null] otherwise. *)
Definition node_or_null (audit : value) : outcome value :=
  if truthy (opt_prop (opt_first (details_items audit)) "node")
  then let! node := first_item_node audit in normalizeNode node
  else Ok VNull.

Definition extractVisualData (response : value) : outcome value :=
  let! audits := audits_of response in
  let! finalScreenshotAudit := prop audits "final-screenshot" in
  let! finalScreenshot :=
    if truthy (opt_prop (opt_prop finalScreenshotAudit "details") "data") then
      let! details := prop finalScreenshotAudit "details" in
      object
        [ ("data", prop details "data");
          ("width", or_default details "width" (num 360));
          ("height", or_default details "height" (num 640)) ]
    else Ok VNull in
  let! thumbnailsAudit := prop audits "screenshot-thumbnails" in
  let! filmstrip :=
    items_or_empty thumbnailsAudit (fun item =>
      object
        [ ("timing", or_default item "timing" (num 0));
          ("timestamp", or_default item "timestamp" (num 0));
          ("data", or_default item "data" (VStr "")) ]) in
  let! fullPageAudit := prop audits "full-page-screenshot" in
  let! fullPageScreenshot :=
    if truthy (opt_prop (opt_prop fullPageAudit "details") "screenshot") then
      let! details := prop fullPageAudit "details" in
      let! screenshot := prop details "screenshot" in
      object
        [ ("screenshot",
            object
              [ ("data", prop screenshot "data");
                ("width", prop screenshot "width");
                ("height", prop screenshot "height") ]);
          ("nodes", or_default details "nodes" (VObj [])) ]
    else Ok VNull in
  Ok (VObj
        [ ("finalScreenshot", finalScreenshot);
          ("filmstrip", filmstrip);
          ("fullPageScreenshot", fullPageScreenshot) ]).

Definition extractElementData (response : value) : outcome value :=
  let! audits := audits_of response in
  let! lcpAudit := prop audits "largest-contentful-paint-element" in
  let! lcpElement := node_or_null lcpAudit in
  let! layoutShiftAudit := prop audits "layout-shift-elements" in
  let! clsElements :=
    if truthy (details_items layoutShiftAudit) then
      let! details := prop layoutShiftAudit "details" in
      let! items := prop details "items" in
      let! kept := js_filter items (fun item => prop item "node") in
      js_map kept (fun item =>
        object
          [ ("node", let! node := prop item "node" in normalizeNode node);
            ("score", or_default item "score" (num 0)) ])
    else Ok (VArr []) in
  let! lazyLcpAudit := prop audits "lcp-lazy-loaded" in
  let! lazyLoadedLcp := node_or_null lazyLcpAudit in
  Ok (VObj
        [ ("lcpElement", lcpElement);
          ("clsElements", clsElements);
          ("lazyLoadedLcp", lazyLoadedLcp) ]).

(** [requests.length] of the list just built. *)
Definition length_of (v : value) : value :=
  match v with
  | VArr l => num (Z.of_nat (List.length l))
  | _ => VUndefined
  end.

Definition extractNetworkData (response : value) : outcome value :=
  let! audits := audits_of response in
  let! networkAudit := prop audits "network-requests" in
  let! requests :=
    items_or_empty networkAudit (fun item =>
      object
        [ ("url", or_default item "url" (VStr ""));
          ("protocol", prop item "protocol");
          ("startTime", or_default item "startTime" (num 0));
          ("endTime", or_default item "endTime" (num 0));
          ("finished", let! f := prop item "finished" in Ok (VBool (negb (is_false f))));
          ("transferSize", or_default item "transferSize" (num 0));
          ("resourceSize", or_default item "resourceSize" (num 0));
          ("statusCode", or_default item "statusCode" (num 0));
          ("mimeType", or_default item "mimeType" (VStr ""));
          ("resourceType", or_default item "resourceType" (VStr ""));
          ("priority", prop item "priority");
          ("experimentalFromMainFrame", prop item "experimentalFromMainFrame") ]) in
  let requestCount :=
    if truthy (details_items networkAudit) then length_of requests else num 0 in
  let! resourceAudit := prop audits "resource-summary" in
  let! resourceSummary :=
    items_or_empty resourceAudit (fun item =>
      object
        [ ("resourceType", or_default item "resourceType" (VStr ""));
          ("count", or_default item "requestCount" (num 0));
          ("size", or_default item "transferSize" (num 0)) ]) in
  let! byteWeightAudit := prop audits "total-byte-weight" in
  let! totalByteWeight :=
    if truthy (opt_prop byteWeightAudit "numericValue")
    then prop byteWeightAudit "numericValue" else Ok (num 0) in
  let! rttAudit := prop audits "network-rtt" in
  let! rtt :=
    if negb (is_undefined (opt_prop rttAudit "numericValue"))
    then prop rttAudit "numericValue" else Ok VNull in
  let! serverLatencyAudit := prop audits "network-server-latency" in
  let! serverLatency :=
    if negb (is_undefined (opt_prop serverLatencyAudit "numericValue"))
    then prop serverLatencyAudit "numericValue" else Ok VNull in
  Ok (VObj
        [ ("requests", requests);
          ("resourceSummary", resourceSummary);
          ("totalByteWeight", totalByteWeight);
          ("requestCount", requestCount);
          ("rtt", rtt);
          ("serverLatency", serverLatency) ]).

(** An unused/wasted-bytes entry: the four fields the image and script
    lists share. *)
Definition wasted_fields (item : value) : list (string * outcome value) :=
  [ ("url", or_default item "url" (VStr ""));
    ("totalBytes", or_default item "totalBytes" (num 0));
    ("wastedBytes", or_default item "wastedBytes" (num 0));
    ("wastedPercent", or_default item "wastedPercent" (num 0)) ].

Definition extractJavaScriptData (response : value) : outcome value :=
  let! audits := audits_of response in
  let! bootupAudit := prop audits "bootup-time" in
  let! bootupTime :=
    items_or_empty bootupAudit (fun item =>
      object
        [ ("url", or_default item "url" (VStr ""));
          ("total", or_default item "total" (num 0));
          ("scripting", or_default item "scripting" (num 0));
          ("scriptParseCompile", or_default item "scriptParseCompile" (num 0)) ]) in
  let! mainThreadAudit := prop audits "mainthread-work-breakdown" in
  let! mainThreadWork :=
    items_or_empty mainThreadAudit (fun item =>
      object
        [ ("group", or_default item "group" (VStr ""));
          ("groupLabel", or_default item "groupLabel" (VStr ""));
          ("duration", or_default item "duration" (num 0)) ]) in
  let! unusedJsAudit := prop audits "unused-javascript" in
  let! unusedJavaScript :=
    items_or_empty unusedJsAudit (fun item => object (wasted_fields item)) in
  let! duplicatedJsAudit := prop audits "duplicated-javascript" in
  let! duplicatedJavaScript :=
    items_or_empty duplicatedJsAudit (fun item =>
      object
        [ ("source",
            let! source := prop item "source" in
            let! url := prop item "url" in
            Ok (js_or (js_or source url) (VStr "")));
          ("totalBytes", or_default item "totalBytes" (num 0));
          ("wastedBytes", or_default item "wastedBytes" (num 0)) ]) in
  let! legacyJsAudit := prop audits "legacy-javascript" in
  let! legacyJavaScript :=
    items_or_empty legacyJsAudit (fun item =>
      object
        [ ("url", or_default item "url" (VStr ""));
          ("wastedBytes", or_default item "wastedBytes" (num 0));
          ("signals",
            let! subItems := prop item "subItems" in
            let subs := opt_prop subItems "items" in
            if nullish subs then Ok (VArr [])
            else
              let! signals := js_map subs (fun subItem => or_default subItem "signal" (VStr "")) in
              Ok (js_or signals (VArr []))) ]) in
  Ok (VObj
        [ ("bootupTime", bootupTime);
          ("mainThreadWork", mainThreadWork);
          ("unusedJavaScript", unusedJavaScript);
          ("duplicatedJavaScript", duplicatedJavaScript);
          ("legacyJavaScript", legacyJavaScript) ]).

(** [item.node ? this.normalizeNode(item.node) : undefined] *)
Definition node_or_undefined (item : value) : outcome value :=
  let! node := prop item "node" in
  if truthy node then normalizeNode node else Ok VUndefined.

Definition extractImageOptimizationData (response : value) : outcome value :=
  let! audits := audits_of response in
  let! responsiveAudit := prop audits "uses-responsive-images" in
  let! responsiveImages :=
    items_or_empty responsiveAudit (fun item =>
      object (wasted_fields item ++ [ ("node", node_or_undefined item) ])%list) in
  let! offscreenAudit := prop audits "offscreen-images" in
  let! offscreenImages :=
    items_or_empty offscreenAudit (fun item =>
      object (wasted_fields item ++ [ ("node", node_or_undefined item) ])%list) in
  let! unoptimizedAudit := prop audits "uses-optimized-images" in
  let! unoptimizedImages :=
    items_or_empty unoptimizedAudit (fun item =>
      object (wasted_fields item ++
                [ ("isCrossOrigin", prop item "isCrossOrigin");
                  ("wastedWebpBytes", prop item "wastedWebpBytes") ])%list) in
  let! modernFormatsAudit := prop audits "modern-image-formats" in
  let! modernFormats :=
    items_or_empty modernFormatsAudit (fun item =>
      object (wasted_fields item ++ [ ("wastedWebpBytes", prop item "wastedWebpBytes") ])%list) in
  Ok (VObj
        [ ("responsiveImages", responsiveImages);
          ("offscreenImages", offscreenImages);
          ("unoptimizedImages", unoptimizedImages);
          ("modernFormats", modernFormats) ]).

Definition extractRenderBlockingData (response : value) : outcome value :=
  let! audits := audits_of response in
  let! renderBlockingAudit := prop audits "render-blocking-resources" in
  let! resources :=
    items_or_empty renderBlockingAudit (fun item =>
      object
        [ ("url", or_default item "url" (VStr ""));
          ("totalBytes", or_default item "totalBytes" (num 0));
          ("wastedMs", or_default item "wastedMs" (num 0)) ]) in
  let! totalWastedMs :=
    if truthy (details_items renderBlockingAudit) then
      let! details := prop renderBlockingAudit "details" in
      or_default details "overallSavingsMs" (num 0)
    else Ok (num 0) in
  let! criticalChainsAudit := prop audits "critical-request-chains" in
  let! criticalChains :=
    if truthy (opt_prop criticalChainsAudit "details")
    then prop criticalChainsAudit "details" else Ok VNull in
  Ok (VObj
        [ ("resources", resources);
          ("totalWastedMs", totalWastedMs);
          ("criticalChains", criticalChains) ]).

(** [list.reduce((sum, item) => sum + item.k, 0)] *)
Fixpoint sum_field (k : string) (acc : value) (l : list value) : outcome value :=
  match l with
  | [] => Ok acc
  | item :: rest =>
      let! x := prop item k in
      let! acc' := js_add acc x in
      sum_field k acc' rest
  end.

Definition reduce_sum (k : string) (list : value) : outcome value :=
  let! l := as_array "reduce" list in sum_field k (num 0) l.

Definition extractThirdPartyData (response : value) : outcome value :=
  let! audits := audits_of response in
  let! summaryAudit := prop audits "third-party-summary" in
  let! summary :=
    items_or_empty summaryAudit (fun item =>
      object
        [ ("entity", or_default item "entity" (VStr ""));
          ("transferSize", or_default item "transferSize" (num 0));
          ("blockingTime", or_default item "blockingTime" (num 0));
          ("mainThreadTime", or_default item "mainThreadTime" (num 0));
          ("subItems", prop item "subItems") ]) in
  let! totalTransferSize :=
    if truthy (details_items summaryAudit)
    then reduce_sum "transferSize" summary else Ok (num 0) in
  let! totalBlockingTime :=
    if truthy (details_items summaryAudit)
    then reduce_sum "blockingTime" summary else Ok (num 0) in
  let! facadesAudit := prop audits "third-party-facades" in
  let! facades :=
    items_or_empty facadesAudit (fun item =>
      object
        [ ("product", or_default item "product" (VStr ""));
          ("transferSize", or_default item "transferSize" (num 0));
          ("blockingTime", or_default item "blockingTime" (num 0)) ]) in
  Ok (VObj
        [ ("summary", summary);
          ("totalBlockingTime", totalBlockingTime);
          ("totalTransferSize", totalTransferSize);
          ("facades", facades) ]).

(** The callback of [auditRefs.filter]:
    [audit && audit.score !== null && audit.score < 1] with
    [audit = audits[ref.id]]. *)
Definition is_failing (audits ref : value) : outcome value :=
  let! id := prop ref "id" in
  let! audit := elem audits id in
  if negb (truthy audit) then Ok audit
  else
    let! score := prop audit "score" in
    if is_null score then Ok (VBool false)
    else
      let! score' := prop audit "score" in
      let! lt := js_lt_one score' in
      Ok (VBool lt).

(** The callback of the following [.map]. *)
Definition key_audit (audits ref : value) : outcome value :=
  let! id := prop ref "id" in
  let! audit := elem audits id in
  object
    [ ("id", prop ref "id");
      ("title", let! title := prop audit "title" in
                let! id' := prop ref "id" in
                Ok (js_or title id'));
      ("score", prop audit "score");
      ("description", prop audit "description") ].

(** The body of the [forEach] for the category stored under [name]:
    the new [keyAudits], or the initial [[]] when the category has no
    [auditRefs]. *)
Definition keyAudits_of (categories audits : value) (name : string) : outcome value :=
  let! category := prop categories name in
  if truthy (opt_prop category "auditRefs") then
    let! auditRefs := prop category "auditRefs" in
    let! failing := js_filter auditRefs (is_failing audits) in
    let! mapped := js_map failing (key_audit audits) in
    js_slice0 mapped 5
  else Ok (VArr []).

(** [categories.name?.score || null] *)
Definition category_score (categories : value) (name : string) : outcome value :=
  let! category := prop categories name in
  Ok (js_or (opt_prop category "score") VNull).

Definition extractOtherCategories (response : value) : outcome value :=
  let! categories := categories_of response in
  let! audits := audits_of response in
  let! accessibilityScore := category_score categories "accessibility" in
  let! seoScore := category_score categories "seo" in
  let! bestPracticesScore := category_score categories "best-practices" in
  let! pwaScore := category_score categories "pwa" in
  let! accessibilityAudits := keyAudits_of categories audits "accessibility" in
  let! seoAudits := keyAudits_of categories audits "seo" in
  let! bestPracticesAudits := keyAudits_of categories audits "best-practices" in
  let! pwaAudits := keyAudits_of categories audits "pwa" in
  Ok (VObj
        [ ("accessibility", VObj [ ("score", accessibilityScore); ("keyAudits", accessibilityAudits) ]);
          ("seo", VObj [ ("score", seoScore); ("keyAudits", seoAudits) ]);
          ("bestPractices", VObj [ ("score", bestPracticesScore); ("keyAudits", bestPracticesAudits) ]);
          ("pwa", VObj [ ("score", pwaScore); ("keyAudits", pwaAudits) ]) ]).

(** [metrics.k || audits[name]?.numericValue] *)
Definition metric_or_audit (metrics audits : value) (k name : string) : outcome value :=
  let! m := prop metrics k in
  if truthy m then Ok m
  else let! audit := prop audits name in Ok (opt_prop audit "numericValue").

Definition extractDetailedMetrics (response : value) : outcome value :=
  let! audits := audits_of response in
  let! metricsAudit := prop audits "metrics" in
  let metrics := js_or (opt_first (details_items metricsAudit)) (VObj []) in
  object
    [ ("firstContentfulPaint",
        metric_or_audit metrics audits "firstContentfulPaint" "first-contentful-paint");
      ("largestContentfulPaint",
        metric_or_audit metrics audits "largestContentfulPaint" "largest-contentful-paint");
      ("cumulativeLayoutShift",
        metric_or_audit metrics audits "cumulativeLayoutShift" "cumulative-layout-shift");
      ("totalBlockingTime",
        metric_or_audit metrics audits "totalBlockingTime" "total-blocking-time");
      ("maxPotentialFID",
        metric_or_audit metrics audits "maxPotentialFID" "max-potential-fid");
      ("speedIndex", metric_or_audit metrics audits "speedIndex" "speed-index");
      ("timeToInteractive", metric_or_audit metrics audits "interactive" "interactive");
      ("firstMeaningfulPaint", prop metrics "firstMeaningfulPaint");
      ("observedFirstContentfulPaint", prop metrics "observedFirstContentfulPaint");
      ("observedLargestContentfulPaint", prop metrics "observedLargestContentfulPaint");
      ("observedSpeedIndex", prop metrics "observedSpeedIndex");
      ("observedDomContentLoaded", prop metrics "observedDomContentLoaded");
      ("observedLoad", prop metrics "observedLoad");
      ("observedNavigationStart", prop metrics "observedNavigationStart");
      ("observedTimeOrigin", prop metrics "observedTimeOrigin");
      ("observedTraceEnd", prop metrics "observedTraceEnd") ].

End WithRuntime.
End ResponseParser.

(* ===================================================================== *)
(** * Part III.  The world the client and the server run in               *)
(* ===================================================================== *)

(** A [Response] of [fetch]: status line, body text ([response.text()])
    and the result of [response.json()], which rejects on a body that is
    not JSON. *)
Record Response : Type := {
  status : Z;
  statusText : string;
  text : string;
  json : JsError + value
}.

(** [response.ok] *)
Definition ok (r : Response) : bool := (200 <=? status r)%Z && (status r <=? 299)%Z.

(** What one call of [fetch] does: it resolves with a response, or it
    rejects (the abort signal fired after the timeout, or the transport
    failed). *)
Inductive FetchOutcome : Type :=
| Resolves (r : Response)
| Rejects (e : JsError).

Record Exchange : Type := { answer : FetchOutcome; elapsed : Z }.

Inductive Request : Type :=
| Get (target : string) (query : list (string * string))
| Post (target : string) (query : list (string * string)) (body : value).

(** Observable steps: taking and giving back a slot of the concurrency
    limiter, a network request, a back-off delay. *)
Inductive Event : Type :=
| Acquire
| Release
| Fetch (r : Request)
| Sleep (ms : Z).

(** An entry of [PageSpeedClient.cache]. *)
Record CacheEntry : Type := { data : value; timestamp : Z }.

(** An entry of the [SimpleCache] of [cache.ts]. *)
Record SimpleCacheEntry : Type := { sc_data : value; sc_timestamp : Z; expiresAt : Z }.

(** Process state and environment.
    - [now]: [Date.now()];
    - [client_cache]: the private [Map] of the one [PageSpeedClient];
    - [simple_cache]: the [Map] inside the exported singleton [cache];
    - [upstream]: what the [n]-th network request of the process meets;
    - [fetched]: how many requests have been made;
    - [trace]: the events so far, oldest first. *)
Record World : Type := {
  now : Z;
  client_cache : gmap string CacheEntry;
  simple_cache : gmap string SimpleCacheEntry;
  upstream : nat -> Exchange;
  fetched : nat;
  trace : list Event
}.

Definition set_now (t : Z) (w : World) : World :=
  {| now := t; client_cache := client_cache w; simple_cache := simple_cache w;
     upstream := upstream w; fetched := fetched w; trace := trace w |}.

Definition set_client_cache (c : gmap string CacheEntry) (w : World) : World :=
  {| now := now w; client_cache := c; simple_cache := simple_cache w;
     upstream := upstream w; fetched := fetched w; trace := trace w |}.

Definition set_simple_cache (c : gmap string SimpleCacheEntry) (w : World) : World :=
  {| now := now w; client_cache := client_cache w; simple_cache := c;
     upstream := upstream w; fetched := fetched w; trace := trace w |}.

Definition log (ev : Event) (w : World) : World :=
  {| now := now w; client_cache := client_cache w; simple_cache := simple_cache w;
     upstream := upstream w; fetched := fetched w; trace := (trace w ++ [ev])%list |}.

(** Time passing between two tool calls. *)
Definition advance (ms : Z) (w : World) : World := set_now (now w + ms) w.

(** Computations over the world that may raise. *)
Definition M (A : Type) : Type := World -> outcome A * World.

Definition ret {A} (a : A) : M A := fun w => (Ok a, w).

Definition bind {A B} (m : M A) (k : A -> M B) : M B :=
  fun w =>
    match m w with
    | (Ok a, w') => k a w'
    | (Throw e, w') => (Throw e, w')
    end.

Definition throw {A} (e : JsError) : M A := fun w => (Throw e, w).

Definition lift {A} (o : outcome A) : M A := fun w => (o, w).

(** [try { body } catch (error) { handler }] *)
Definition try_catch {A} (body : M A) (handler : JsError -> M A) : M A :=
  fun w =>
    match body w with
    | (Ok a, w') => (Ok a, w')
    | (Throw e, w') => handler e w'
    end.

Declare Scope m_scope.
Delimit Scope m_scope with M.
Notation "'do' x <- c ; k" := (bind c (fun x => k))
  (at level 10, x name, c at level 100, k at level 200) : m_scope.
Local Open Scope m_scope.

(** [Date.now()] *)
Definition date_now : M Z := fun w => (Ok (now w), w).

(** The world after a network request: the clock has moved on by the
    time the exchange took, and the request is on the trace. *)
Definition after_fetch (request : Request) (w : World) : World :=
  {| now := now w + elapsed (upstream w (fetched w));
     client_cache := client_cache w;
     simple_cache := simple_cache w;
     upstream := upstream w;
     fetched := S (fetched w);
     trace := (trace w ++ [Fetch request])%list |}.

(** [await fetch(request)]: the next exchange of the upstream. *)
Definition fetch (request : Request) : M Response :=
  fun w =>
    match answer (upstream w (fetched w)) with
    | Resolves r => (Ok r, after_fetch request w)
    | Rejects e => (Throw e, after_fetch request w)
    end.

(** A timer of [ms] milliseconds. *)
Definition sleep (ms : Z) : M unit :=
  fun w => (Ok tt, log (Sleep ms) (advance ms w)).

(** [limit(fn)] of p-limit.  The world above runs the calls of the
    client one after the other: a call starts when the call before it
    has settled.  For such calls a slot is always free (the limit
    [MAX_CONCURRENCY] is at least 1), so [fn] runs at once and the slot
    is given back when [fn] settles, whether it fulfils or rejects.
    Calls that overlap, and with them the queue of p-limit, have no
    counterpart here; what is proved below about several calls is
    proved about calls that do not overlap. *)
Definition limiter {A} (fn : M A) : M A :=
  fun w =>
    match fn (log Acquire w) with
    | (r, w') => (r, log Release w')
    end.

(** Number of network requests in a trace. *)
Fixpoint count_fetches (t : list Event) : nat :=
  match t with
  | [] => 0
  | Fetch _ :: rest => S (count_fetches rest)
  | _ :: rest => count_fetches rest
  end.

(** JavaScript's default [sort] on strings (stable, by code unit). *)
Fixpoint insert_sorted (s : string) (l : list string) : list string :=
  match l with
  | [] => [s]
  | x :: rest => if String.leb s x then s :: l else x :: insert_sorted s rest
  end.

Definition sort_strings (l : list string) : list string :=
  fold_right insert_sorted [] l.

(* ===================================================================== *)
(** * Part IV.  cache.ts                                                  *)
(* ===================================================================== *)

Module SimpleCache.

Definition defaultTTL : Z := 5 * 60 * 1000.

(** [set(key, data, ttl = this.defaultTTL)] *)
Definition set (key : string) (d : value) (ttl : Z) : M unit :=
  fun w =>
    (Ok tt,
     set_simple_cache
       (<[key := {| sc_data := d; sc_timestamp := now w; expiresAt := now w + ttl |}]>
          (simple_cache w)) w).

(** [get(key)] *)
Definition get (key : string) : M value :=
  fun w =>
    match simple_cache w !! key with
    | None => (Ok VNull, w)
    | Some entry =>
        if (expiresAt entry <? now w)%Z
        then (Ok VNull, set_simple_cache (delete key (simple_cache w)) w)
        else (Ok (sc_data entry), w)
    end.

(** [has(key)] *)
Definition has (key : string) : M bool :=
  fun w =>
    match simple_cache w !! key with
    | None => (Ok false, w)
    | Some entry =>
        if (expiresAt entry <? now w)%Z
        then (Ok false, set_simple_cache (delete key (simple_cache w)) w)
        else (Ok true, w)
    end.

(** [clear()] *)
Definition clear : M unit :=
  fun w => (Ok tt, set_simple_cache ∅ w).

(** [size()] *)
Definition size : M nat :=
  fun w => (Ok (base.size (simple_cache w)), w).

(** [cleanup()] *)
Definition cleanup : M unit :=
  fun w =>
    (Ok tt,
     set_simple_cache
       (filter (fun kv => (expiresAt (snd kv) <? now w)%Z = false) (simple_cache w)) w).

(** [createPSICacheKey(url, strategy, categories, locale)] *)
Definition createPSICacheKey (url strategy : string) (categories : list string)
    (locale : string) : string :=
  "psi:" ++ url ++ ":" ++ strategy ++ ":"
    ++ String.concat "," (sort_strings categories) ++ ":" ++ locale.

(** [createCruxCacheKey(url, formFactor?)] *)
Definition createCruxCacheKey (url : string) (formFactor : option string) : string :=
  "crux:" ++ url ++ ":"
    ++ match formFactor with
       | Some f => if String.eqb f "" then "default" else f
       | None => "default"
       end.

End SimpleCache.

(* ===================================================================== *)
(** * Part V.  The libraries the sources call                             *)
(* ===================================================================== *)

(** One issue of a [ZodError]: where in the argument object, and which
    check failed. *)
Inductive PathSeg : Type := Key (k : string) | Index (i : nat).
Record ZodIssue : Type := { path : list PathSeg; code : string }.

(** What the sources take from zod and p-retry without fixing it
    themselves. *)
Class Libraries : Type := {
  is_url : string -> bool;                   (* [new URL(s)] succeeds: zod's [.url()] *)
  zod_message : list ZodIssue -> string;     (* [ZodError.message] *)
  is_network_error : string -> bool;         (* p-retry: a TypeError that is retried *)
  surfaced_error : list JsError -> JsError;  (* p-retry: the error it rejects with
                                                when the retries are used up, ... *)
  surfaced_error_in :                        (* ... one of the attempts' errors *)
    forall errors, errors <> [] -> In (surfaced_error errors) errors
}.

(** p-retry, as [makeRequest] uses it.  [pRetry input options] calls
    [input attemptNumber], counting from 1.  When the attempt rejects:
    a [TypeError] that is no network error ends the run at once;
    otherwise [onFailedAttempt] is called, and if it throws, the run
    ends with what it threw; otherwise, if retries are left, the next
    attempt starts after the next back-off delay, and if none is left
    the run rejects. *)
Module PRetry.
Section WithLibraries.
Context `{Libraries}.

Record Options : Type := {
  retries : nat;
  onFailedAttempt : JsError -> outcome unit;
  factor : Z;
  minTimeout : Z;
  maxTimeout : Z
}.

(** Delay before retry number [i] (from 0): [minTimeout * factor^i],
    capped by [maxTimeout]. *)
Definition createTimeout (o : Options) (i : nat) : Z :=
  Z.min (minTimeout o * factor o ^ Z.of_nat i) (maxTimeout o).

Fixpoint run (o : Options) (input : nat -> M value)
    (left : nat) (attemptNumber : nat) (errors : list JsError) : M value :=
  fun w =>
    match input attemptNumber w with
    | (Ok v, w') => (Ok v, w')
    | (Throw e, w') =>
        if String.eqb (err_name e) "TypeError" && negb (is_network_error (err_message e))
        then (Throw e, w')
        else
          match onFailedAttempt o e with
          | Throw e' => (Throw e', w')
          | Ok _ =>
              match left with
              | O => (Throw (surfaced_error (errors ++ [e])%list), w')
              | S left' =>
                  match sleep (createTimeout o (Nat.pred attemptNumber)) w' with
                  | (_, w'') =>
                      run o input left' (S attemptNumber) (errors ++ [e])%list w''
                  end
              end
          end
    end.

Definition pRetry (input : nat -> M value) (o : Options) : M value :=
  run o input (retries o) 1%nat [].

End WithLibraries.
End PRetry.

(* ===================================================================== *)
(** * Part VI.  pagespeed-client.ts                                       *)
(* ===================================================================== *)

(** The validated environment of [env.ts]. *)
Record Environment : Type := {
  GOOGLE_API_KEY : string;
  MAX_CONCURRENCY : nat;
  REQUEST_TIMEOUT : Z;
  RETRY_ATTEMPTS : nat;
  CACHE_TTL : Z
}.

(** [AnalyzePageSpeedInput] and [CruxSummaryInput] of [schemas.ts]. *)
Record AnalyzePageSpeedInput : Type := {
  url : string;
  strategy : string;
  category : option (list string);
  locale : string
}.

Record CruxSummaryInput : Type := {
  crux_url : string;
  formFactor : option string
}.

Module PageSpeedClient.
Section Client.
Context `{Runtime} `{Libraries}.
Variable env : Environment.

(** The fields the constructor sets. *)
Definition apiKey : string := GOOGLE_API_KEY env.
Definition retryAttempts : nat := RETRY_ATTEMPTS env.
Definition cacheTTL : Z := CACHE_TTL env * 1000.

(** [params[key]] *)
Fixpoint param (key : string) (params : list (string * string)) : string :=
  match params with
  | [] => "undefined"
  | (k, v) :: rest => if String.eqb key k then v else param key rest
  end.

Definition createCacheKey (params : list (string * string)) : string :=
  let sortedParams :=
    String.concat "|"
      (map (fun key => key ++ "=" ++ param key params) (sort_strings (map fst params))) in
  "psi_v5_" ++ sortedParams.

Definition getCached (cacheKey : string) : M value :=
  fun w =>
    match client_cache w !! cacheKey with
    | None => (Ok VNull, w)
    | Some cached =>
        if (cacheTTL <? now w - timestamp cached)%Z
        then (Ok VNull, set_client_cache (delete cacheKey (client_cache w)) w)
        else (Ok (data cached), w)
    end.

Definition setCache (cacheKey : string) (d : value) : M unit :=
  fun w =>
    (Ok tt,
     set_client_cache (<[cacheKey := {| data := d; timestamp := now w |}]> (client_cache w)) w).

(** The error [makeRequest] builds for a response that is not [ok]. *)
Definition psi_error (response : Response) : JsError :=
  {| err_name :=
       if (400 <=? status response)%Z && (status response <? 500)%Z
       then "ClientError" else "Error";
     err_message :=
       "PSI API error: " ++ number_to_string (inject_Z (status response)) ++ " "
         ++ statusText response ++ " - " ++ text response |}.

(** [response.json()] *)
Definition read_json (response : Response) : M value :=
  match json response with
  | inr d => ret d
  | inl e => throw e
  end.

(** One attempt: the function given to [pRetry]. *)
Definition attempt (request : Request) (attemptNumber : nat) : M value :=
  try_catch
    (do response <- fetch request;
     if negb (ok response) then throw (psi_error response)
     else
       do d <- read_json response;
       ret d)
    (fun error => throw error).

Definition retryOptions : PRetry.Options :=
  {| PRetry.retries := retryAttempts;
     PRetry.onFailedAttempt := fun error =>
       if String.eqb (err_name error) "ClientError" then Throw error else Ok tt;
     PRetry.factor := 2;
     PRetry.minTimeout := 1000;
     PRetry.maxTimeout := 10000 |}.

Definition makeRequest (request : Request) : M value :=
  PRetry.pRetry (attempt request) retryOptions.

(** [input.category?.join(",") || "performance"] *)
Definition categories_param (input : AnalyzePageSpeedInput) : string :=
  match category input with
  | Some cats =>
      let joined := String.concat "," cats in
      if String.eqb joined "" then "performance" else joined
  | None => "performance"
  end.

Definition psi_cache_key (input : AnalyzePageSpeedInput) : string :=
  createCacheKey
    [ ("url", url input);
      ("strategy", strategy input);
      ("categories", categories_param input);
      ("locale", locale input) ].

(** The request URL with its search parameters. *)
Definition psi_request (input : AnalyzePageSpeedInput) : Request :=
  Get "https://www.googleapis.com/pagespeedonline/v5/runPagespeed"
    ([ ("url", url input);
       ("key", apiKey);
       ("strategy", strategy input);
       ("locale", locale input) ]
       ++ match category input with
          | Some cats => map (fun cat => ("category", cat)) cats
          | None => []
          end)%list.

Definition analyzePageSpeed (input : AnalyzePageSpeedInput) : M value :=
  limiter
    (let cacheKey := psi_cache_key input in
     do cached <- getCached cacheKey;
     if truthy cached then ret cached
     else
       do d <- makeRequest (psi_request input);
       do _ <- setCache cacheKey d;
       ret d).

Definition crux_cache_key (input : CruxSummaryInput) : string :=
  createCacheKey
    [ ("url", crux_url input);
      ("formFactor",
        match formFactor input with
        | Some f => if String.eqb f "" then "PHONE" else f
        | None => "PHONE"
        end) ].

Definition crux_request (input : CruxSummaryInput) : Request :=
  Post "https://chromeuxreport.googleapis.com/v1/records:queryRecord"
    [ ("key", apiKey) ]
    (VObj (("url", VStr (crux_url input))
             :: match formFactor input with
                | Some f => if String.eqb f "" then [] else [ ("formFactor", VStr f) ]
                | None => []
                end)).

Definition crux_error (response : Response) : JsError :=
  {| err_name := "Error";
     err_message :=
       "CrUX API error: " ++ number_to_string (inject_Z (status response)) ++ " "
         ++ statusText response ++ " - " ++ text response |}.

Definition getCruxData (input : CruxSummaryInput) : M value :=
  limiter
    (let cacheKey := crux_cache_key input in
     do cached <- getCached cacheKey;
     if truthy cached then ret cached
     else
       try_catch
         (do response <- fetch (crux_request input);
          if negb (ok response) then throw (crux_error response)
          else
            do d <- read_json response;
            do _ <- setCache cacheKey d;
            ret d)
         (fun error => throw error)).

End Client.
End PageSpeedClient.

(* ===================================================================== *)
(** * Part VII.  schemas.ts                                               *)
(* ===================================================================== *)

Module Schemas.
Section WithLibraries.
Context `{Libraries}.

(** Result of [schema.safeParse]: all the issues, or the parsed value. *)
Definition parsed (A : Type) : Type := (list ZodIssue + A)%type.

Definition issue (p : list PathSeg) (c : string) : list ZodIssue :=
  [ {| path := p; code := c |} ].

Definition issues_of {A} (r : parsed A) : list ZodIssue :=
  match r with inl i => i | inr _ => [] end.

(** Two members of an object schema: zod reports the issues of both. *)
Definition both {A B} (a : parsed A) (b : parsed B) : parsed (A * B) :=
  match a, b with
  | inr x, inr y => inr (x, y)
  | _, _ => inl (issues_of a ++ issues_of b)%list
  end.

(** [z.array(element)]: every element is parsed, at its index. *)
Fixpoint parse_elements {A} (element : list PathSeg -> value -> parsed A)
    (p : list PathSeg) (i : nat) (l : list value) : parsed (list A) :=
  match l with
  | [] => inr []
  | v :: rest =>
      match both (element (p ++ [Index i])%list v) (parse_elements element p (S i) rest) with
      | inr (x, xs) => inr (x :: xs)
      | inl e => inl e
      end
  end.

(** [UrlSchema = z.string().url("Must be a valid URL")] *)
Definition UrlSchema (p : list PathSeg) (v : value) : parsed string :=
  match v with
  | VStr s => if is_url s then inr s else inl (issue p "invalid_string")
  | _ => inl (issue p "invalid_type")
  end.

Definition one_of (options : list string) (p : list PathSeg) (v : value) : parsed string :=
  match v with
  | VStr s =>
      if existsb (String.eqb s) options then inr s else inl (issue p "invalid_enum_value")
  | _ => inl (issue p "invalid_type")
  end.

(** [StrategySchema = z.enum(["mobile", "desktop"]).default("mobile")] *)
Definition StrategySchema (p : list PathSeg) (v : value) : parsed string :=
  match v with
  | VUndefined => inr "mobile"
  | _ => one_of [ "mobile"; "desktop" ] p v
  end.

(** [CategorySchema] *)
Definition CategorySchema : list PathSeg -> value -> parsed string :=
  one_of [ "performance"; "accessibility"; "best-practices"; "seo"; "pwa" ].

(** [z.array(CategorySchema).optional().default(["performance"])] *)
Definition CategoriesSchema (p : list PathSeg) (v : value) : parsed (list string) :=
  match v with
  | VUndefined => inr [ "performance" ]
  | VArr l => parse_elements CategorySchema p 0 l
  | _ => inl (issue p "invalid_type")
  end.

Definition lower (c : ascii) : bool :=
  (97 <=? nat_of_ascii c)%nat && (nat_of_ascii c <=? 122)%nat.
Definition upper (c : ascii) : bool :=
  (65 <=? nat_of_ascii c)%nat && (nat_of_ascii c <=? 90)%nat.

(** The regular expression [/^[a-z]{2}(-[A-Z]{2})?$/]. *)
Definition locale_format (s : string) : bool :=
  match s with
  | String a (String b EmptyString) => lower a && lower b
  | String a (String b (String "-" (String c (String d EmptyString)))) =>
      lower a && lower b && upper c && upper d
  | _ => false
  end.

(** [LocaleSchema = z.string().regex(..., "Invalid locale format").default("en")] *)
Definition LocaleSchema (p : list PathSeg) (v : value) : parsed string :=
  match v with
  | VUndefined => inr "en"
  | VStr s => if locale_format s then inr s else inl (issue p "invalid_string")
  | _ => inl (issue p "invalid_type")
  end.

(** A member of a [z.object]: the schema applied to [args[k]]. *)
Definition member {A} (schema : list PathSeg -> value -> parsed A)
    (args : value) (k : string) : parsed A :=
  schema [ Key k ] (opt_prop args k).

Definition is_object (v : value) : bool :=
  match v with VObj _ => true | _ => false end.

(** [AnalyzePageSpeedSchema] *)
Definition AnalyzePageSpeedSchema (args : value) : parsed AnalyzePageSpeedInput :=
  if negb (is_object args) then inl (issue [] "invalid_type")
  else
    match both (member UrlSchema args "url")
            (both (member StrategySchema args "strategy")
               (both (member CategoriesSchema args "category")
                  (member LocaleSchema args "locale"))) with
    | inr (u, (s, (c, l))) =>
        inr {| url := u; strategy := s; category := Some c; locale := l |}
    | inl e => inl e
    end.

(** [PerformanceSummarySchema]: a url and a strategy. *)
Definition PerformanceSummarySchema (args : value) : parsed (string * string) :=
  if negb (is_object args) then inl (issue [] "invalid_type")
  else both (member UrlSchema args "url") (member StrategySchema args "strategy").

(** [CruxSummarySchema] *)
Definition CruxSummarySchema (args : value) : parsed CruxSummaryInput :=
  if negb (is_object args) then inl (issue [] "invalid_type")
  else
    match both (member UrlSchema args "url")
            (member (fun p v =>
                       match v with
                       | VUndefined => inr None
                       | _ => match one_of [ "PHONE"; "DESKTOP"; "TABLET" ] p v with
                              | inr f => inr (Some f)
                              | inl e => inl e
                              end
                       end) args "formFactor") with
    | inr (u, f) => inr {| crux_url := u; formFactor := f |}
    | inl e => inl e
    end.

(** [z.array(UrlSchema).min(1).max(10)] *)
Definition UrlsSchema (p : list PathSeg) (v : value) : parsed (list string) :=
  match v with
  | VArr l =>
      let small := if (List.length l <? 1)%nat then issue p "too_small" else [] in
      let big := if (10 <? List.length l)%nat then issue p "too_big" else [] in
      match parse_elements UrlSchema p 0 l with
      | inr urls =>
          match (small ++ big)%list with
          | [] => inr urls
          | bad => inl bad
          end
      | inl e => inl (small ++ big ++ e)%list
      end
  | _ => inl (issue p "invalid_type")
  end.

Record BatchAnalyzeInput : Type := {
  urls : list string;
  batch_strategy : string;
  batch_category : list string;
  batch_locale : string
}.

(** [BatchAnalyzeSchema] *)
Definition BatchAnalyzeSchema (args : value) : parsed BatchAnalyzeInput :=
  if negb (is_object args) then inl (issue [] "invalid_type")
  else
    match both (member UrlsSchema args "urls")
            (both (member StrategySchema args "strategy")
               (both (member CategoriesSchema args "category")
                  (member LocaleSchema args "locale"))) with
    | inr (us, (s, (c, l))) =>
        inr {| urls := us; batch_strategy := s; batch_category := c; batch_locale := l |}
    | inl e => inl e
    end.

(** [schema.parse(args)]: the value, or a thrown [ZodError]. *)
Definition parse {A} (schema : value -> parsed A) (args : value) : M A :=
  match schema args with
  | inr a => ret a
  | inl i => throw {| err_name := "ZodError"; err_message := zod_message i |}
  end.

End WithLibraries.
End Schemas.

(* ===================================================================== *)
(** * Part VIII.  index.ts: the server                                    *)
(* ===================================================================== *)

(** The text of a content block: a string built by the handler, or
    [JSON.stringify(v, null, 2)] of a value [v]. *)
Inductive Text : Type :=
| Plain (s : string)
| Json (v : value).

(** A tool result: text blocks, and the [isError] flag when present. *)
Record ToolResponse : Type := { content : list Text; isError : bool }.

Definition nl : string := String (ascii_of_nat 10) EmptyString.

Module Server.
Section WithClient.
Context `{Runtime} `{Libraries}.
Variable env : Environment.

(** The names the [ListTools] handler announces. *)
Definition tool_names : list string :=
  [ "analyze_page_speed"; "get_performance_summary"; "crux_summary";
    "compare_pages"; "full_report"; "batch_analyze"; "clear_cache";
    "get_recommendations"; "get_visual_analysis"; "get_element_analysis";
    "get_network_analysis"; "get_javascript_analysis";
    "get_image_optimization_details"; "get_render_blocking_details";
    "get_third_party_impact"; "get_full_audit" ].

(** [audits?.[name]?.displayValue] *)
Definition displayValue_of (audits : value) (name : string) : value :=
  opt_prop (opt_prop audits name) "displayValue".

(** [audits?.[ref.id]]: the key is only evaluated when [audits] is not
    nullish. *)
Definition audit_of_ref (audits ref : value) : outcome value :=
  if nullish audits then Ok VUndefined
  else let! id := prop ref "id" in elem audits id.

(** The callback of [auditRefs.filter] in the summary. *)
Definition is_opportunity (audits ref : value) : outcome value :=
  let! audit := audit_of_ref audits ref in
  Ok (VBool (is_string "opportunity" (opt_prop (opt_prop audit "details") "type"))).

(** The callback of the following [.map]. *)
Definition opportunity (audits ref : value) : outcome value :=
  object
    [ ("id", prop ref "id");
      ("title", let! audit := audit_of_ref audits ref in Ok (opt_prop audit "title"));
      ("description",
        let! audit := audit_of_ref audits ref in Ok (opt_prop audit "description"));
      ("score", let! audit := audit_of_ref audits ref in Ok (opt_prop audit "score"));
      ("displayValue",
        let! audit := audit_of_ref audits ref in Ok (opt_prop audit "displayValue")) ].

Definition createPerformanceSummary (d : value) (url strategy : string) : outcome value :=
  let! lighthouse := prop d "lighthouseResult" in
  let performance := opt_prop (opt_prop lighthouse "categories") "performance" in
  let audits := opt_prop lighthouse "audits" in
  object
    [ ("url", Ok (VStr url));
      ("strategy", Ok (VStr strategy));
      ("timestamp", prop d "analysisUTCTimestamp");
      ("performance",
        object
          [ ("score",
              if truthy (opt_prop performance "score")
              then let! score := prop performance "score" in js_round_times_100 score
              else Ok VNull);
            ("metrics",
              Ok (VObj
                    [ ("firstContentfulPaint", displayValue_of audits "first-contentful-paint");
                      ("largestContentfulPaint", displayValue_of audits "largest-contentful-paint");
                      ("cumulativeLayoutShift", displayValue_of audits "cumulative-layout-shift");
                      ("speedIndex", displayValue_of audits "speed-index");
                      ("totalBlockingTime", displayValue_of audits "total-blocking-time");
                      ("firstInputDelay", displayValue_of audits "max-potential-fid") ])) ]);
      ("opportunities",
        let auditRefs := opt_prop performance "auditRefs" in
        if nullish auditRefs then Ok (VArr [])
        else
          let! kept := js_filter auditRefs (is_opportunity audits) in
          let! mapped := js_map kept (opportunity audits) in
          let! top := js_slice0 mapped 5 in
          Ok (js_or top (VArr []))) ].

(** A failure reply: [{ content: [{ type: "text", text }], isError: true }] *)
Definition failure (prefix : string) (error : JsError) : ToolResponse :=
  {| content := [ Plain (prefix ++ err_message error) ]; isError := true |}.

Definition success (t : Text) : ToolResponse :=
  {| content := [ t ]; isError := false |}.

Definition handlePerformanceSummary (args : value) : M ToolResponse :=
  try_catch
    (do input <- Schemas.parse Schemas.PerformanceSummarySchema args;
     let fullInput :=
       {| url := fst input; strategy := snd input;
          category := Some [ "performance" ]; locale := "en" |} in
     do result <- PageSpeedClient.analyzePageSpeed env fullInput;
     do summary <- lift (createPerformanceSummary result (fst input) (snd input));
     ret (success (Json summary)))
    (fun error => ret (failure "Error getting performance summary: " error)).

(** The line of one Core Web Vital in the CrUX summary, or nothing when
    the metric is absent. *)
Definition crux_metric_line (record : value) (key title : string) : outcome string :=
  let! metrics := prop record "metrics" in
  let metric := opt_prop metrics key in
  if truthy metric then
    let! percentiles := prop metric "percentiles" in
    let! p75 := prop percentiles "p75" in
    let! shown := to_string p75 in
    Ok ("- **" ++ title ++ "**: " ++ shown
          ++ (if String.eqb key "cumulative_layout_shift" then "" else "ms")
          ++ " (p75)" ++ nl)
  else Ok "".

Definition formatCruxSummary (cruxData : value) (url : string) : outcome string :=
  let! record := prop cruxData "record" in
  if negb (truthy record) then
    Ok ("# CrUX Field Data" ++ nl ++ nl ++ "**URL:** " ++ url ++ nl
          ++ "**Status:** No field data available (insufficient traffic)" ++ nl ++ nl
          ++ "This URL doesn't have enough real-world usage data in Chrome UX Report.")
  else
    let! key := prop record "key" in
    let! formFactor := prop key "formFactor" in
    let! shown := to_string formFactor in
    let summary :=
      "# CrUX Field Data Summary" ++ nl ++ nl
        ++ "**URL:** " ++ url ++ nl
        ++ "**Form Factor:** " ++ shown ++ nl ++ nl
        ++ "## Core Web Vitals (Real User Data)" ++ nl in
    let! lcp := crux_metric_line record "largest_contentful_paint" "Largest Contentful Paint" in
    let! fid := crux_metric_line record "first_input_delay" "First Input Delay" in
    let! cls := crux_metric_line record "cumulative_layout_shift" "Cumulative Layout Shift" in
    Ok (summary ++ lcp ++ fid ++ cls).

Definition handleCruxSummary (args : value) : M ToolResponse :=
  try_catch
    (do input <- Schemas.parse Schemas.CruxSummarySchema args;
     do cruxData <- PageSpeedClient.getCruxData env input;
     do summary <- lift (formatCruxSummary cruxData (crux_url input));
     ret (success (Plain summary)))
    (fun error => ret (failure "Error getting CrUX data: " error)).

(** One turn of the batch loop: the entry pushed onto [results]. *)
Definition analyze_one (input : Schemas.BatchAnalyzeInput) (url : string) : M value :=
  try_catch
    (do result <-
       PageSpeedClient.analyzePageSpeed env
         {| url := url; strategy := Schemas.batch_strategy input;
            category := Some (Schemas.batch_category input);
            locale := Schemas.batch_locale input |};
     do summary <- lift (createPerformanceSummary result url (Schemas.batch_strategy input));
     ret (VObj [ ("url", VStr url); ("result", summary) ]))
    (fun error => ret (VObj [ ("url", VStr url); ("error", VStr (err_message error)) ])).

(** [for (let i = 0; i < input.urls.length; i++) { ... results.push(...) }] *)
Fixpoint batch_loop (input : Schemas.BatchAnalyzeInput) (todo : list string)
    (results : list value) : M (list value) :=
  match todo with
  | [] => ret results
  | url :: rest =>
      do entry <- analyze_one input url;
      batch_loop input rest (results ++ [ entry ])%list
  end.

(** [results.filter(r => r[k]).length] *)
Definition count_with (k : string) (results : list value) : nat :=
  List.length (List.filter (fun r => truthy (opt_prop r k)) results).

Definition batch_report (input : Schemas.BatchAnalyzeInput) (results : list value) : value :=
  VObj
    [ ("summary",
        VObj
          [ ("total", num (Z.of_nat (List.length (Schemas.urls input))));
            ("successful", num (Z.of_nat (count_with "result" results)));
            ("failed", num (Z.of_nat (count_with "error" results))) ]);
      ("results", VArr results) ].

Definition handleBatchAnalyze (args : value) : M ToolResponse :=
  try_catch
    (do input <- Schemas.parse Schemas.BatchAnalyzeSchema args;
     do results <- batch_loop input (Schemas.urls input) [];
     ret (success (Json (batch_report input results))))
    (fun error => ret (failure "Error in batch analysis: " error)).

Definition handleClearCache : M ToolResponse :=
  try_catch
    (do sizeBefore <- SimpleCache.size;
     do _ <- SimpleCache.clear;
     ret (success
            (Plain ("✅ Cache cleared successfully. Removed "
                      ++ number_to_string (inject_Z (Z.of_nat sizeBefore))
                      ++ " cached entries."))))
    (fun error => ret (failure "❌ Error clearing cache: " error)).

(** The handlers whose report formatting lies outside this development
    (analysis report, comparison, full report, recommendations and the
    seven detail views); each gets the arguments of the call. *)
Variable other_handler : string -> value -> M ToolResponse.

(** The [CallToolRequestSchema] handler: the [switch] on the tool name. *)
Definition callTool (name : string) (args : value) : M ToolResponse :=
  if String.eqb name "analyze_page_speed" then other_handler name args
  else if String.eqb name "get_performance_summary" then handlePerformanceSummary args
  else if String.eqb name "crux_summary" then handleCruxSummary args
  else if String.eqb name "compare_pages" then other_handler name args
  else if String.eqb name "full_report" then other_handler name args
  else if String.eqb name "batch_analyze" then handleBatchAnalyze args
  else if String.eqb name "clear_cache" then handleClearCache
  else if String.eqb name "get_recommendations" then other_handler name args
  else if String.eqb name "get_visual_analysis" then other_handler name args
  else if String.eqb name "get_element_analysis" then other_handler name args
  else if String.eqb name "get_network_analysis" then other_handler name args
  else if String.eqb name "get_javascript_analysis" then other_handler name args
  else if String.eqb name "get_image_optimization_details" then other_handler name args
  else if String.eqb name "get_render_blocking_details" then other_handler name args
  else if String.eqb name "get_third_party_impact" then other_handler name args
  else if String.eqb name "get_full_audit" then other_handler name args
  else throw {| err_name := "Error"; err_message := "Unknown tool: " ++ name |}.

End WithClient.
End Server.

(* ===================================================================== *)
(** * Part IX.  recommendations.ts                                        *)
(* ===================================================================== *)

(** The double-quote character, for the texts that contain it. *)
Definition dq : string := String (ascii_of_nat 34) EmptyString.

(** The number the sources write [0.7]: the double nearest to 7/10. *)
Definition double_0_7 : Q := 3152519739159347 # 4503599627370496.

(** [String(i)] for an array index. *)
Definition index_name (i : nat) : string :=
  DecimalString.NilEmpty.string_of_uint (Nat.to_uint i).

Fixpoint indexed {A} (i : nat) (l : list A) : list (string * A) :=
  match l with
  | [] => []
  | x :: rest => (index_name i, x) :: indexed (S i) rest
  end.

(** [Object.entries(v)] for a value that is not nullish: the own
    properties of an object, the elements of an array and the characters
    of a string under their indices, nothing for a number or a boolean. *)
Definition object_entries (v : value) : list (string * value) :=
  match v with
  | VObj fs => fs
  | VArr l => indexed 0 l
  | VStr s => indexed 0 (map (fun c => VStr (String c EmptyString)) (list_ascii_of_string s))
  | _ => []
  end.

(** [v === 1] *)
Definition is_one (v : value) : bool :=
  match v with VNum q => Qeq_bool q 1 | _ => false end.

(** [Math.max(x, y)] and [Math.min(x, y)] on numbers. *)
Definition math_max (x y : Q) : Q := if Qle_bool x y then y else x.
Definition math_min (x y : Q) : Q := if Qle_bool x y then x else y.

(** [v >= q] and [v < q] for a value [v] that is a number or [NaN]. *)
Definition at_least (q : Q) (v : value) : bool :=
  match v with VNum x => Qle_bool q x | _ => false end.
Definition below (q : Q) (v : value) : bool :=
  match v with VNum x => Qltb x q | _ => false end.

Module Recommendations.
Section WithRuntime.
Context `{Runtime}.

(** A value of [auditMappings]: every entry of the table sets these six
    properties. *)
Record Mapping : Type := {
  m_title : string;
  m_impact : string;
  m_effort : string;
  m_category : string;
  m_howToFix : list string;
  m_moreInfo : string
}.

Definition auditMappings : list (string * Mapping) :=
  [
    ("unused-css-rules",
      {| m_title := "🎨 Remove unused CSS";
         m_impact := "medium"; m_effort := "medium"; m_category := "performance";
         m_howToFix :=
           [ "Use tools like PurgeCSS or UnCSS to remove unused styles";
             "Split CSS by page/component to reduce bundle size";
             "Use critical CSS for above-the-fold content";
             "Consider CSS-in-JS solutions for dynamic styling" ];
         m_moreInfo :=
           "Removing unused CSS can significantly reduce file sizes and improve loading times" |});
    ("unused-javascript",
      {| m_title := "⚡ Remove unused JavaScript";
         m_impact := "high"; m_effort := "medium"; m_category := "performance";
         m_howToFix :=
           [ "Use tree-shaking with modern bundlers (Webpack, Rollup, Vite)";
             "Split code by routes/pages using dynamic imports";
             "Remove dead code and unused libraries";
             "Use bundle analyzers to identify large unused dependencies" ];
         m_moreInfo :=
           "JavaScript is the most expensive resource - removing unused code has immediate impact" |});
    ("render-blocking-resources",
      {| m_title := "🚫 Eliminate render-blocking resources";
         m_impact := "high"; m_effort := "low"; m_category := "performance";
         m_howToFix :=
           [ "Inline critical CSS in <head>";
             ("Load non-critical CSS asynchronously with rel=" ++ dq ++ "preload" ++ dq);
             "Defer non-critical JavaScript";
             "Use resource hints like dns-prefetch and preconnect" ];
         m_moreInfo :=
           "Render-blocking resources delay First Contentful Paint" |});
    ("unminified-css",
      {| m_title := "🗜️ Minify CSS";
         m_impact := "low"; m_effort := "low"; m_category := "performance";
         m_howToFix :=
           [ "Use CSS minification tools (cssnano, clean-css)";
             "Enable minification in your build process";
             "Configure your bundler to minify CSS in production";
             "Use automated deployment pipelines with minification" ];
         m_moreInfo :=
           "CSS minification is a quick win with automated tools" |});
    ("unminified-javascript",
      {| m_title := "🗜️ Minify JavaScript";
         m_impact := "medium"; m_effort := "low"; m_category := "performance";
         m_howToFix :=
           [ "Use JavaScript minification (Terser, UglifyJS)";
             "Enable minification in production builds";
             "Configure bundlers for automatic minification";
             "Use modern compression techniques" ];
         m_moreInfo :=
           "JavaScript minification reduces file sizes and parsing time" |});
    ("efficiently-encode-images",
      {| m_title := "🖼️ Use efficient image formats";
         m_impact := "high"; m_effort := "medium"; m_category := "performance";
         m_howToFix :=
           [ "Convert images to WebP/AVIF formats";
             "Use responsive images with srcset";
             "Implement lazy loading for images";
             "Optimize image dimensions for actual display size" ];
         m_moreInfo :=
           "Modern image formats can reduce file sizes by 25-50%" |});
    ("uses-text-compression",
      {| m_title := "📦 Enable text compression";
         m_impact := "high"; m_effort := "low"; m_category := "performance";
         m_howToFix :=
           [ "Enable Gzip/Brotli compression on your server";
             "Configure CDN compression settings";
             "Ensure HTML, CSS, JS, and JSON are compressed";
             "Use compression middleware in your application" ];
         m_moreInfo :=
           "Text compression can reduce file sizes by 60-80%" |});
    ("uses-responsive-images",
      {| m_title := "📱 Use responsive images";
         m_impact := "medium"; m_effort := "medium"; m_category := "performance";
         m_howToFix :=
           [ "Implement srcset attribute for different screen sizes";
             "Use picture element for art direction";
             "Generate multiple image sizes in build process";
             "Consider using image CDN services" ];
         m_moreInfo :=
           "Responsive images prevent loading oversized images on small screens" |});
    ("offscreen-images",
      {| m_title := "👁️ Defer offscreen images";
         m_impact := "medium"; m_effort := "low"; m_category := "performance";
         m_howToFix :=
           [ ("Implement native lazy loading with loading=" ++ dq ++ "lazy" ++ dq);
             "Use Intersection Observer API for custom lazy loading";
             "Prioritize above-the-fold images";
             "Consider progressive image loading" ];
         m_moreInfo :=
           "Lazy loading images improves initial page load time" |});
    ("color-contrast",
      {| m_title := "🎨 Ensure sufficient color contrast";
         m_impact := "high"; m_effort := "low"; m_category := "accessibility";
         m_howToFix :=
           [ "Use contrast checking tools (WebAIM, Stark)";
             "Ensure 4.5:1 ratio for normal text, 3:1 for large text";
             "Test with different color blindness simulators";
             "Create a consistent color palette with good contrast" ];
         m_moreInfo :=
           "Good contrast helps users with visual impairments" |});
    ("image-alt",
      {| m_title := "🖼️ Add alt text to images";
         m_impact := "high"; m_effort := "low"; m_category := "accessibility";
         m_howToFix :=
           [ "Add descriptive alt attributes to all images";
             ("Use empty alt=" ++ dq ++ dq ++ " for decorative images");
             "Describe image content and context";
             ("Avoid redundant phrases like " ++ dq ++ "image of" ++ dq) ];
         m_moreInfo :=
           "Alt text is essential for screen readers and SEO" |});
    ("meta-description",
      {| m_title := "📝 Add meta description";
         m_impact := "medium"; m_effort := "low"; m_category := "seo";
         m_howToFix :=
           [ "Write unique, descriptive meta descriptions (150-160 chars)";
             "Include target keywords naturally";
             "Make each page description unique";
             "Write compelling copy that encourages clicks" ];
         m_moreInfo :=
           "Meta descriptions improve click-through rates from search results" |});
    ("document-title",
      {| m_title := "📋 Optimize page title";
         m_impact := "high"; m_effort := "low"; m_category := "seo";
         m_howToFix :=
           [ "Write descriptive, unique titles for each page";
             "Keep titles under 60 characters";
             "Include primary keywords near the beginning";
             "Use consistent title structure across site" ];
         m_moreInfo :=
           "Page titles are crucial for search rankings and user experience" |}) ].

(** [this.auditMappings.get(auditId)] *)
Fixpoint get (auditId : string) (table : list (string * Mapping)) : option Mapping :=
  match table with
  | [] => None
  | (k, m) :: rest => if String.eqb auditId k then Some m else get auditId rest
  end.

(** [interface Recommendation].  [title], [description] and
    [potentialSavings] can come from the audit, [priority] is a number
    or [NaN]. *)
Record Recommendation : Type := {
  id : string;
  title : value;
  description : value;
  impact : string;
  effort : string;
  priority : value;
  category : string;
  potentialSavings : value;
  howToFix : list string;
  moreInfo : string
}.

(** [text || d] for a property of a mapping. *)
Definition or_text (text d : string) : string :=
  if String.eqb text "" then d else text.

(** The two [switch] statements of [calculatePriority]. *)
Definition impact_points (impact : string) : Z :=
  if String.eqb impact "high" then 30
  else if String.eqb impact "medium" then 20
  else if String.eqb impact "low" then 10
  else 0.

Definition effort_points (effort : string) : Z :=
  if String.eqb effort "low" then 20
  else if String.eqb effort "medium" then 10
  else if String.eqb effort "high" then 5
  else 0.

(** [calculatePriority(audit, baseRec)].  The points of impact and
    effort are small integers, which doubles add exactly; [1 - score]
    is the sum of [1] and the negated score. *)
Definition calculatePriority (audit : value) (baseRec : Mapping) : outcome value :=
  let points := 50 + impact_points (m_impact baseRec) + effort_points (m_effort baseRec) in
  let score := js_or (opt_prop audit "score") (num 0) in
  let! s := to_number score in
  let priority :=
    option_map
      (fun q => number_add (inject_Z points) (number_mul (number_add 1 (- q)) 20)) s in
  let priority :=
    if is_string "opportunity" (opt_prop (opt_prop audit "details") "type")
    then option_map (fun p => number_add p 15) priority
    else priority in
  Ok (match priority with
      | Some p => VNum (math_min (math_max (math_round p) 1) 100)
      | None => VNaN
      end).

(** The callback of [Object.entries(audits).forEach]: the
    recommendation it pushes, if any. *)
Definition recommend (auditId : string) (audit : value) : outcome (option Recommendation) :=
  if negb (truthy audit) || is_one (opt_prop audit "score") || is_null (opt_prop audit "score")
  then Ok None
  else
    match get auditId auditMappings with
    | None => Ok None
    | Some baseRecommendation =>
        let! computed := calculatePriority audit baseRecommendation in
        Ok (Some
              {| id := auditId;
                 title :=
                   if String.eqb (m_title baseRecommendation) "" then opt_prop audit "title"
                   else VStr (m_title baseRecommendation);
                 description :=
                   js_or (opt_prop audit "description") (VStr "No description available");
                 impact := or_text (m_impact baseRecommendation) "medium";
                 effort := or_text (m_effort baseRecommendation) "medium";
                 priority := computed;
                 category := or_text (m_category baseRecommendation) "performance";
                 potentialSavings := js_or (opt_prop audit "displayValue") VUndefined;
                 howToFix := m_howToFix baseRecommendation;
                 moreInfo := m_moreInfo baseRecommendation |})
    end.

Fixpoint collect (audits : list (string * value)) : outcome (list Recommendation) :=
  match audits with
  | [] => Ok []
  | (auditId, audit) :: rest =>
      let! pushed := recommend auditId audit in
      let! others := collect rest in
      Ok (match pushed with Some r => r :: others | None => others end)
  end.

(** [recommendations.sort((a, b) => b.priority - a.priority)]: the
    comparison is positive, and [a] goes behind [b], when the priority
    of [a] is the smaller number.  The sort is stable.  (With a [NaN]
    among the priorities the comparison is not consistent and the
    language leaves the order open; the insertion below is then one of
    the orders allowed.) *)
Definition goes_behind (a b : Recommendation) : bool :=
  match priority a, priority b with
  | VNum x, VNum y => Qltb x y
  | _, _ => false
  end.

Fixpoint insert (r : Recommendation) (sorted : list Recommendation) : list Recommendation :=
  match sorted with
  | [] => [ r ]
  | first :: rest => if goes_behind r first then first :: insert r rest else r :: sorted
  end.

Definition sort (l : list Recommendation) : list Recommendation :=
  fold_right insert [] l.

(** The filter of the quick wins. *)
Definition is_quick_win (r : Recommendation) : bool :=
  String.eqb (effort r) "low"
  && (String.eqb (impact r) "high" || String.eqb (impact r) "medium").

Record Summary : Type := {
  totalRecommendations : nat;
  highPriority : nat;
  mediumPriority : nat;
  lowPriority : nat;
  estimatedImpact : string
}.

(** [performanceScore < q] *)
Definition score_below (performanceScore : value) (q : Q) : outcome bool :=
  let! n := to_number performanceScore in
  Ok (match n with Some x => Qltb x q | None => false end).

Definition count (p : Recommendation -> bool) (l : list Recommendation) : nat :=
  List.length (List.filter p l).

(** [generateSummary(recommendations, performanceScore)] *)
Definition generateSummary (recommendations : list Recommendation) (performanceScore : value)
    : outcome Summary :=
  let high := count (fun r => at_least 80 (priority r)) recommendations in
  let medium :=
    count (fun r => at_least 50 (priority r) && below 80 (priority r)) recommendations in
  let low := count (fun r => below 50 (priority r)) recommendations in
  let! poor := score_below performanceScore (1 # 2) in
  let! estimated :=
    if poor && (3 <? high)%nat then Ok "Very High"
    else
      let! mediocre := score_below performanceScore double_0_7 in
      if mediocre && (1 <? high)%nat then Ok "High"
      else if (0 <? high)%nat || (2 <? medium)%nat then Ok "Medium"
      else Ok "Low" in
  Ok {| totalRecommendations := List.length recommendations;
        highPriority := high;
        mediumPriority := medium;
        lowPriority := low;
        estimatedImpact := estimated |}.

(** [interface RecommendationReport] *)
Record RecommendationReport : Type := {
  report_url : value;
  report_strategy : value;
  overallScore : value;
  recommendations : list Recommendation;
  quickWins : list Recommendation;
  summary : Summary
}.

(** [generateRecommendations(data)] *)
Definition generateRecommendations (d : value) : outcome RecommendationReport :=
  let! lighthouse := prop d "lighthouseResult" in
  if negb (truthy lighthouse)
  then Throw {| err_name := "Error"; err_message := "No Lighthouse data available" |}
  else
    let audits := js_or (opt_prop lighthouse "audits") (VObj []) in
    let performanceScore :=
      js_or (opt_prop (opt_prop (opt_prop lighthouse "categories") "performance") "score")
        (num 0) in
    let! collected := collect (object_entries audits) in
    let sorted := sort collected in
    let quick := List.filter is_quick_win sorted in
    let! s := generateSummary sorted performanceScore in
    let! overall := js_round_times_100 performanceScore in
    Ok {| report_url := js_or (opt_prop lighthouse "requestedUrl") (VStr "Unknown");
          report_strategy :=
            js_or (opt_prop (opt_prop lighthouse "configSettings") "formFactor")
              (VStr "unknown");
          overallScore := overall;
          recommendations := sorted;
          quickWins := quick;
          summary := s |}.

End WithRuntime.
End Recommendations.

(* ===================================================================== *)
(** * Part X.  index.ts: the comparison of two pages                      *)
(* ===================================================================== *)

Section Comparison.
Context `{Runtime}.

(** [ToNumber] of a primitive; [None] stands for [NaN]. *)
Definition prim_number (p : value) : option Q :=
  match p with
  | VNum q => Some q
  | VNull | VBool false => Some 0%Q
  | VBool true => Some 1%Q
  | VStr s => string_to_number s
  | _ => None
  end.

(** [pa < pb] for two primitives: two strings are compared as strings,
    by code unit; otherwise the two numbers are compared, and a
    comparison with [NaN] is false. *)
Definition prim_lt (pa pb : value) : bool :=
  match pa, pb with
  | VStr x, VStr y => String.ltb x y
  | _, _ =>
      match prim_number pa, prim_number pb with
      | Some x, Some y => Qltb x y
      | _, _ => false
      end
  end.

(** [a < b] and [a > b]: both convert [a] first. *)
Definition js_lt (a b : value) : outcome bool :=
  let! pa := to_primitive a in
  let! pb := to_primitive b in
  Ok (prim_lt pa pb).

Definition js_gt (a b : value) : outcome bool :=
  let! pa := to_primitive a in
  let! pb := to_primitive b in
  Ok (prim_lt pb pa).

(** The verdict on one metric: ["A"], ["B"] or ["tie"]. *)
Definition better (scoreA scoreB : value) : outcome string :=
  let! above :=
    if negb (is_null scoreA) && negb (is_null scoreB) then js_gt scoreA scoreB
    else Ok false in
  if above then Ok "A"
  else
    let! under :=
      if negb (is_null scoreA) && negb (is_null scoreB) then js_lt scoreA scoreB
      else Ok false in
    if under then Ok "B" else Ok "tie".

(** One turn of [keyMetrics.forEach]: the property it adds to
    [metrics], if any.  ([auditsA] and [auditsB] are not nullish.) *)
Definition compare_metric (auditsA auditsB : value) (metric : string)
    : outcome (list (string * value)) :=
  let auditA := opt_prop auditsA metric in
  let auditB := opt_prop auditsB metric in
  if truthy auditA && truthy auditB then
    let! verdict := better (opt_prop auditA "score") (opt_prop auditB "score") in
    Ok [ (metric,
           VObj [ ("urlA", opt_prop auditA "displayValue");
                  ("urlB", opt_prop auditB "displayValue");
                  ("better", VStr verdict) ]) ]
  else Ok [].

Definition keyMetrics : list string :=
  [ "largest-contentful-paint"; "total-blocking-time"; "cumulative-layout-shift" ].

Fixpoint compare_metrics (auditsA auditsB : value) (metrics : list string)
    : outcome (list (string * value)) :=
  match metrics with
  | [] => Ok []
  | metric :: rest =>
      let! first := compare_metric auditsA auditsB metric in
      let! others := compare_metrics auditsA auditsB rest in
      Ok (first ++ others)%list
  end.

(** [Math.round((scoreA - scoreB) * 100)] *)
Definition rounded_difference (scoreA scoreB : value) : outcome value :=
  let! a := to_number scoreA in
  let! b := to_number scoreB in
  Ok (match a, b with
      | Some x, Some y => VNum (math_round (number_mul (number_add x (- y)) 100))
      | _, _ => VNaN
      end).

(** [createComparison(resultA, resultB, input)] *)
Definition createComparison (resultA resultB : value) (urlA urlB strategy : string)
    : outcome value :=
  let! lighthouseA := prop resultA "lighthouseResult" in
  let scoreA :=
    js_or (opt_prop (opt_prop (opt_prop lighthouseA "categories") "performance") "score")
      (num 0) in
  let! lighthouseB := prop resultB "lighthouseResult" in
  let scoreB :=
    js_or (opt_prop (opt_prop (opt_prop lighthouseB "categories") "performance") "score")
      (num 0) in
  let auditsA := js_or (opt_prop lighthouseA "audits") (VObj []) in
  let auditsB := js_or (opt_prop lighthouseB "audits") (VObj []) in
  let! metrics := compare_metrics auditsA auditsB keyMetrics in
  let! roundedA := js_round_times_100 scoreA in
  let! roundedB := js_round_times_100 scoreB in
  let! difference := rounded_difference scoreA scoreB in
  Ok (VObj
        [ ("urlA", VStr urlA);
          ("urlB", VStr urlB);
          ("strategy", VStr strategy);
          ("comparison",
            VObj
              [ ("scores",
                  VObj [ ("urlA", roundedA); ("urlB", roundedB); ("difference", difference) ]);
                ("metrics", VObj metrics) ]) ]).

End Comparison.

(* ===================================================================== *)
(** * Part XI.  A concrete runtime, libraries and upstream for examples   *)
(* ===================================================================== *)

Definition show_Z (z : Z) : string :=
  DecimalString.NilZero.string_of_int (Z.to_int z).

(** Exact rational arithmetic; numbers print as their integer part. *)
Definition exact_runtime : Runtime :=
  {| number_to_string := fun q => show_Z (Qfloor q);
     string_to_number := fun _ => None;
     number_add := fun x y => Qred (x + y);
     number_mul := fun x y => Qred (x * y);
     math_round := fun q => inject_Z (Qfloor (q + (1 # 2))) |}.

Definition last_in (d : JsError) :
  forall errors, errors <> [] -> In (List.last errors d) errors :=
  fix go (errors : list JsError) : errors <> [] -> In (List.last errors d) errors :=
    match errors with
    | [] => fun nonempty => False_ind _ (nonempty eq_refl)
    | e :: rest =>
        fun _ =>
          match rest as r return (r <> [] -> In (List.last r d) r) -> In (List.last (e :: r) d) (e :: r) with
          | [] => fun _ => or_introl eq_refl
          | e' :: rest' => fun ih => or_intror (ih (fun absurd => nil_cons (eq_sym absurd)))
          end (go rest)
    end.

(** Libraries that accept [http(s)://] URLs and surface the last error. *)
Definition plain_libraries : Libraries :=
  {| is_url := fun s => String.prefix "https://" s || String.prefix "http://" s;
     zod_message := fun _ => "Invalid arguments";
     is_network_error := fun _ => false;
     surfaced_error := fun errors => List.last errors (mkError "Error" "");
     surfaced_error_in := last_in (mkError "Error" "") |}.

(** The defaults of [env.ts]. *)
Definition default_env : Environment :=
  {| GOOGLE_API_KEY := "test-api-key";
     MAX_CONCURRENCY := 3;
     REQUEST_TIMEOUT := 30000;
     RETRY_ATTEMPTS := 3;
     CACHE_TTL := 3600 |}.

(** The response of the client's unit test. *)
Definition mock_fields : list (string * value) :=
  [ ("lighthouseResult",
      VObj
        [ ("categories", VObj [ ("performance", VObj [ ("score", VNum (85 # 100)) ]) ]);
          ("audits",
            VObj
              [ ("largest-contentful-paint",
                  VObj [ ("displayValue", VStr "2.5 s"); ("score", num 1) ]) ]) ]);
    ("analysisUTCTimestamp", VStr "2023-01-01T00:00:00.000Z") ].

Definition mockResponse : value := VObj mock_fields.

Definition http (code : Z) (reason body : string) (parsed : JsError + value) : Exchange :=
  {| answer :=
       Resolves {| status := code; statusText := reason; text := body; json := parsed |};
     elapsed := 800 |}.

(** An upstream that answers every request with [mockResponse]. *)
Definition healthy : nat -> Exchange :=
  fun _ => http 200 "OK" "{...}" (inr mockResponse).

(** A fresh process at time [t] in front of the upstream [u]. *)
Definition boot (t : Z) (u : nat -> Exchange) : World :=
  {| now := t; client_cache := ∅; simple_cache := ∅; upstream := u;
     fetched := 0; trace := [] |}.

Definition example_input : AnalyzePageSpeedInput :=
  {| url := "https://example.com"; strategy := "mobile";
     category := Some [ "performance" ]; locale := "en" |}.

(** Upstreams that refuse: with a 4xx answer, with a 503 answer, by
    timing out on every request. *)
Definition refusing : nat -> Exchange :=
  fun _ => http 400 "Bad Request" "invalid url" (inl (mkError "SyntaxError" "Unexpected token"))%string.

Definition unavailable : nat -> Exchange :=
  fun _ => http 503 "Service Unavailable" "try later" (inl (mkError "SyntaxError" "Unexpected token"))%string.

Definition timing_out : nat -> Exchange :=
  fun _ => {| answer := Rejects (mkError "AbortError" "The operation was aborted.");
              elapsed := 30000 |}.

(** An upstream that fails in a different way each time: the first
    request times out, the second is answered with a 503, the third
    meets a transport error, and all later ones are answered with a
    500. *)
Definition failing_in_turn : nat -> Exchange :=
  fun n =>
    match n with
    | 0%nat => timing_out n
    | 1%nat => unavailable n
    | 2%nat =>
        {| answer := Rejects (mkError "FetchError" "request failed, reason: socket hang up");
           elapsed := 40 |}
    | _ => http 500 "Internal Server Error" "backend error" (inr (VObj []))
    end.

(** An upstream whose second answer is a 400 and whose other answers
    are healthy. *)
Definition second_refused : nat -> Exchange :=
  fun n => match n with 1%nat => refusing n | _ => healthy n end.


Definition batch_args : value :=
  VObj
    [ ("urls",
        VArr [ VStr "https://a.example"; VStr "https://b.example"; VStr "https://c.example" ]) ].


(** The same request with its two categories in either order. *)
Definition performance_then_seo : AnalyzePageSpeedInput :=
  {| url := "https://example.com"; strategy := "mobile";
     category := Some [ "performance"; "seo" ]; locale := "en" |}.

Definition seo_then_performance : AnalyzePageSpeedInput :=
  {| url := "https://example.com"; strategy := "mobile";
     category := Some [ "seo"; "performance" ]; locale := "en" |}.

Definition scored (id : string) (score : value) : string * value :=
  (id, VObj [ ("id", VStr id); ("title", VStr ("Audit " ++ id)); ("score", score) ]).

Definition ref (id : string) : value := VObj [ ("id", VStr id); ("weight", num 1) ].

(** A response with an SEO category of eight audits, six of them below
    1, and with some of the lists the parser maps over. *)
Definition sample_report : value :=
  VObj
    [ ("lighthouseResult",
        VObj
          [ ("categories",
              VObj
                [ ("seo",
                    VObj
                      [ ("score", VNum (7 # 10));
                        ("auditRefs",
                          VArr [ ref "a1"; ref "a2"; ref "a3"; ref "a4"; ref "a5";
                                 ref "a6"; ref "a7"; ref "a8" ]) ]) ]);
            ("audits",
              VObj
                [ scored "a1" (VNum (1 # 2)); scored "a2" (num 1); scored "a3" VNull;
                  scored "a4" (num 0); scored "a5" (VNum (9 # 10));
                  scored "a6" (VNum (1 # 5)); scored "a7" (VNum (3 # 10));
                  scored "a8" (VNum (1 # 10));
                  ("network-requests",
                    VObj
                      [ ("details",
                          VObj
                            [ ("items",
                                VArr
                                  [ VObj [ ("url", VStr "https://example.com/");
                                           ("transferSize", num 1200) ];
                                    VObj [ ("finished", VBool false) ] ]) ]) ]);
                  ("third-party-summary",
                    VObj
                      [ ("details",
                          VObj
                            [ ("items",
                                VArr
                                  [ VObj [ ("entity", VStr "cdn");
                                           ("transferSize", num 300);
                                           ("blockingTime", num 20) ];
                                    VObj [ ("entity", VStr "ads");
                                           ("transferSize", num 700) ] ]) ]) ]);
                  ("legacy-javascript",
                    VObj
                      [ ("details",
                          VObj
                            [ ("items",
                                VArr
                                  [ VObj
                                      [ ("url", VStr "https://example.com/app.js");
                                        ("subItems",
                                          VObj
                                            [ ("items",
                                                VArr [ VObj [ ("signal", VStr "@babel") ] ]) ]) ] ]) ]) ]) ]) ]) ].

(* ===================================================================== *)
(** * Part XII.  Further sample data                                      *)
(* ===================================================================== *)

(** An upstream that does not know the page, and one whose first
    request times out, whose second is answered with a 503, and that is
    healthy afterwards. *)
Definition not_found : nat -> Exchange :=
  fun _ => http 404 "Not Found" "chrome ux report data not found"
             (inr (VObj [ ("error", VObj [ ("code", num 404) ]) ])).

Definition recovering : nat -> Exchange :=
  fun n =>
    match n with
    | 0%nat => timing_out n
    | 1%nat => unavailable n
    | _ => healthy n
    end.

(** A process whose client holds an answer for [example_input] that was
    stored at time 0, seen one millisecond after the TTL of an hour. *)
Definition stale_world : World :=
  set_client_cache
    (<[PageSpeedClient.psi_cache_key example_input
         := {| data := VObj [ ("kind", VStr "old") ]; timestamp := 0 |}]> ∅)
    (boot 3600001 healthy).

(** A response with mapped audits that fail, pass, do not apply, and
    with an audit the table does not know. *)
Definition slow_page : value :=
  VObj
    [ ("lighthouseResult",
        VObj
          [ ("requestedUrl", VStr "https://example.com/");
            ("configSettings", VObj [ ("formFactor", VStr "mobile") ]);
            ("categories",
              VObj
                [ ("performance",
                    VObj
                      [ ("score", VNum (45 # 100));
                        ("auditRefs",
                          VArr [ ref "unminified-css"; ref "unused-javascript";
                                 ref "speed-index"; ref "render-blocking-resources" ]) ]) ]);
            ("audits",
              VObj
                [ ("unminified-css",
                    VObj [ ("title", VStr "Minify CSS"); ("score", VNum (9 # 10)) ]);
                  ("unused-javascript",
                    VObj [ ("title", VStr "Reduce unused JavaScript");
                           ("description", VStr "Reduce unused JavaScript and defer loading");
                           ("score", VNum (2 # 5));
                           ("displayValue", VStr "Potential savings of 120 KiB");
                           ("details", VObj [ ("type", VStr "opportunity") ]) ]);
                  ("speed-index",
                    VObj [ ("title", VStr "Speed Index"); ("score", VNum (1 # 2)) ]);
                  ("render-blocking-resources",
                    VObj [ ("title", VStr "Eliminate render-blocking resources");
                           ("score", num 0);
                           ("details", VObj [ ("type", VStr "opportunity") ]) ]);
                  ("document-title", VObj [ ("score", num 1) ]);
                  ("meta-description", VObj [ ("score", VNull) ]);
                  ("image-alt", VObj [ ("title", VStr "Image elements have [alt] attributes") ])
                ]) ]);
      ("analysisUTCTimestamp", VStr "2023-01-01T00:00:00.000Z") ].

(** Two pages to compare. *)
Definition measured_page (score lcp tbt : Q) : value :=
  VObj
    [ ("lighthouseResult",
        VObj
          [ ("categories", VObj [ ("performance", VObj [ ("score", VNum score) ]) ]);
            ("audits",
              VObj
                [ ("largest-contentful-paint",
                    VObj [ ("displayValue", VStr "LCP"); ("score", VNum lcp) ]);
                  ("total-blocking-time",
                    VObj [ ("displayValue", VStr "TBT"); ("score", VNum tbt) ]) ]) ]) ].

(** A field-data answer for a request without a form factor. *)
Definition record_without_form_factor : value :=
  VObj
    [ ("record",
        VObj
          [ ("key", VObj [ ("url", VStr "https://example.com/") ]);
            ("metrics",
              VObj
                [ ("largest_contentful_paint",
                    VObj [ ("percentiles", VObj [ ("p75", VStr "2400") ]) ]) ]) ]) ].


(* ===================================================================== *)
(** * Part XIII.  Vocabulary of the statements                            *)
(* ===================================================================== *)

(** [data.lighthouseResult?.categories?.performance?.score] of a response,
    and the score a performance summary reports. *)
Definition performance_score (d : value) : value :=
  opt_prop (opt_prop (opt_prop (opt_prop d "lighthouseResult") "categories") "performance")
    "score".

Definition summary_score (summary : value) : value :=
  opt_prop (opt_prop summary "performance") "score".

(** The number zero. *)
Definition is_zero (v : value) : bool :=
  match v with VNum q => Z.eqb (Qnum q) 0 | _ => false end.

(** A response whose performance category has the given properties. *)
Definition response_with_performance (performance : list (string * value)) : value :=
  VObj
    [ ("lighthouseResult",
        VObj [ ("categories", VObj [ ("performance", VObj performance) ]) ]);
      ("analysisUTCTimestamp", VStr "2023-01-01T00:00:00.000Z") ].

(** The reply of the [crux_summary] tool for a URL without a record. *)
Definition no_field_data (url : string) : ToolResponse :=
  {| content :=
       [ Plain ("# CrUX Field Data" ++ nl ++ nl ++ "**URL:** " ++ url ++ nl
                  ++ "**Status:** No field data available (insufficient traffic)" ++ nl ++ nl
                  ++ "This URL doesn't have enough real-world usage data in Chrome UX Report.") ];
     isError := false |}.

(** A handler outside this development, for running [callTool]. *)
Definition canned_report : string -> value -> M ToolResponse :=
  fun _ _ => ret {| content := [ Plain "report" ]; isError := false |}.

(** The two calls of the client that go through the cache. *)
Inductive ClientCall : Type :=
| AnalyzePageSpeed (input : AnalyzePageSpeedInput)
| GetCruxData (input : CruxSummaryInput).

Definition call_key (c : ClientCall) : string :=
  match c with
  | AnalyzePageSpeed input => PageSpeedClient.psi_cache_key input
  | GetCruxData input => PageSpeedClient.crux_cache_key input
  end.

Definition call_request (env : Environment) (c : ClientCall) : Request :=
  match c with
  | AnalyzePageSpeed input => PageSpeedClient.psi_request env input
  | GetCruxData input => PageSpeedClient.crux_request env input
  end.

Definition run_call `{Runtime} `{Libraries} (env : Environment) (c : ClientCall) : M value :=
  match c with
  | AnalyzePageSpeed input => PageSpeedClient.analyzePageSpeed env input
  | GetCruxData input => PageSpeedClient.getCruxData env input
  end.




(** The error with which one attempt of [makeRequest] ends when it meets
    the exchange [x]; [None] when the attempt succeeds. *)
Definition attempt_failure `{Runtime} (x : Exchange) : option JsError :=
  match answer x with
  | Rejects e => Some e
  | Resolves r =>
      if ok r then match json r with inl e => Some e | inr _ => None end
      else Some (PageSpeedClient.psi_error r)
  end.

(** An answer with a status in 400-499. *)
Definition client_error (x : Exchange) : bool :=
  match answer x with
  | Resolves r => (400 <=? status r)%Z && (status r <? 500)%Z
  | Rejects _ => false
  end.

(** The failures the run goes on from, said of the error with which
    the attempt ends: it is not named [ClientError], and it is not a
    [TypeError] other than a network error. *)
Definition transient `{Runtime} `{Libraries} (x : Exchange) : bool :=
  match attempt_failure x with
  | Some e =>
      negb (String.eqb (err_name e) "ClientError")
      && negb (String.eqb (err_name e) "TypeError" && negb (is_network_error (err_message e)))
  | None => false
  end.

(** An error from outside the sources (of a rejected [fetch], of a body
    that is not JSON) from which the retry goes on.  p-retry stops at a
    [TypeError] that is no network error, and the client at an error
    named [ClientError], a name that only the client itself gives. *)
Definition goes_on_from `{Libraries} (e : JsError) : bool :=
  negb (String.eqb (err_name e) "ClientError")
  && negb (String.eqb (err_name e) "TypeError" && negb (is_network_error (err_message e))).

(** A failure other than an answer with a status in 400-499, said of the
    exchange itself: the request is rejected (a timeout, when the abort
    signal fires and [fetch] rejects with an [AbortError]; a transport
    error), the answer is not [ok] and its status is outside 400-499
    (500 and above, that is, or below 200 or in 300-399), or the body of
    an [ok] answer is not JSON. *)
Definition other_failure `{Libraries} (x : Exchange) : bool :=
  match answer x with
  | Rejects e => goes_on_from e
  | Resolves r =>
      if ok r then match json r with inl e => goes_on_from e | inr _ => false end
      else negb (client_error x)
  end.

Definition failure_of `{Runtime} (x : Exchange) : JsError :=
  match attempt_failure x with
  | Some e => e
  | None => mkError "" ""
  end.

(** The errors of the [count] attempts that start at request number
    [first]. *)
Definition failures `{Runtime} (u : nat -> Exchange) (first count : nat) : list JsError :=
  map (fun i => failure_of (u (first + i)%nat)) (seq 0 count).

(** Requests and back-off delays of a run in which the first attempt and
    all [left] retries fail; [i] counts the retries already made.  The
    delay before retry [i] is [1000 * 2^i] ms, at most [10000] ms. *)
Fixpoint retry_trace (request : Request) (left i : nat) : list Event :=
  match left with
  | O => [ Fetch request ]
  | S left' =>
      Fetch request :: Sleep (Z.min (1000 * 2 ^ Z.of_nat i) 10000)
        :: retry_trace request left' (S i)
  end.











(** The tables the parser works from:
    [lighthouseResult?.audits || {}] and [lighthouseResult?.categories || {}]. *)
Definition audits_table (response : value) : value :=
  js_or (opt_prop (opt_prop response "lighthouseResult") "audits") (VObj []).

Definition categories_table (response : value) : value :=
  js_or (opt_prop (opt_prop response "lighthouseResult") "categories") (VObj []).

(** The [auditRefs] of a category, in upstream order; none when the
    category or its [auditRefs] is missing. *)
Definition auditRefs_of (response : value) (name : string) : list value :=
  match opt_prop (opt_prop (categories_table response) name) "auditRefs" with
  | VArr refs => refs
  | _ => []
  end.

(** The audit a reference points to. *)
Definition referenced_audit (response ref : value) : value :=
  match opt_prop ref "id" with
  | VStr id => opt_prop (audits_table response) id
  | _ => VUndefined
  end.

(** The audit has a score that is not [null] and is strictly below 1. *)
Definition below_perfect (audit : value) : bool :=
  match opt_prop audit "score" with
  | VNum q => Qltb q 1%Q
  | _ => false
  end.

(** The summary entry of a referenced audit. *)
Definition listed (response ref : value) : value :=
  let audit := referenced_audit response ref in
  VObj
    [ ("id", opt_prop ref "id");
      ("title", js_or (opt_prop audit "title") (opt_prop ref "id"));
      ("score", opt_prop audit "score");
      ("description", opt_prop audit "description") ].

(** What the design document asks of [keyAudits]: the referenced audits
    whose score is below 1, in upstream order, the first five at most. *)
Definition failing_audits (response : value) (name : string) : value :=
  VArr (map (listed response)
          (firstn 5
             (List.filter (fun ref => below_perfect (referenced_audit response ref))
                (auditRefs_of response name)))).

(** The declared types: an audit reference is an object with a string
    [id]; an audit, when present, is an object whose [score] is a number
    or [null]. *)
Definition typed_audit (audit : value) : bool :=
  match audit with
  | VUndefined => true
  | VObj _ =>
      match opt_prop audit "score" with
      | VNum _ | VNull | VUndefined => true
      | _ => false
      end
  | _ => false
  end.

Definition typed_ref (response ref : value) : bool :=
  match ref with
  | VObj _ =>
      match opt_prop ref "id" with
      | VStr _ => typed_audit (referenced_audit response ref)
      | _ => false
      end
  | _ => false
  end.

(** A category whose [auditRefs], when present, is an array of typed
    references. *)
Definition typed_category (response : value) (name : string) : bool :=
  let auditRefs := opt_prop (opt_prop (categories_table response) name) "auditRefs" in
  negb (truthy auditRefs)
  || match auditRefs with
     | VArr refs => forallb (typed_ref response) refs
     | _ => false
     end.

(** The four categories next to performance: their key in the upstream
    response and in the summary. *)
Definition other_categories : list (string * string) :=
  [ ("accessibility", "accessibility"); ("seo", "seo");
    ("best-practices", "bestPractices"); ("pwa", "pwa") ].

Definition typed_categories (response : value) : bool :=
  Schemas.is_object response
  && forallb (fun c => typed_category response (fst c)) other_categories.

(** [details.items] of the audit stored under [name]. *)
Definition items_of (response : value) (name : string) : value :=
  ResponseParser.details_items (opt_prop (audits_table response) name).

(** A list the parser maps over: missing (anything falsy), or an array
    of objects. *)
Definition item_list (v : value) : bool :=
  negb (truthy v)
  || match v with
     | VArr items => forallb Schemas.is_object items
     | _ => false
     end.

(** The audits whose [details.items] the parser maps over. *)
Definition listed_audits : list string :=
  [ "screenshot-thumbnails"; "layout-shift-elements"; "network-requests";
    "resource-summary"; "bootup-time"; "mainthread-work-breakdown";
    "unused-javascript"; "duplicated-javascript"; "legacy-javascript";
    "uses-responsive-images"; "offscreen-images"; "uses-optimized-images";
    "modern-image-formats"; "render-blocking-resources"; "third-party-summary";
    "third-party-facades" ].

(** [item.subItems?.items] of a legacy-javascript item: nullish, or an
    array of objects. *)
Definition sub_list (item : value) : bool :=
  let subs := opt_prop (opt_prop item "subItems") "items" in
  nullish subs
  || match subs with
     | VArr items => forallb Schemas.is_object items
     | _ => false
     end.

(** A field that is summed up: a number, or missing. *)
Definition summable (v : value) : bool :=
  match v with
  | VNum _ | VUndefined | VNull => true
  | _ => false
  end.

Definition every_item (p : value -> bool) (v : value) : bool :=
  match v with
  | VArr items => forallb p items
  | _ => true
  end.

(** The inputs on which the parser is total: an object in which every
    list that is mapped over is an array of objects when it is present,
    the third-party sizes and times are numbers, and the categories are
    typed. *)
Definition well_shaped (response : value) : bool :=
  Schemas.is_object response
  && forallb (fun name => item_list (items_of response name)) listed_audits
  && every_item sub_list (items_of response "legacy-javascript")
  && every_item
       (fun item =>
          summable (opt_prop item "transferSize") && summable (opt_prop item "blockingTime"))
       (items_of response "third-party-summary")
  && forallb (fun c => typed_category response (fst c)) other_categories.

(** The default shapes. *)
Definition default_visual : value :=
  VObj [ ("finalScreenshot", VNull); ("filmstrip", VArr []); ("fullPageScreenshot", VNull) ].

Definition default_elements : value :=
  VObj [ ("lcpElement", VNull); ("clsElements", VArr []); ("lazyLoadedLcp", VNull) ].

Definition default_network : value :=
  VObj
    [ ("requests", VArr []); ("resourceSummary", VArr []); ("totalByteWeight", num 0);
      ("requestCount", num 0); ("rtt", VNull); ("serverLatency", VNull) ].

Definition default_javascript : value :=
  VObj
    [ ("bootupTime", VArr []); ("mainThreadWork", VArr []); ("unusedJavaScript", VArr []);
      ("duplicatedJavaScript", VArr []); ("legacyJavaScript", VArr []) ].

Definition default_images : value :=
  VObj
    [ ("responsiveImages", VArr []); ("offscreenImages", VArr []);
      ("unoptimizedImages", VArr []); ("modernFormats", VArr []) ].

Definition default_render_blocking : value :=
  VObj [ ("resources", VArr []); ("totalWastedMs", num 0); ("criticalChains", VNull) ].

Definition default_third_party : value :=
  VObj
    [ ("summary", VArr []); ("totalBlockingTime", num 0); ("totalTransferSize", num 0);
      ("facades", VArr []) ].

Definition default_category : value := VObj [ ("score", VNull); ("keyAudits", VArr []) ].

Definition default_categories : value :=
  VObj
    [ ("accessibility", default_category); ("seo", default_category);
      ("bestPractices", default_category); ("pwa", default_category) ].

Definition default_metrics : value :=
  VObj
    (map (fun k => (k, VUndefined))
       [ "firstContentfulPaint"; "largestContentfulPaint"; "cumulativeLayoutShift";
         "totalBlockingTime"; "maxPotentialFID"; "speedIndex"; "timeToInteractive";
         "firstMeaningfulPaint"; "observedFirstContentfulPaint";
         "observedLargestContentfulPaint"; "observedSpeedIndex";
         "observedDomContentLoaded"; "observedLoad"; "observedNavigationStart";
         "observedTimeOrigin"; "observedTraceEnd" ]).

(** A response in which the thumbnails audit lists a [null] item. *)
Definition null_thumbnail : value :=
  VObj
    [ ("lighthouseResult",
        VObj
          [ ("audits",
              VObj
                [ ("screenshot-thumbnails",
                    VObj [ ("details", VObj [ ("items", VArr [ VNull ]) ]) ]) ]) ]) ].

(** The nine extraction functions. *)
Inductive Extractor : Type :=
| Visual | Elements | Network | JavaScript | Images | RenderBlocking | ThirdParty
| Categories | Metrics.

Definition extract `{Runtime} (x : Extractor) : value -> outcome value :=
  match x with
  | Visual => ResponseParser.extractVisualData
  | Elements => ResponseParser.extractElementData
  | Network => ResponseParser.extractNetworkData
  | JavaScript => ResponseParser.extractJavaScriptData
  | Images => ResponseParser.extractImageOptimizationData
  | RenderBlocking => ResponseParser.extractRenderBlockingData
  | ThirdParty => ResponseParser.extractThirdPartyData
  | Categories => ResponseParser.extractOtherCategories
  | Metrics => ResponseParser.extractDetailedMetrics
  end.

(** The ways in which a view asks whether an audit has the part it
    needs. *)
Definition has_items (audit : value) : bool := truthy (ResponseParser.details_items audit).
Definition has_first_node (audit : value) : bool :=
  truthy (opt_prop (opt_first (ResponseParser.details_items audit)) "node").
Definition has_detail (k : string) (audit : value) : bool :=
  truthy (opt_prop (opt_prop audit "details") k).
Definition has_details (audit : value) : bool := truthy (opt_prop audit "details").
Definition has_value (audit : value) : bool := truthy (opt_prop audit "numericValue").
Definition has_defined_value (audit : value) : bool :=
  negb (is_undefined (opt_prop audit "numericValue")).

(** A part of a view: the audit it is taken from, the test for the part
    being there, the field of the view it fills, and the default the
    field has otherwise. *)
Record Part : Type := {
  extractor : Extractor;
  from_audit : string;
  present : value -> bool;
  field : string;
  default : value
}.

Definition part (x : Extractor) (audit : string) (p : value -> bool) (f : string) (d : value)
    : Part :=
  {| extractor := x; from_audit := audit; present := p; field := f; default := d |}.

Definition parts : list Part :=
  [ part Visual "final-screenshot" (has_detail "data") "finalScreenshot" VNull;
    part Visual "screenshot-thumbnails" has_items "filmstrip" (VArr []);
    part Visual "full-page-screenshot" (has_detail "screenshot") "fullPageScreenshot" VNull;
    part Elements "largest-contentful-paint-element" has_first_node "lcpElement" VNull;
    part Elements "layout-shift-elements" has_items "clsElements" (VArr []);
    part Elements "lcp-lazy-loaded" has_first_node "lazyLoadedLcp" VNull;
    part Network "network-requests" has_items "requests" (VArr []);
    part Network "network-requests" has_items "requestCount" (num 0);
    part Network "resource-summary" has_items "resourceSummary" (VArr []);
    part Network "total-byte-weight" has_value "totalByteWeight" (num 0);
    part Network "network-rtt" has_defined_value "rtt" VNull;
    part Network "network-server-latency" has_defined_value "serverLatency" VNull;
    part JavaScript "bootup-time" has_items "bootupTime" (VArr []);
    part JavaScript "mainthread-work-breakdown" has_items "mainThreadWork" (VArr []);
    part JavaScript "unused-javascript" has_items "unusedJavaScript" (VArr []);
    part JavaScript "duplicated-javascript" has_items "duplicatedJavaScript" (VArr []);
    part JavaScript "legacy-javascript" has_items "legacyJavaScript" (VArr []);
    part Images "uses-responsive-images" has_items "responsiveImages" (VArr []);
    part Images "offscreen-images" has_items "offscreenImages" (VArr []);
    part Images "uses-optimized-images" has_items "unoptimizedImages" (VArr []);
    part Images "modern-image-formats" has_items "modernFormats" (VArr []);
    part RenderBlocking "render-blocking-resources" has_items "resources" (VArr []);
    part RenderBlocking "render-blocking-resources" has_items "totalWastedMs" (num 0);
    part RenderBlocking "critical-request-chains" has_details "criticalChains" VNull;
    part ThirdParty "third-party-summary" has_items "summary" (VArr []);
    part ThirdParty "third-party-summary" has_items "totalBlockingTime" (num 0);
    part ThirdParty "third-party-summary" has_items "totalTransferSize" (num 0);
    part ThirdParty "third-party-facades" has_items "facades" (VArr []) ].

(* ===================================================================== *)
(** * Part XIV.  Vocabulary of the further properties                     *)
(* ===================================================================== *)

(** The most requests one call of the client can make. *)
Definition request_budget (env : Environment) (c : ClientCall) : nat :=
  match c with
  | AnalyzePageSpeed _ => S (RETRY_ATTEMPTS env)
  | GetCruxData _ => 1
  end.

(** The values of [CategorySchema] and of [StrategySchema]. *)
Definition category_names : list string :=
  [ "performance"; "accessibility"; "best-practices"; "seo"; "pwa" ].

Definition strategy_names : list string := [ "mobile"; "desktop" ].

(** A member of the argument object that is either left out, and then
    takes its default, or given, and then satisfies its constraint. *)
Definition defaulted {A} (given : value) (parsed default : A)
    (shown : A -> value) (constraint : A -> Prop) : Prop :=
  (given = VUndefined /\ parsed = default)
  \/ (given = shown parsed /\ constraint parsed).

(** The arguments that [AnalyzePageSpeedSchema] turns into [input]. *)
Definition analysis_arguments `{Libraries} (args : value) (input : AnalyzePageSpeedInput) : Prop :=
  Schemas.is_object args = true
  /\ opt_prop args "url" = VStr (url input) /\ is_url (url input) = true
  /\ defaulted (opt_prop args "strategy") (strategy input) "mobile" VStr
       (fun s => In s strategy_names)
  /\ (exists cats,
        category input = Some cats
        /\ defaulted (opt_prop args "category") cats [ "performance" ]
             (fun cats => VArr (map VStr cats))
             (Forall (fun c => In c category_names)))
  /\ defaulted (opt_prop args "locale") (locale input) "en" VStr
       (fun l => Schemas.locale_format l = true).

(** The tools whose handlers are embedded above, each with the text its
    [catch] puts in front of the error message. *)
Definition answering_tools : list (string * string) :=
  [ ("get_performance_summary", "Error getting performance summary: ");
    ("crux_summary", "Error getting CrUX data: ");
    ("batch_analyze", "Error in batch analysis: ");
    ("clear_cache", "❌ Error clearing cache: ") ].

(** The error [schema.parse] throws for the issues it found. *)
Definition validation_error `{Libraries} (issues : list ZodIssue) : JsError :=
  {| err_name := "ZodError"; err_message := zod_message issues |}.

(** The first thing to go wrong when validated arguments are handed to
    the client and the client's answer is turned into a reply. *)
Definition first_error `{Libraries} {A B} (arguments : Schemas.parsed A)
    (call : A -> outcome value) (format : A -> value -> outcome B) : option JsError :=
  match arguments with
  | inl issues => Some (validation_error issues)
  | inr input =>
      match call input with
      | Throw e => Some e
      | Ok answer =>
          match format input answer with
          | Throw e => Some e
          | Ok _ => None
          end
      end
  end.

(** The error that serving a call of one of these tools in the world [w]
    runs into, if any: the arguments do not pass validation, the call of
    the client fails, or its answer cannot be formatted.  A batch
    catches the failures of its URLs one by one and lists them in its
    report, and clearing the cache cannot fail. *)
Definition caught `{Runtime} `{Libraries} (env : Environment) (name : string) (args : value)
    (w : World) : option JsError :=
  if String.eqb name "get_performance_summary" then
    first_error (Schemas.PerformanceSummarySchema args)
      (fun input =>
         fst (PageSpeedClient.analyzePageSpeed env
                {| url := fst input; strategy := snd input;
                   category := Some [ "performance" ]; locale := "en" |} w))
      (fun input answer => Server.createPerformanceSummary answer (fst input) (snd input))
  else if String.eqb name "crux_summary" then
    first_error (Schemas.CruxSummarySchema args)
      (fun input => fst (PageSpeedClient.getCruxData env input w))
      (fun input answer => Server.formatCruxSummary answer (crux_url input))
  else if String.eqb name "batch_analyze" then
    match Schemas.BatchAnalyzeSchema args with
    | inl issues => Some (validation_error issues)
    | inr _ => None
    end
  else None.

(** The character [c] does not occur in [s]. *)
Fixpoint free_of (c : ascii) (s : string) : bool :=
  match s with
  | EmptyString => true
  | String x rest => negb (Ascii.eqb x c) && free_of c rest
  end.

(** The category lists that stand for the default: the client writes
    ["performance"] into the key for both. *)
Definition default_category_list (c : option (list string)) : Prop :=
  c = None \/ c = Some [] \/ c = Some [ "performance" ].

(** The form factors that stand for the default ["PHONE"]. *)
Definition default_form_factor (f : option string) : Prop :=
  f = None \/ f = Some "PHONE".

(** What the proofs about numbers take from IEEE 754 arithmetic: the
    result of an addition or a multiplication is the exact result
    rounded to the nearest double, so it does not fall below an integer
    (of magnitude up to 2^53, which is a double) that the exact result
    does not fall below; and [Math.round(x)], the integer nearest to
    [x], does not fall below an integer that [x] does not fall below. *)
Class MonotoneRuntime `{Runtime} : Prop := {
  add_not_below :
    forall (z : Z) (x y : Q),
      (Z.abs z <= 2 ^ 53)%Z -> (inject_Z z <= x + y)%Q -> (inject_Z z <= number_add x y)%Q;
  mul_not_below :
    forall (z : Z) (x y : Q),
      (Z.abs z <= 2 ^ 53)%Z -> (inject_Z z <= x * y)%Q -> (inject_Z z <= number_mul x y)%Q;
  round_not_below :
    forall (z : Z) (x : Q), (inject_Z z <= x)%Q -> (inject_Z z <= math_round x)%Q
}.

(** An audit whose score is as Lighthouse gives it: a number from 0 to
    1, [null], or absent. *)
Definition unit_score (audit : value) : bool :=
  match opt_prop audit "score" with
  | VNum q => Qle_bool 0 q && Qle_bool q 1
  | VUndefined | VNull => true
  | _ => false
  end.

Definition scores_in_range (response : value) : bool :=
  forallb (fun kv => unit_score (snd kv)) (object_entries (audits_table response)).

(** The audits for which the engine has advice to give: present, with a
    score that is neither 1 nor [null], and with an entry in the
    table. *)
Definition advised (kv : string * value) : bool :=
  truthy (snd kv)
  && negb (is_one (opt_prop (snd kv) "score"))
  && negb (is_null (opt_prop (snd kv) "score"))
  && match Recommendations.get (fst kv) Recommendations.auditMappings with
     | Some _ => true
     | None => false
     end.

(** A priority that is a number from [lo] to [hi]. *)
Definition priority_within (lo hi : Q) (r : Recommendations.Recommendation) : Prop :=
  exists p, Recommendations.priority r = VNum p /\ (lo <= p)%Q /\ (p <= hi)%Q.

(** A priority that is a number. *)
Definition rated (r : Recommendations.Recommendation) : Prop :=
  exists p, Recommendations.priority r = VNum p.

(** [a] does not rank below [b]. *)
Definition ranks_no_lower (a b : Recommendations.Recommendation) : Prop :=
  match Recommendations.priority a, Recommendations.priority b with
  | VNum x, VNum y => (y <= x)%Q
  | _, _ => False
  end.

(** The verdict of a comparison on a metric, and the verdict with the
    two pages exchanged. *)
Definition verdict_of (comparison : value) (metric : string) : value :=
  opt_prop (opt_prop (opt_prop (opt_prop comparison "comparison") "metrics") metric) "better".

Definition exchanged (verdict : value) : value :=
  match verdict with
  | VStr v =>
      if String.eqb v "A" then VStr "B" else if String.eqb v "B" then VStr "A" else VStr v
  | _ => verdict
  end.

Definition score_of (comparison : value) (page : string) : value :=
  opt_prop (opt_prop (opt_prop comparison "comparison") "scores") page.

(** An entry of [metrics] with the two pages exchanged. *)
Definition exchanged_entry (kv : string * value) : string * value :=
  (fst kv,
   VObj [ ("urlA", opt_prop (snd kv) "urlB");
          ("urlB", opt_prop (snd kv) "urlA");
          ("better", exchanged (opt_prop (snd kv) "better")) ]).

(** The performance summary's view of a response: the [auditRefs] of the
    performance category, the audit a reference points to, and the
    entry listed for it. *)
Definition summary_refs (d : value) : value :=
  opt_prop
    (opt_prop (opt_prop (opt_prop d "lighthouseResult") "categories") "performance")
    "auditRefs".

Definition summary_audit (d ref : value) : value :=
  match opt_prop ref "id" with
  | VStr id => opt_prop (opt_prop (opt_prop d "lighthouseResult") "audits") id
  | _ => VUndefined
  end.

Definition is_opportunity_audit (audit : value) : bool :=
  is_string "opportunity" (opt_prop (opt_prop audit "details") "type").

Definition opportunity_entry (d ref : value) : value :=
  let audit := summary_audit d ref in
  VObj
    [ ("id", opt_prop ref "id");
      ("title", opt_prop audit "title");
      ("description", opt_prop audit "description");
      ("score", opt_prop audit "score");
      ("displayValue", opt_prop audit "displayValue") ].

(** An audit reference as declared: an object with a string [id]. *)
Definition ref_with_id (ref : value) : bool :=
  match ref with
  | VObj _ => match opt_prop ref "id" with VStr _ => true | _ => false end
  | _ => false
  end.

(** The score of a category in a response, and in the parser's view. *)
Definition category_score_of (response : value) (name : string) : value :=
  opt_prop (opt_prop (categories_table response) name) "score".

Definition view_score (view : value) (key : string) : value :=
  opt_prop (opt_prop view key) "score".


(* ===================================================================== *)
(** * Part XV.  Evaluation lemmas                                         *)
(* ===================================================================== *)

Lemma obind_ok {A B} (o : outcome A) (k : A -> outcome B) (b : B) :
  obind o k = Ok b -> exists a, o = Ok a /\ k a = Ok b.
Proof. destruct o as [a|e]; simpl; [eauto | discriminate]. Qed.

Lemma opt_prop_of_prop v k x : prop v k = Ok x -> opt_prop v k = x.
Proof. unfold opt_prop. intros ->. reflexivity. Qed.

Lemma prop_present v k : nullish v = false -> prop v k = Ok (opt_prop v k).
Proof. destruct v; simpl; intros Hn; try discriminate; reflexivity. Qed.

Lemma truthy_not_nullish v : truthy v = true -> nullish v = false.
Proof. destruct v; simpl; intros Hn; try discriminate; reflexivity. Qed.

Lemma opt_prop_truthy_parent v k : truthy (opt_prop v k) = true -> nullish v = false.
Proof. destruct v; simpl; intros Hn; try discriminate; reflexivity. Qed.

Lemma lookup_absent k fs : has_own k fs = false -> lookup_field k fs = VUndefined.
Proof.
  induction fs as [|[k' v] fs IH]; simpl; [reflexivity|].
  destruct (String.eqb k k'); simpl; [discriminate | exact IH].
Qed.

(** Inversion of a successful sequence of evaluations. *)
Ltac inv_all :=
  repeat match goal with
  | H : obind _ _ = Ok _ |- _ =>
      let a := fresh "a" in let Ha := fresh "Ha" in
      apply obind_ok in H; destruct H as (a & Ha & H)
  | H : Ok _ = Ok _ |- _ => injection H as H; subst
  end.

Lemma opt_prop_present_parent v k : nullish (opt_prop v k) = false -> nullish v = false.
Proof. destruct v; simpl; intros Hn; try discriminate; reflexivity. Qed.

Lemma forallb_Forall {A} (p : A -> bool) (l : list A) :
  forallb p l = true -> Forall (fun x => p x = true) l.
Proof.
  induction l as [|x l IH]; simpl; [constructor|].
  intros Hb. apply andb_prop in Hb. destruct Hb. constructor; auto.
Qed.

(** A chain [v?.a?.b] that is truthy can be read again with plain
    member accesses. *)
Lemma chain2 v a b :
  truthy (opt_prop (opt_prop v a) b) = true ->
  prop v a = Ok (opt_prop v a)
  /\ prop (opt_prop v a) b = Ok (opt_prop (opt_prop v a) b).
Proof.
  intros Ht. pose proof (opt_prop_truthy_parent _ _ Ht) as Hp.
  split; apply prop_present; [apply (opt_prop_present_parent _ _ Hp) | exact Hp].
Qed.

(* ===================================================================== *)
(** * Part XVI.  The performance summary (C10)                            *)
(* ===================================================================== *)

Section PerformanceSummary.
Context `{Runtime} `{Libraries}.

(** C10.  In the performance summary built for a tool response, a
    performance score that is the number 0 is reported as [null], the
    value also reported when the score is absent: the score is tested
    for truthiness before it is scaled to 0-100. *)
Theorem zero_score_reported_as_null (d : value) (url strategy : string) (summary : value) :
  Server.createPerformanceSummary d url strategy = Ok summary ->
  is_zero (performance_score d) = true \/ performance_score d = VUndefined ->
  summary_score summary = VNull.
Proof.
  unfold Server.createPerformanceSummary, performance_score. intros Hs Hz.
  apply obind_ok in Hs. destruct Hs as (lighthouse & Hl & Hs).
  rewrite (opt_prop_of_prop _ _ _ Hl) in Hz.
  set (performance := opt_prop (opt_prop lighthouse "categories") "performance") in *.
  assert (Hf : truthy (opt_prop performance "score") = false).
  { destruct Hz as [Hz|Hz]; [|rewrite Hz; reflexivity].
    destruct (opt_prop performance "score"); simpl in Hz; try discriminate.
    simpl. rewrite Hz. reflexivity. }
  rewrite Hf in Hs. unfold object in Hs. simpl in Hs.
  inv_all. reflexivity.
Qed.

End PerformanceSummary.

Lemma zero_score_reported_as_null_witness :
  @Server.createPerformanceSummary exact_runtime
      (response_with_performance [ ("score", num 0) ]) "https://example.com" "mobile"
    = Ok (VObj
            [ ("url", VStr "https://example.com"); ("strategy", VStr "mobile");
              ("timestamp", VStr "2023-01-01T00:00:00.000Z");
              ("performance",
                VObj
                  [ ("score", VNull);
                    ("metrics",
                      VObj
                        [ ("firstContentfulPaint", VUndefined);
                          ("largestContentfulPaint", VUndefined);
                          ("cumulativeLayoutShift", VUndefined);
                          ("speedIndex", VUndefined);
                          ("totalBlockingTime", VUndefined);
                          ("firstInputDelay", VUndefined) ]) ]);
              ("opportunities", VArr []) ])
  /\ summary_score
       (VObj
          [ ("url", VStr "https://example.com"); ("strategy", VStr "mobile");
            ("timestamp", VStr "2023-01-01T00:00:00.000Z");
            ("performance",
              VObj
                [ ("score", VNull);
                  ("metrics",
                    VObj
                      [ ("firstContentfulPaint", VUndefined);
                        ("largestContentfulPaint", VUndefined);
                        ("cumulativeLayoutShift", VUndefined);
                        ("speedIndex", VUndefined);
                        ("totalBlockingTime", VUndefined);
                        ("firstInputDelay", VUndefined) ]) ]);
            ("opportunities", VArr []) ]) = VNull.
Proof.
  split; [reflexivity|].
  apply (@zero_score_reported_as_null exact_runtime
           (response_with_performance [ ("score", num 0) ]) "https://example.com" "mobile").
  - reflexivity.
  - left. reflexivity.
Defined.

(** The same summary comes out when the score is missing. *)
Example missing_score_reported_as_null :
  @Server.createPerformanceSummary exact_runtime
      (response_with_performance []) "https://example.com" "mobile"
  = @Server.createPerformanceSummary exact_runtime
      (response_with_performance [ ("score", num 0) ]) "https://example.com" "mobile".
Proof. reflexivity. Qed.

(* ===================================================================== *)
(** * Part XVII.  Dispatch on the tool name (C7)                          *)
(* ===================================================================== *)

Section Dispatch.
Context `{Runtime} `{Libraries}.
Variable env : Environment.
Variable other_handler : string -> value -> M ToolResponse.

(** C7 (as the code has it).  For a tool name that is not one of the
    sixteen registered names the call-tool handler returns no content
    response at all: it throws [Error("Unknown tool: <name>")], which
    leaves the handler, and the world is as it was before the call. *)
Theorem unknown_tool_throws (name : string) (args : value) (w : World) :
  ~ In name Server.tool_names ->
  Server.callTool env other_handler name args w
  = (Throw {| err_name := "Error"; err_message := "Unknown tool: " ++ name |}, w).
Proof.
  intros Hnot. unfold Server.callTool.
  repeat match goal with
  | |- context [String.eqb name ?s] =>
      destruct (String.eqb_spec name s) as [->|_];
      [exfalso; apply Hnot; simpl; tauto|]
  end.
  reflexivity.
Qed.

(** For contrast: arguments that fail validation are answered, with an
    error-flagged reply, by the handler that was called. *)
Lemma invalid_arguments_are_answered (args : value) (issues : list ZodIssue) (w : World) :
  Schemas.CruxSummarySchema args = inl issues ->
  Server.callTool env other_handler "crux_summary" args w
  = (Ok {| content := [ Plain ("Error getting CrUX data: " ++ zod_message issues) ];
           isError := true |}, w).
Proof.
  intros Hbad. unfold Server.callTool. simpl.
  unfold Server.handleCruxSummary, try_catch, bind, Schemas.parse. rewrite Hbad. reflexivity.
Qed.

End Dispatch.

Lemma unknown_tool_throws_witness :
  @Server.callTool exact_runtime plain_libraries default_env canned_report
     "delete_everything" (VObj []) (boot 0 healthy)
  = (Throw {| err_name := "Error"; err_message := "Unknown tool: delete_everything" |},
     boot 0 healthy).
Proof.
  apply (@unknown_tool_throws exact_runtime plain_libraries default_env canned_report
           "delete_everything" (VObj []) (boot 0 healthy)).
  simpl. intros Hin.
  repeat (destruct Hin as [Hin|Hin]; [discriminate Hin|]). exact Hin.
Defined.

(** The claim as it was stated fails here: the call yields no
    error-flagged content response. *)
Lemma unknown_tool_gets_no_response :
  ~ exists (r : ToolResponse) (w' : World),
      @Server.callTool exact_runtime plain_libraries default_env canned_report
         "delete_everything" (VObj []) (boot 0 healthy) = (Ok r, w')
      /\ isError r = true.
Proof. intros (r & w' & Hcall & _). vm_compute in Hcall. discriminate Hcall. Qed.

(* ===================================================================== *)
(** * Part XVIII.  The CrUX summary without a record (C8)                 *)
(* ===================================================================== *)

Section CruxSummary.
Context `{Runtime} `{Libraries}.
Variable env : Environment.

Lemma formatCruxSummary_no_record (fields : list (string * value)) (url : string) :
  has_own "record" fields = false ->
  Server.formatCruxSummary (VObj fields) url
  = Ok ("# CrUX Field Data" ++ nl ++ nl ++ "**URL:** " ++ url ++ nl
          ++ "**Status:** No field data available (insufficient traffic)" ++ nl ++ nl
          ++ "This URL doesn't have enough real-world usage data in Chrome UX Report.").
Proof.
  intros Habsent. unfold Server.formatCruxSummary. simpl.
  rewrite (lookup_absent _ _ Habsent). reflexivity.
Qed.

(** C8.  Whenever the field-data call yields a result object that has no
    [record], the [crux_summary] tool answers with a reply whose error
    flag is not set and whose text says that no field data is available
    (insufficient traffic). *)
Theorem crux_summary_without_record
    (args : value) (input : CruxSummaryInput) (fields : list (string * value))
    (w w' : World) :
  Schemas.CruxSummarySchema args = inr input ->
  PageSpeedClient.getCruxData env input w = (Ok (VObj fields), w') ->
  has_own "record" fields = false ->
  Server.handleCruxSummary env args w = (Ok (no_field_data (crux_url input)), w').
Proof.
  intros Hparse Hdata Habsent.
  unfold Server.handleCruxSummary, try_catch, bind, Schemas.parse.
  rewrite Hparse. simpl. rewrite Hdata. unfold lift.
  rewrite (formatCruxSummary_no_record _ _ Habsent). reflexivity.
Qed.

End CruxSummary.

(** An upstream whose field-data answer carries no record. *)
Lemma crux_summary_without_record_witness :
  @Server.handleCruxSummary exact_runtime plain_libraries default_env
     (VObj [ ("url", VStr "https://example.com") ])
     (boot 0 (fun _ => http 200 "OK" "{}" (inr (VObj []))))
  = (Ok (no_field_data "https://example.com"),
     snd (@PageSpeedClient.getCruxData exact_runtime default_env
            {| crux_url := "https://example.com"; formFactor := None |}
            (boot 0 (fun _ => http 200 "OK" "{}" (inr (VObj [])))))).
Proof.
  apply (@crux_summary_without_record exact_runtime plain_libraries default_env
           (VObj [ ("url", VStr "https://example.com") ])
           {| crux_url := "https://example.com"; formFactor := None |} []).
  - reflexivity.
  - reflexivity.
  - reflexivity.
Defined.

(* ===================================================================== *)
(** * Part XIX.  Cache-first lookup (C1)                                  *)
(* ===================================================================== *)

Section CacheFirst.
Context `{Runtime} `{Libraries}.
Variable env : Environment.


Lemma getCached_miss (key : string) (w : World) :
  client_cache w !! key = None ->
  PageSpeedClient.getCached env key w = (Ok VNull, w).
Proof. intros Hnone. unfold PageSpeedClient.getCached. rewrite Hnone. reflexivity. Qed.



(** One attempt against an upstream that answers with a JSON body. *)
Lemma attempt_ok (request : Request) (n : nat) (w : World) (r : Response) (d : value) :
  answer (upstream w (fetched w)) = Resolves r ->
  ok r = true ->
  json r = inr d ->
  PageSpeedClient.attempt request n w = (Ok d, after_fetch request w).
Proof.
  intros Hans Hok Hjson.
  unfold PageSpeedClient.attempt, try_catch, bind, fetch, PageSpeedClient.read_json.
  rewrite Hans, Hok. simpl. rewrite Hjson. reflexivity.
Qed.

Lemma makeRequest_first_try (request : Request) (w : World) (r : Response) (d : value) :
  answer (upstream w (fetched w)) = Resolves r ->
  ok r = true ->
  json r = inr d ->
  PageSpeedClient.makeRequest env request w = (Ok d, after_fetch request w).
Proof.
  intros Hans Hok Hjson.
  unfold PageSpeedClient.makeRequest, PRetry.pRetry.
  destruct (PRetry.retries (PageSpeedClient.retryOptions env)); simpl;
    rewrite (attempt_ok request 1 w r d Hans Hok Hjson); reflexivity.
Qed.



End CacheFirst.



(* ===================================================================== *)
(** * Part XX.  Retry policy of the lab-analysis path (C2)                *)
(* ===================================================================== *)

Section Retry.
Context `{Runtime} `{Libraries}.
Variable env : Environment.

Lemma attempt_fails (request : Request) (n : nat) (w : World) (e : JsError) :
  attempt_failure (upstream w (fetched w)) = Some e ->
  PageSpeedClient.attempt request n w = (Throw e, after_fetch request w).
Proof.
  unfold attempt_failure, PageSpeedClient.attempt, try_catch, bind, fetch,
    PageSpeedClient.read_json.
  destruct (answer (upstream w (fetched w))) as [r|e'].
  - destruct (ok r); simpl.
    + destruct (json r); intros He; inversion He; reflexivity.
    + intros He; inversion He; reflexivity.
  - intros He; inversion He; reflexivity.
Qed.

Lemma client_error_failure (x : Exchange) (r : Response) :
  answer x = Resolves r ->
  (400 <= status r < 500)%Z ->
  attempt_failure x = Some (PageSpeedClient.psi_error r)
  /\ err_name (PageSpeedClient.psi_error r) = "ClientError".
Proof.
  intros Hans Hst. unfold attempt_failure, ok, PageSpeedClient.psi_error. rewrite Hans. simpl.
  destruct (Z.leb_spec 200 (status r)); [|lia].
  destruct (Z.leb_spec (status r) 299); [lia|]. simpl.
  destruct (Z.leb_spec 400 (status r)); [|lia].
  destruct (Z.ltb_spec (status r) 500); [|lia].
  split; reflexivity.
Qed.

(** A 4xx answer ends the run at the first attempt. *)
Lemma makeRequest_client_error (request : Request) (w : World) (r : Response) :
  answer (upstream w (fetched w)) = Resolves r ->
  (400 <= status r < 500)%Z ->
  PageSpeedClient.makeRequest env request w
  = (Throw (PageSpeedClient.psi_error r), after_fetch request w).
Proof.
  intros Hans Hst.
  destruct (client_error_failure _ r Hans Hst) as [Hfail Hname].
  unfold PageSpeedClient.makeRequest, PRetry.pRetry.
  destruct (PRetry.retries (PageSpeedClient.retryOptions env)); simpl;
    rewrite (attempt_fails request 1 w _ Hfail); rewrite Hname; reflexivity.
Qed.

Lemma transient_failure (x : Exchange) :
  transient x = true ->
  attempt_failure x = Some (failure_of x)
  /\ String.eqb (err_name (failure_of x)) "ClientError" = false
  /\ String.eqb (err_name (failure_of x)) "TypeError"
       && negb (is_network_error (err_message (failure_of x))) = false.
Proof.
  unfold transient, failure_of. destruct (attempt_failure x) as [e|]; [|discriminate].
  intros Ht. apply andb_prop in Ht. destruct Ht as [Hc Ht].
  apply negb_true_iff in Hc. apply negb_true_iff in Ht. auto.
Qed.

(** Failures of the other kind are, among others: an answer with a
    status of 500 and above; a timeout, where [fetch] rejects with an
    [AbortError]; a transport error, where it rejects with the
    [FetchError] of node-fetch or with a [TypeError] that p-retry takes
    for a network error. *)
Lemma named_failures_are_other_failures (x : Exchange) :
  (forall r, answer x = Resolves r -> (500 <= status r)%Z -> other_failure x = true)
  /\ (forall e, answer x = Rejects e -> err_name e = "AbortError" -> other_failure x = true)
  /\ (forall e, answer x = Rejects e -> err_name e = "FetchError" -> other_failure x = true)
  /\ (forall e, answer x = Rejects e -> err_name e = "TypeError" ->
                is_network_error (err_message e) = true -> other_failure x = true).
Proof.
  unfold other_failure, client_error, ok, goes_on_from. repeat split.
  - intros r -> Hst.
    destruct (Z.leb_spec 200 (status r)); [|lia].
    destruct (Z.leb_spec (status r) 299); [lia|]. simpl.
    destruct (Z.leb_spec 400 (status r)); [|lia].
    destruct (Z.ltb_spec (status r) 500); [lia|]. reflexivity.
  - intros e -> ->. reflexivity.
  - intros e -> ->. reflexivity.
  - intros e -> -> ->. reflexivity.
Qed.

(** The client and p-retry go on from every failure of the other kind:
    the error the client builds for an answer outside 400-499 is a
    plain [Error]. *)
Lemma other_failure_transient (x : Exchange) :
  other_failure x = true -> transient x = true.
Proof.
  unfold other_failure, transient, attempt_failure, client_error, goes_on_from.
  destruct (answer x) as [r|e]; [|auto].
  destruct (ok r); [destruct (json r) as [e|d]; [auto | discriminate]|].
  unfold PageSpeedClient.psi_error. cbn [err_name err_message].
  intros Hst. apply negb_true_iff in Hst. rewrite Hst. reflexivity.
Qed.

Lemma failures_cons (u : nat -> Exchange) (first count : nat) :
  failures u first (S count) = failure_of (u first) :: failures u (S first) count.
Proof.
  unfold failures. cbn [seq map]. rewrite Nat.add_0_r. f_equal.
  rewrite <- seq_shift, map_map. apply map_ext. intros i.
  replace (first + S i)%nat with (S first + i)%nat by lia. reflexivity.
Qed.

(** When the attempt and all the retries that are left fail with
    transient failures, the run makes all of them, with the back-off
    delays in between, and then rejects. *)
Lemma run_exhausts (request : Request) (left : nat) :
  forall (k : nat) (errors : list JsError) (w : World),
    (forall i, (i <= left)%nat -> transient (upstream w (fetched w + i)%nat) = true) ->
    exists w',
      PRetry.run (PageSpeedClient.retryOptions env) (PageSpeedClient.attempt request)
        left (S k) errors w
      = (Throw (surfaced_error (errors ++ failures (upstream w) (fetched w) (S left))%list), w')
      /\ fetched w' = (fetched w + S left)%nat
      /\ trace w' = (trace w ++ retry_trace request left k)%list
      /\ client_cache w' = client_cache w.
Proof.
  induction left as [|left IH]; intros k errors w Hall.
  - destruct (transient_failure _ (Hall 0%nat (Nat.le_refl _))) as (Hfail & Hc & Ht).
    rewrite Nat.add_0_r in Hfail, Hc, Ht.
    exists (after_fetch request w). simpl.
    rewrite (attempt_fails request (S k) w _ Hfail). rewrite Ht, Hc.
    unfold failures. simpl. rewrite Nat.add_0_r.
    repeat split; simpl; lia.
  - destruct (transient_failure _ (Hall 0%nat (Nat.le_0_l _))) as (Hfail & Hc & Ht).
    rewrite Nat.add_0_r in Hfail, Hc, Ht.
    cbn [PRetry.run].
    rewrite (attempt_fails request (S k) w _ Hfail). rewrite Ht.
    cbn [PRetry.onFailedAttempt PageSpeedClient.retryOptions]. rewrite Hc.
    cbn [sleep Nat.pred].
    set (w1 := log _ (advance _ (after_fetch request w))).
    destruct (IH (S k) (errors ++ [failure_of (upstream w (fetched w))])%list w1)
      as (w' & Hrun & Hf & Ht' & Hc').
    { intros i Hi. unfold w1. simpl.
      replace (S (fetched w + i)) with (fetched w + S i)%nat by lia.
      apply Hall. lia. }
    exists w'. rewrite Hrun.
    split.
    + rewrite (failures_cons (upstream w) (fetched w) (S left)).
      rewrite <- app_assoc. reflexivity.
    + split; [rewrite Hf; unfold w1; simpl; lia|].
      split; [|rewrite Hc'; reflexivity].
      rewrite Ht'. unfold w1, PRetry.createTimeout. simpl.
      repeat rewrite <- app_assoc. reflexivity.
Qed.

(** C2.  On the lab-analysis path an answer with a status in 400-499
    ends the call at once: one network attempt, no back-off, and the
    error is surfaced.  When the first attempt and all the configured
    retries fail in another way (a rejected request, as with a timeout
    or a transport error; an answer that is not [ok] with a status
    outside 400-499, as with 500 and above; a body that is not JSON),
    every one of them is made, with the delays 1 s, 2 s, 4 s, ...
    (factor 2, at most 10 s) in between, and after the last one a
    failure of these attempts is surfaced. *)
Theorem retry_policy (request : Request) (w : World) :
  (forall r : Response,
      answer (upstream w (fetched w)) = Resolves r ->
      (400 <= status r < 500)%Z ->
      PageSpeedClient.makeRequest env request w
      = (Throw (PageSpeedClient.psi_error r), after_fetch request w)
      /\ fetched (after_fetch request w) = S (fetched w)
      /\ trace (after_fetch request w) = (trace w ++ [ Fetch request ])%list)
  /\
  ((forall i, (i <= RETRY_ATTEMPTS env)%nat ->
              other_failure (upstream w (fetched w + i)%nat) = true) ->
   exists (e : JsError) (w' : World),
     PageSpeedClient.makeRequest env request w = (Throw e, w')
     /\ In e (failures (upstream w) (fetched w) (S (RETRY_ATTEMPTS env)))
     /\ fetched w' = (fetched w + S (RETRY_ATTEMPTS env))%nat
     /\ trace w' = (trace w ++ retry_trace request (RETRY_ATTEMPTS env) 0)%list).
Proof.
  split.
  - intros r Hans Hst.
    split; [apply makeRequest_client_error; assumption|]. split; reflexivity.
  - intros Hall.
    destruct (run_exhausts request (RETRY_ATTEMPTS env) 0 [] w
                (fun i Hi => other_failure_transient _ (Hall i Hi)))
      as (w' & Hrun & Hf & Ht & _).
    eexists. exists w'.
    split; [exact Hrun|]. split; [|split; assumption].
    apply surfaced_error_in. unfold failures. simpl. discriminate.
Qed.

End Retry.

(* ===================================================================== *)
(** * Part XXI.  Every exception of the sources carries a message         *)
(* ===================================================================== *)
















Section SpeaksCoercions.
Context `{Runtime}.





End SpeaksCoercions.


Section SpeaksSummary.
Context `{Runtime}.



End SpeaksSummary.

(* ===================================================================== *)
(** * Part XXII.  What a client call leaves untouched                     *)
(* ===================================================================== *)


Section ClientInvariants.
Context `{Runtime} `{Libraries}.
Variable env : Environment.



(** One attempt makes one request; if it fails, it fails with the
    failure of the exchange. *)
Lemma attempt_step (request : Request) (n : nat) (w : World) :
  snd (PageSpeedClient.attempt request n w) = after_fetch request w
  /\ forall e, fst (PageSpeedClient.attempt request n w) = Throw e ->
               attempt_failure (upstream w (fetched w)) = Some e.
Proof.
  unfold PageSpeedClient.attempt, try_catch, bind, fetch, attempt_failure,
    PageSpeedClient.read_json.
  destruct (answer (upstream w (fetched w))) as [r|e']; simpl.
  - destruct (ok r); simpl.
    + destruct (json r); simpl; split; try reflexivity; intros e He; inversion He; reflexivity.
    + split; [reflexivity|]. intros e He; inversion He; reflexivity.
  - split; [reflexivity|]. intros e He; inversion He; reflexivity.
Qed.




End ClientInvariants.

(* ===================================================================== *)
(** * Part XXIII.  Batch analysis (C5)                                    *)
(* ===================================================================== *)

Section Batch.
Context `{Runtime} `{Libraries}.
Variable env : Environment.












End Batch.

Section BatchValidation.
Context `{Runtime} `{Libraries}.
Variable env : Environment.

Lemma both_inr {A B} (a : Schemas.parsed A) (b : Schemas.parsed B) (x : A) (y : B) :
  Schemas.both a b = inr (x, y) -> a = inr x /\ b = inr y.
Proof.
  destruct a, b; simpl; intros Hb; inversion Hb; subst; split; reflexivity.
Qed.


Lemma parse_elements_length {A} (element : list PathSeg -> value -> Schemas.parsed A)
    (p : list PathSeg) (l : list value) :
  forall (i : nat) (xs : list A),
    Schemas.parse_elements element p i l = inr xs -> List.length xs = List.length l.
Proof.
  induction l as [|v l IH]; intros i xs; simpl.
  - intros Hp. inversion Hp. reflexivity.
  - destruct (Schemas.both _ _) as [e|[x xs']] eqn:Hb; intros Hp; inversion Hp; subst.
    apply both_inr in Hb. destruct Hb as [_ Hrest]. simpl. f_equal. apply (IH _ _ Hrest).
Qed.

(** The cardinality bound of the schema. *)
Lemma UrlsSchema_bounds (p : list PathSeg) (v : value) (us : list string) :
  Schemas.UrlsSchema p v = inr us -> (1 <= List.length us <= 10)%nat.
Proof.
  unfold Schemas.UrlsSchema. destruct v; try discriminate.
  destruct (Schemas.parse_elements _ _ _ _) as [e|xs] eqn:Hp; [discriminate|].
  apply parse_elements_length in Hp. rewrite <- Hp.
  destruct (Nat.ltb_spec (List.length xs) 1); simpl; [discriminate|].
  destruct (Nat.ltb_spec 10 (List.length xs)); simpl; [discriminate|].
  intros Hu. inversion Hu; subst. lia.
Qed.


Lemma BatchAnalyzeSchema_bounds (args : value) (input : Schemas.BatchAnalyzeInput) :
  Schemas.BatchAnalyzeSchema args = inr input ->
  (1 <= List.length (Schemas.urls input) <= 10)%nat.
Proof.
  unfold Schemas.BatchAnalyzeSchema. destruct (negb (Schemas.is_object args)); [discriminate|].
  destruct (Schemas.both _ _) as [e|[us [s [c l]]]] eqn:Hb; [discriminate|].
  intros Hi. inversion Hi; subst. simpl.
  apply both_inr in Hb. destruct Hb as [Hu _].
  apply (UrlsSchema_bounds _ _ _ Hu).
Qed.



End BatchValidation.

(* ===================================================================== *)
(** * Part XXIV.  Key audits of the other categories (C9)                 *)
(* ===================================================================== *)

Lemma mapO_pure {A B} (f : A -> outcome B) (g : A -> B) (l : list A) :
  Forall (fun x => f x = Ok (g x)) l -> mapO f l = Ok (map g l).
Proof.
  induction 1 as [|x l Hx _ IH]; simpl; [reflexivity|]. rewrite Hx. simpl. rewrite IH. reflexivity.
Qed.

Lemma filterO_pure {A} (p : A -> outcome bool) (b : A -> bool) (l : list A) :
  Forall (fun x => p x = Ok (b x)) l -> filterO p l = Ok (List.filter b l).
Proof.
  induction 1 as [|x l Hx _ IH]; simpl; [reflexivity|]. rewrite Hx. simpl. rewrite IH. reflexivity.
Qed.

Lemma Forall_filter {A} (P : A -> Prop) (b : A -> bool) (l : list A) :
  Forall P l -> Forall P (List.filter b l).
Proof.
  induction 1 as [|x l Hx _ IH]; simpl; [constructor|].
  destruct (b x); [constructor; assumption | assumption].
Qed.

Lemma or_empty_not_nullish (v : value) : nullish (js_or v (VObj [])) = false.
Proof. unfold js_or. destruct (truthy v) eqn:Ht; [apply truthy_not_nullish; exact Ht | reflexivity]. Qed.

Section KeyAudits.
Context `{Runtime}.

(** On a typed reference the two callbacks compute what the vocabulary
    says. *)
Lemma is_failing_typed (response ref : value) :
  typed_ref response ref = true ->
  exists v, ResponseParser.is_failing (audits_table response) ref = Ok v
            /\ truthy v = below_perfect (referenced_audit response ref).
Proof.
  unfold typed_ref, ResponseParser.is_failing, referenced_audit, elem.
  destruct ref as [| | | | | | |fs]; try discriminate.
  cbn [prop opt_prop obind].
  destruct (lookup_field "id" fs) as [| | | | |id| |]; try discriminate.
  cbn [to_string obind].
  rewrite (prop_present (audits_table response) id (or_empty_not_nullish _)).
  cbn [obind].
  set (audit := opt_prop (audits_table response) id).
  unfold typed_audit, below_perfect.
  destruct audit as [| | | | | | |afs]; try discriminate.
  - intros _. exists VUndefined. split; reflexivity.
  - cbn [truthy negb prop opt_prop obind].
    destruct (lookup_field "score" afs) as [| | |q| | | |]; try discriminate; intros _;
      cbn [is_null]; eexists; (split; [reflexivity|]); reflexivity.
Qed.

Lemma key_audit_typed (response ref : value) :
  typed_ref response ref = true ->
  below_perfect (referenced_audit response ref) = true ->
  ResponseParser.key_audit (audits_table response) ref = Ok (listed response ref).
Proof.
  unfold typed_ref, ResponseParser.key_audit, listed, referenced_audit, elem, object.
  destruct ref as [| | | | | | |fs]; try discriminate.
  cbn [prop opt_prop obind].
  destruct (lookup_field "id" fs) as [| | | | |id| |]; try discriminate.
  cbn [to_string obind].
  rewrite (prop_present (audits_table response) id (or_empty_not_nullish _)).
  cbn [obind].
  set (audit := opt_prop (audits_table response) id).
  unfold typed_audit, below_perfect.
  destruct audit as [| | | | | | |afs]; try discriminate.
  intros _ _. reflexivity.
Qed.

End KeyAudits.

Section KeyAuditsOfCategory.
Context `{Runtime}.

(** The body of the [forEach] on a typed category. *)
Lemma keyAudits_of_typed (response : value) (name : string) :
  typed_category response name = true ->
  ResponseParser.keyAudits_of (categories_table response) (audits_table response) name
  = Ok (failing_audits response name).
Proof.
  unfold typed_category, ResponseParser.keyAudits_of, failing_audits, auditRefs_of.
  rewrite (prop_present (categories_table response) name (or_empty_not_nullish _)).
  cbn [obind].
  set (category := opt_prop (categories_table response) name).
  destruct (truthy (opt_prop category "auditRefs")) eqn:Htruthy; simpl.
  - rewrite (prop_present category "auditRefs" (opt_prop_truthy_parent _ _ Htruthy)).
    cbn [obind].
    destruct (opt_prop category "auditRefs") as [| | | | | |refs|]; try discriminate.
    intros Htyped. apply forallb_Forall in Htyped.
    unfold js_filter. cbn [as_array obind].
    rewrite (filterO_pure _ (fun ref => below_perfect (referenced_audit response ref)) refs).
    + cbn [obind]. unfold js_map. cbn [as_array obind].
      rewrite (mapO_pure _ (listed response)).
      * cbn [obind js_slice0]. rewrite firstn_map. reflexivity.
      * apply List.Forall_forall. intros ref Hin. apply List.filter_In in Hin.
        destruct Hin as [Hin Hbelow].
        rewrite List.Forall_forall in Htyped.
        apply key_audit_typed; [apply Htyped; exact Hin | exact Hbelow].
    + eapply List.Forall_impl; [|exact Htyped]. intros ref Href. simpl in Href.
      destruct (is_failing_typed response ref Href) as (v & -> & <-). reflexivity.
  - intros _.
    destruct (opt_prop category "auditRefs"); try reflexivity; discriminate.
Qed.

(** On a typed response the summary is built without an exception and
    holds, per category, the audits the vocabulary names. *)
Lemma extractOtherCategories_typed (response : value) :
  typed_categories response = true ->
  exists summary : value,
    ResponseParser.extractOtherCategories response = Ok summary
    /\ forall name key : string,
         In (name, key) other_categories ->
         opt_prop (opt_prop summary key) "keyAudits" = failing_audits response name.
Proof.
  unfold typed_categories. intros Htyped. apply andb_prop in Htyped.
  destruct Htyped as [Hobj Htyped]. apply forallb_Forall in Htyped.
  rewrite List.Forall_forall in Htyped.
  assert (Hcat : forall name key, In (name, key) other_categories ->
            ResponseParser.keyAudits_of (categories_table response) (audits_table response) name
            = Ok (failing_audits response name)).
  { intros name key Hin. apply keyAudits_of_typed. apply (Htyped _ Hin). }
  destruct response as [| | | | | | |fields]; try discriminate.
  unfold ResponseParser.extractOtherCategories, ResponseParser.categories_of,
    ResponseParser.audits_of, ResponseParser.category_score.
  cbn [prop obind].
  change (js_or (opt_prop (lookup_field "lighthouseResult" fields) "categories") (VObj []))
    with (categories_table (VObj fields)).
  change (js_or (opt_prop (lookup_field "lighthouseResult" fields) "audits") (VObj []))
    with (audits_table (VObj fields)).
  rewrite !(prop_present (categories_table (VObj fields)) _ (or_empty_not_nullish _)).
  cbn [obind].
  rewrite (Hcat "accessibility" "accessibility"), (Hcat "seo" "seo"),
    (Hcat "best-practices" "bestPractices"), (Hcat "pwa" "pwa") by (simpl; tauto).
  cbn [obind]. eexists. split; [reflexivity|].
  intros name key Hin. simpl in Hin.
  destruct Hin as [Hin|[Hin|[Hin|[Hin|[]]]]]; inversion Hin; subst; reflexivity.
Qed.

(** C9.  For a response of the declared type, the summary lists under
    each of the four categories next to performance exactly the audits
    the category refers to whose score is not null and strictly below 1,
    in the order of the upstream [auditRefs], cut to the first five. *)
Theorem key_audits_are_the_first_five_failing (response : value) :
  typed_categories response = true ->
  exists summary : value,
    ResponseParser.extractOtherCategories response = Ok summary
    /\ forall name key : string,
         In (name, key) other_categories ->
         opt_prop (opt_prop summary key) "keyAudits"
         = VArr (map (listed response)
                   (firstn 5
                      (List.filter
                         (fun ref => below_perfect (referenced_audit response ref))
                         (auditRefs_of response name)))).
Proof.
  intros Htyped. destruct (extractOtherCategories_typed response Htyped) as (summary & Hs & Hk).
  exists summary. split; [exact Hs | exact Hk].
Qed.

End KeyAuditsOfCategory.

(* ===================================================================== *)
(** * Part XXV.  Totality of the response parser (C4)                     *)
(* ===================================================================== *)

Lemma mapO_total {A B} (f : A -> outcome B) (l : list A) :
  Forall (fun x => exists y, f x = Ok y) l -> exists ys, mapO f l = Ok ys.
Proof.
  induction 1 as [|x l [y Hy] _ [ys IH]]; simpl; [eauto|].
  rewrite Hy. simpl. rewrite IH. simpl. eauto.
Qed.

Lemma object_items (l : list value) :
  forallb Schemas.is_object l = true -> Forall (fun x => exists fs, x = VObj fs) l.
Proof.
  intros Hall. apply forallb_Forall in Hall.
  eapply List.Forall_impl; [|exact Hall]. intros x Hx.
  destruct x; try discriminate. eauto.
Qed.

Lemma map_objects_total (f : value -> outcome value) (l : list value) :
  forallb Schemas.is_object l = true ->
  (forall fs, exists v, f (VObj fs) = Ok v) ->
  exists r, js_map (VArr l) f = Ok (VArr r).
Proof.
  intros Hall Hf. unfold js_map. cbn [as_array obind].
  destruct (mapO_total f l) as (ys & ->); [|simpl; eauto].
  eapply List.Forall_impl; [|exact (object_items l Hall)].
  intros x (fs & ->). apply Hf.
Qed.

Section ParserPatterns.
Context `{Runtime}.

(** A list of items is mapped without an exception when it is missing or
    an array of objects, and the callback is total on objects. *)
Lemma items_or_empty_total (audit : value) (f : value -> outcome value) :
  item_list (ResponseParser.details_items audit) = true ->
  (forall fs, exists v, f (VObj fs) = Ok v) ->
  exists l, ResponseParser.items_or_empty audit f = Ok (VArr l).
Proof.
  unfold item_list, ResponseParser.items_or_empty, ResponseParser.map_items,
    ResponseParser.details_items.
  intros Hshape Hf.
  destruct (truthy (opt_prop (opt_prop audit "details") "items")) eqn:Htruthy; [|eauto].
  simpl in Hshape.
  destruct (chain2 _ _ _ Htruthy) as [-> Hitems]. cbn [obind]. rewrite Hitems. cbn [obind].
  destruct (opt_prop (opt_prop audit "details") "items"); try discriminate.
  apply map_objects_total; assumption.
Qed.

Lemma normalizeNode_total (node : value) :
  nullish node = false -> exists v, ResponseParser.normalizeNode node = Ok v.
Proof.
  intros Hn. unfold ResponseParser.normalizeNode, object, or_default.
  cbn [build]. rewrite !(prop_present node _ Hn). simpl. eauto.
Qed.

(** The first item's node is read only behind its own guard. *)
Lemma node_or_null_total (audit : value) :
  exists v, ResponseParser.node_or_null audit = Ok v.
Proof.
  unfold ResponseParser.node_or_null, ResponseParser.first_item_node,
    ResponseParser.details_items.
  destruct (truthy _) eqn:Hnode; [|eauto].
  pose proof (opt_prop_truthy_parent _ _ Hnode) as Hitem.
  set (items := opt_prop (opt_prop audit "details") "items") in *.
  assert (Hitems : nullish items = false).
  { destruct items; try reflexivity; discriminate Hitem. }
  rewrite (prop_present audit "details"
             (opt_prop_present_parent _ _ (opt_prop_present_parent _ _ Hitems))).
  cbn [obind].
  rewrite (prop_present _ "items" (opt_prop_present_parent _ _ Hitems)).
  cbn [obind]. fold items.
  assert (Hfirst : first_elem items = Ok (opt_first items)).
  { unfold opt_first. destruct items; try reflexivity; discriminate Hitems. }
  rewrite Hfirst. cbn [obind]. rewrite (prop_present _ "node" Hitem). cbn [obind].
  apply normalizeNode_total. apply truthy_not_nullish. exact Hnode.
Qed.

Lemma node_or_undefined_total (fs : list (string * value)) :
  exists v, ResponseParser.node_or_undefined (VObj fs) = Ok v.
Proof.
  unfold ResponseParser.node_or_undefined. cbn [prop obind].
  destruct (truthy (lookup_field "node" fs)) eqn:Hnode; [|eauto].
  apply normalizeNode_total. apply truthy_not_nullish. exact Hnode.
Qed.

(** [if (audit?.k) x = audit.k] and [if (audit?.k !== undefined) x = audit.k] *)
Lemma guarded_read (audit : value) (k : string) (d : value) :
  exists v, (if truthy (opt_prop audit k) then prop audit k else Ok d) = Ok v.
Proof.
  destruct (truthy (opt_prop audit k)) eqn:Ht; [|eauto].
  rewrite (prop_present audit k (opt_prop_truthy_parent _ _ Ht)). eauto.
Qed.

Lemma defined_read (audit : value) (k : string) (d : value) :
  exists v, (if negb (is_undefined (opt_prop audit k)) then prop audit k else Ok d) = Ok v.
Proof.
  destruct (negb (is_undefined (opt_prop audit k))) eqn:Ht; [|eauto].
  rewrite (prop_present audit k); [eauto|].
  destruct audit; try reflexivity; discriminate Ht.
Qed.

End ParserPatterns.

Section ParserTotality.
Context `{Runtime}.

Lemma audits_of_object (fields : list (string * value)) :
  ResponseParser.audits_of (VObj fields) = Ok (audits_table (VObj fields)).
Proof. reflexivity. Qed.

Lemma audit_read (response : value) (name : string) :
  prop (audits_table response) name = Ok (opt_prop (audits_table response) name).
Proof. apply prop_present. apply or_empty_not_nullish. Qed.

Lemma well_shaped_list (response : value) (name : string) :
  well_shaped response = true ->
  In name listed_audits ->
  item_list (ResponseParser.details_items (opt_prop (audits_table response) name)) = true.
Proof.
  unfold well_shaped. intros Hw Hin.
  repeat (apply andb_prop in Hw; destruct Hw as [Hw ?]).
  match goal with
  | Hl : forallb _ listed_audits = true |- _ =>
      apply forallb_Forall in Hl; rewrite List.Forall_forall in Hl; apply (Hl name Hin)
  end.
Qed.

(** Callbacks that only read properties of the item are total on
    objects. *)
Ltac reads_only :=
  let fs := fresh "fs" in
  intros fs; unfold object, or_default, ResponseParser.wasted_fields; simpl;
  solve [eauto].

(** One step of a proof of totality: the first computation of the
    sequence is shown to succeed and is replaced by its value. *)
Ltac listed_audit := simpl; tauto.

Ltac total_step response Hshape :=
  match goal with
  | |- exists _, obind (prop (audits_table _) _) _ = Ok _ =>
      rewrite audit_read; cbn [obind]
  | |- exists _, obind (ResponseParser.items_or_empty ?a ?f) _ = Ok _ =>
      let l := fresh "l" in
      let Hl := fresh "Hl" in
      destruct (items_or_empty_total a f) as (l & Hl);
      [ apply (well_shaped_list response _ Hshape); listed_audit
      | try reads_only
      | rewrite Hl; cbn [obind] ]
  | |- exists _, obind (ResponseParser.node_or_null ?a) _ = Ok _ =>
      let v := fresh "v" in
      let Hv := fresh "Hv" in
      destruct (node_or_null_total a) as (v & Hv); rewrite Hv; cbn [obind]
  | |- exists _, obind (if truthy (opt_prop ?a ?k) then prop ?a ?k else Ok ?d) _ = Ok _ =>
      let v := fresh "v" in
      let Hv := fresh "Hv" in
      destruct (guarded_read a k d) as (v & Hv); rewrite Hv; cbn [obind]
  | |- exists _, obind (if negb (is_undefined (opt_prop ?a ?k)) then prop ?a ?k else Ok ?d) _
                 = Ok _ =>
      let v := fresh "v" in
      let Hv := fresh "Hv" in
      destruct (defined_read a k d) as (v & Hv); rewrite Hv; cbn [obind]
  end.

Lemma extractVisualData_total (response : value) :
  well_shaped response = true ->
  exists view, ResponseParser.extractVisualData response = Ok view.
Proof.
  intros Hshape. destruct response as [| | | | | | |fields]; try discriminate.
  unfold ResponseParser.extractVisualData. rewrite audits_of_object. cbn [obind].
  total_step (VObj fields) Hshape.
  set (final := opt_prop (audits_table (VObj fields)) "final-screenshot").
  assert (Hfinal : exists v,
            (if truthy (opt_prop (opt_prop final "details") "data")
             then let! details := prop final "details" in
                  object [ ("data", prop details "data");
                           ("width", or_default details "width" (num 360));
                           ("height", or_default details "height" (num 640)) ]
             else Ok VNull) = Ok v).
  { destruct (truthy _) eqn:Hdata; [|eauto].
    destruct (chain2 _ _ _ Hdata) as [-> Hread]. cbn [obind].
    pose proof (opt_prop_truthy_parent _ _ Hdata) as Hdetails.
    unfold object, or_default. cbn [build].
    rewrite !(prop_present (opt_prop final "details") _ Hdetails). simpl. eauto. }
  destruct Hfinal as (v & ->). cbn [obind].
  total_step (VObj fields) Hshape.
  total_step (VObj fields) Hshape.
  total_step (VObj fields) Hshape.
  set (full := opt_prop (audits_table (VObj fields)) "full-page-screenshot").
  destruct (truthy (opt_prop (opt_prop full "details") "screenshot")) eqn:Hshot; [|simpl; eauto].
  destruct (chain2 _ _ _ Hshot) as [Hread1 Hread2].
  rewrite Hread1. cbn [obind]. rewrite Hread2. cbn [obind].
  pose proof (opt_prop_truthy_parent _ _ Hshot) as Hdetails.
  unfold object, or_default. cbn [build].
  rewrite !(prop_present _ _ (truthy_not_nullish _ Hshot)).
  rewrite !(prop_present (opt_prop full "details") _ Hdetails). simpl. eauto.
Qed.

Lemma extractNetworkData_total (response : value) :
  well_shaped response = true ->
  exists view, ResponseParser.extractNetworkData response = Ok view.
Proof.
  intros Hshape. destruct response as [| | | | | | |fields]; try discriminate.
  unfold ResponseParser.extractNetworkData. rewrite audits_of_object. cbn [obind].
  repeat total_step (VObj fields) Hshape. eauto.
Qed.

Lemma extractRenderBlockingData_total (response : value) :
  well_shaped response = true ->
  exists view, ResponseParser.extractRenderBlockingData response = Ok view.
Proof.
  intros Hshape. destruct response as [| | | | | | |fields]; try discriminate.
  unfold ResponseParser.extractRenderBlockingData. rewrite audits_of_object. cbn [obind].
  repeat total_step (VObj fields) Hshape.
  set (audit := opt_prop (audits_table (VObj fields)) "render-blocking-resources").
  assert (Hsavings : exists v,
            (if truthy (ResponseParser.details_items audit)
             then let! details := prop audit "details" in
                  or_default details "overallSavingsMs" (num 0)
             else Ok (num 0)) = Ok v).
  { unfold ResponseParser.details_items. destruct (truthy _) eqn:Hitems; [|eauto].
    destruct (chain2 _ _ _ Hitems) as [-> _]. cbn [obind]. unfold or_default.
    rewrite (prop_present _ "overallSavingsMs" (opt_prop_truthy_parent _ _ Hitems)).
    simpl. eauto. }
  destruct Hsavings as (v & ->). cbn [obind].
  repeat total_step (VObj fields) Hshape. eauto.
Qed.

Lemma extractImageOptimizationData_total (response : value) :
  well_shaped response = true ->
  exists view, ResponseParser.extractImageOptimizationData response = Ok view.
Proof.
  intros Hshape. destruct response as [| | | | | | |fields]; try discriminate.
  unfold ResponseParser.extractImageOptimizationData. rewrite audits_of_object. cbn [obind].
  repeat total_step (VObj fields) Hshape; try eauto;
    intros fs;
    unfold object, or_default, ResponseParser.wasted_fields, ResponseParser.node_or_undefined;
    cbn [app build prop obind];
    (destruct (truthy (lookup_field "node" fs)) eqn:Hnode;
     [destruct (normalizeNode_total _ (truthy_not_nullish _ Hnode)) as (node & ->)|]);
    simpl; eauto.
Qed.

(** The layout-shift elements: the items that have a node, each with its
    node normalized. *)
Lemma clsElements_total (audit : value) :
  item_list (ResponseParser.details_items audit) = true ->
  exists v,
    (if truthy (ResponseParser.details_items audit) then
       let! details := prop audit "details" in
       let! items := prop details "items" in
       let! kept := js_filter items (fun item => prop item "node") in
       js_map kept (fun item =>
         object
           [ ("node", let! node := prop item "node" in ResponseParser.normalizeNode node);
             ("score", or_default item "score" (num 0)) ])
     else Ok (VArr [])) = Ok v.
Proof.
  unfold item_list, ResponseParser.details_items. intros Hshape.
  destruct (truthy (opt_prop (opt_prop audit "details") "items")) eqn:Htruthy; [|eauto].
  simpl in Hshape.
  destruct (chain2 _ _ _ Htruthy) as [Hread1 Hread2].
  rewrite Hread1. cbn [obind]. rewrite Hread2. cbn [obind].
  destruct (opt_prop (opt_prop audit "details") "items") as [| | | | | |l|]; try discriminate.
  pose proof (object_items l Hshape) as Hobjects.
  unfold js_filter. cbn [as_array obind].
  rewrite (filterO_pure _ (fun item => truthy (opt_prop item "node")) l).
  - cbn [obind]. unfold js_map. cbn [as_array obind].
    destruct (mapO_total
                (fun item =>
                   object
                     [ ("node",
                         let! node := prop item "node" in ResponseParser.normalizeNode node);
                       ("score", or_default item "score" (num 0)) ])
                (List.filter (fun item => truthy (opt_prop item "node")) l)) as (ys & ->);
      [|simpl; eauto].
    apply List.Forall_forall. intros item Hin. apply List.filter_In in Hin.
    destruct Hin as [Hin Hnode].
    rewrite List.Forall_forall in Hobjects. destruct (Hobjects item Hin) as (fs & ->).
    change (opt_prop (VObj fs) "node") with (lookup_field "node" fs) in Hnode.
    destruct (normalizeNode_total _ (truthy_not_nullish _ Hnode)) as (node & Hn).
    unfold object, or_default. cbn [build prop obind]. rewrite Hn. simpl. eauto.
  - eapply List.Forall_impl; [|exact Hobjects]. intros item (fs & ->). reflexivity.
Qed.

Lemma extractElementData_total (response : value) :
  well_shaped response = true ->
  exists view, ResponseParser.extractElementData response = Ok view.
Proof.
  intros Hshape. destruct response as [| | | | | | |fields]; try discriminate.
  unfold ResponseParser.extractElementData. rewrite audits_of_object. cbn [obind].
  repeat total_step (VObj fields) Hshape.
  destruct (clsElements_total (opt_prop (audits_table (VObj fields)) "layout-shift-elements"))
    as (cls & ->); [apply (well_shaped_list (VObj fields) _ Hshape); listed_audit|].
  cbn [obind]. repeat total_step (VObj fields) Hshape. eauto.
Qed.

(** The signals of a legacy-javascript item. *)
Lemma legacy_item_total (fs : list (string * value)) :
  sub_list (VObj fs) = true ->
  exists v,
    object
      [ ("url", or_default (VObj fs) "url" (VStr ""));
        ("wastedBytes", or_default (VObj fs) "wastedBytes" (num 0));
        ("signals",
          let! subItems := prop (VObj fs) "subItems" in
          let subs := opt_prop subItems "items" in
          if nullish subs then Ok (VArr [])
          else
            let! signals :=
              js_map subs (fun subItem => or_default subItem "signal" (VStr "")) in
            Ok (js_or signals (VArr []))) ] = Ok v.
Proof.
  unfold sub_list. cbn [opt_prop prop]. intros Hsubs.
  unfold object, or_default. cbn [build prop obind].
  set (subs := opt_prop (lookup_field "subItems" fs) "items") in *.
  destruct (nullish subs) eqn:Hnull; [simpl; eauto|].
  simpl in Hsubs. destruct subs as [| | | | | |l|]; try discriminate.
  destruct (map_objects_total (fun subItem => or_default subItem "signal" (VStr "")) l Hsubs)
    as (r & Hr); [intros sfs; unfold or_default; simpl; eauto|].
  unfold or_default in Hr. rewrite Hr. simpl. eauto.
Qed.

Lemma legacy_items_total (audit : value) :
  item_list (ResponseParser.details_items audit) = true ->
  every_item sub_list (ResponseParser.details_items audit) = true ->
  exists l,
    ResponseParser.items_or_empty audit (fun item =>
      object
        [ ("url", or_default item "url" (VStr ""));
          ("wastedBytes", or_default item "wastedBytes" (num 0));
          ("signals",
            let! subItems := prop item "subItems" in
            let subs := opt_prop subItems "items" in
            if nullish subs then Ok (VArr [])
            else
              let! signals :=
                js_map subs (fun subItem => or_default subItem "signal" (VStr "")) in
              Ok (js_or signals (VArr []))) ]) = Ok (VArr l).
Proof.
  unfold item_list, ResponseParser.items_or_empty, ResponseParser.map_items,
    ResponseParser.details_items.
  intros Hshape Hsubs.
  destruct (truthy (opt_prop (opt_prop audit "details") "items")) eqn:Htruthy; [|eauto].
  simpl in Hshape.
  destruct (chain2 _ _ _ Htruthy) as [Hread1 Hread2].
  rewrite Hread1. cbn [obind]. rewrite Hread2. cbn [obind].
  destruct (opt_prop (opt_prop audit "details") "items") as [| | | | | |l|]; try discriminate.
  simpl in Hsubs. unfold js_map. cbn [as_array obind].
  match goal with
  | |- exists _, obind (mapO ?f l) _ = _ => destruct (mapO_total f l) as (ys & ->)
  end; [|simpl; eauto].
  pose proof (object_items l Hshape) as Hobjects.
  apply forallb_Forall in Hsubs.
  rewrite List.Forall_forall in Hobjects, Hsubs |- *.
  intros item Hin. destruct (Hobjects item Hin) as (fs & ->).
  apply legacy_item_total. apply (Hsubs _ Hin).
Qed.

Lemma extractJavaScriptData_total (response : value) :
  well_shaped response = true ->
  exists view, ResponseParser.extractJavaScriptData response = Ok view.
Proof.
  intros Hshape. destruct response as [| | | | | | |fields]; try discriminate.
  unfold ResponseParser.extractJavaScriptData. rewrite audits_of_object. cbn [obind].
  do 9 total_step (VObj fields) Hshape.
  match goal with
  | |- exists _, obind ?c _ = Ok _ => assert (Hlegacy : exists l, c = Ok (VArr l))
  end.
  { apply legacy_items_total.
    - apply (well_shaped_list (VObj fields) _ Hshape). listed_audit.
    - unfold well_shaped in Hshape.
      repeat (apply andb_prop in Hshape; destruct Hshape as [Hshape ?]). assumption. }
  destruct Hlegacy as (legacy & ->). simpl. eauto.
Qed.

(** The totals of the third-party summary. *)
Lemma sum_field_numbers (k : string) (l : list value) :
  Forall (fun item => exists q, opt_prop item k = VNum q /\ nullish item = false) l ->
  forall q, exists q', ResponseParser.sum_field k (VNum q) l = Ok (VNum q').
Proof.
  induction 1 as [|item l (q0 & Hq0 & Hitem) _ IH]; intros q; simpl; [eauto|].
  rewrite (prop_present item k Hitem), Hq0. simpl. apply IH.
Qed.

Lemma number_or_zero (v : value) :
  summable v = true -> exists q, js_or v (num 0) = VNum q.
Proof.
  unfold js_or. destruct v; try discriminate; intros _; simpl; eauto.
  destruct (negb _); eauto.
Qed.

Lemma thirdPartySummary_total (audit : value) :
  item_list (ResponseParser.details_items audit) = true ->
  every_item
    (fun item =>
       summable (opt_prop item "transferSize") && summable (opt_prop item "blockingTime"))
    (ResponseParser.details_items audit) = true ->
  exists l,
    ResponseParser.items_or_empty audit (fun item =>
      object
        [ ("entity", or_default item "entity" (VStr ""));
          ("transferSize", or_default item "transferSize" (num 0));
          ("blockingTime", or_default item "blockingTime" (num 0));
          ("mainThreadTime", or_default item "mainThreadTime" (num 0));
          ("subItems", prop item "subItems") ]) = Ok (VArr l)
    /\ (exists q, ResponseParser.reduce_sum "transferSize" (VArr l) = Ok (VNum q))
    /\ (exists q, ResponseParser.reduce_sum "blockingTime" (VArr l) = Ok (VNum q)).
Proof.
  unfold item_list, ResponseParser.items_or_empty, ResponseParser.map_items,
    ResponseParser.details_items.
  intros Hshape Hnums.
  destruct (truthy (opt_prop (opt_prop audit "details") "items")) eqn:Htruthy.
  - simpl in Hshape.
    destruct (chain2 _ _ _ Htruthy) as [Hread1 Hread2].
    rewrite Hread1. cbn [obind]. rewrite Hread2. cbn [obind].
    destruct (opt_prop (opt_prop audit "details") "items") as [| | | | | |l|]; try discriminate.
    simpl in Hnums. unfold js_map. cbn [as_array obind].
    pose proof (object_items l Hshape) as Hobjects.
    set (g := fun item =>
                VObj
                  [ ("entity", js_or (opt_prop item "entity") (VStr ""));
                    ("transferSize", js_or (opt_prop item "transferSize") (num 0));
                    ("blockingTime", js_or (opt_prop item "blockingTime") (num 0));
                    ("mainThreadTime", js_or (opt_prop item "mainThreadTime") (num 0));
                    ("subItems", opt_prop item "subItems") ]).
    rewrite (mapO_pure _ g l).
    + cbn [obind]. exists (map g l). split; [reflexivity|].
      apply forallb_Forall in Hnums.
      unfold ResponseParser.reduce_sum. cbn [as_array obind].
      split; apply sum_field_numbers; apply List.Forall_forall; intros item' Hin;
        apply List.in_map_iff in Hin; destruct Hin as (item & <- & Hin);
        rewrite List.Forall_forall in Hnums; specialize (Hnums item Hin);
        apply andb_prop in Hnums; destruct Hnums as [Hsize Htime].
      * destruct (number_or_zero _ Hsize) as (q & Hq). exists q. split; [exact Hq | reflexivity].
      * destruct (number_or_zero _ Htime) as (q & Hq). exists q. split; [exact Hq | reflexivity].
    + eapply List.Forall_impl; [|exact Hobjects]. intros item (fs & ->). reflexivity.
  - exists []. split; [reflexivity|]. split; exists (inject_Z 0); reflexivity.
Qed.

Lemma extractThirdPartyData_total (response : value) :
  well_shaped response = true ->
  exists view, ResponseParser.extractThirdPartyData response = Ok view.
Proof.
  intros Hshape. destruct response as [| | | | | | |fields]; try discriminate.
  unfold ResponseParser.extractThirdPartyData. rewrite audits_of_object. cbn [obind].
  total_step (VObj fields) Hshape.
  match goal with
  | |- exists _, obind ?c _ = Ok _ =>
      assert (Hsummary : exists l, c = Ok (VArr l)
                /\ (exists q, ResponseParser.reduce_sum "transferSize" (VArr l) = Ok (VNum q))
                /\ (exists q, ResponseParser.reduce_sum "blockingTime" (VArr l) = Ok (VNum q)))
  end.
  { apply thirdPartySummary_total.
    - apply (well_shaped_list (VObj fields) _ Hshape). listed_audit.
    - unfold well_shaped in Hshape.
      repeat (apply andb_prop in Hshape; destruct Hshape as [Hshape ?]). assumption. }
  destruct Hsummary as (summary & -> & (size & Hsize) & (time & Htime)). cbn [obind].
  rewrite Hsize, Htime.
  destruct (truthy _); cbn [obind]; repeat total_step (VObj fields) Hshape; eauto.
Qed.

Lemma extractOtherCategories_total (response : value) :
  well_shaped response = true ->
  exists view, ResponseParser.extractOtherCategories response = Ok view.
Proof.
  intros Hshape.
  destruct (extractOtherCategories_typed response) as (summary & Hs & _); [|eauto].
  unfold well_shaped in Hshape. unfold typed_categories.
  repeat (apply andb_prop in Hshape; destruct Hshape as [Hshape ?]).
  apply andb_true_intro. split; assumption.
Qed.

Lemma metric_or_audit_total (metrics audits : value) (k name : string) :
  nullish metrics = false -> nullish audits = false ->
  exists v, ResponseParser.metric_or_audit metrics audits k name = Ok v.
Proof.
  intros Hm Ha. unfold ResponseParser.metric_or_audit.
  rewrite (prop_present metrics k Hm). cbn [obind].
  destruct (truthy _); [eauto|]. rewrite (prop_present audits name Ha). simpl. eauto.
Qed.

(** The detailed metrics need no assumption on the shape at all. *)
Lemma extractDetailedMetrics_total (fields : list (string * value)) :
  exists view, ResponseParser.extractDetailedMetrics (VObj fields) = Ok view.
Proof.
  unfold ResponseParser.extractDetailedMetrics. rewrite audits_of_object. cbn [obind].
  rewrite audit_read. cbn [obind].
  set (metrics := js_or _ (VObj [])).
  assert (Hm : nullish metrics = false) by apply or_empty_not_nullish.
  pose proof (or_empty_not_nullish
                (opt_prop (opt_prop (VObj fields) "lighthouseResult") "audits")) as Ha.
  fold (audits_table (VObj fields)) in Ha.
  unfold object. cbn [build].
  repeat match goal with
  | |- context [ResponseParser.metric_or_audit metrics ?a ?k ?n] =>
      let v := fresh "v" in
      let Hv := fresh "Hv" in
      destruct (metric_or_audit_total metrics a k n Hm Ha) as (v & Hv); rewrite Hv
  end.
  rewrite !(prop_present metrics _ Hm). simpl. eauto.
Qed.

End ParserTotality.

Section MissingParts.
Context `{Runtime}.

Lemma audits_of_table (response audits : value) :
  ResponseParser.audits_of response = Ok audits -> audits = audits_table response.
Proof.
  unfold ResponseParser.audits_of, audits_table. intros Ha.
  apply obind_ok in Ha. destruct Ha as (lighthouse & Hl & Ha).
  rewrite (opt_prop_of_prop _ _ _ Hl). inversion Ha. reflexivity.
Qed.

(** Names the audits that a successful run has read. *)
Ltac name_audits :=
  repeat match goal with
  | H : ResponseParser.audits_of _ = Ok ?a |- _ => apply audits_of_table in H; subst a
  | H : prop (audits_table _) _ = Ok ?a |- _ => apply opt_prop_of_prop in H; subst a
  end.

(** A view's field that is taken from a missing part has its default. *)
Lemma missing_part_default (response : value) (p : Part) (view : value) :
  In p parts ->
  extract (extractor p) response = Ok view ->
  present p (opt_prop (audits_table response) (from_audit p)) = false ->
  opt_prop view (field p) = default p.
Proof.
  intros Hin Hview Hmissing. simpl in Hin.
  repeat (destruct Hin as [<-|Hin]);
    try (exfalso; exact Hin);
    cbn [extractor from_audit present field default part extract] in *;
    unfold ResponseParser.extractVisualData, ResponseParser.extractElementData,
      ResponseParser.extractNetworkData, ResponseParser.extractJavaScriptData,
      ResponseParser.extractImageOptimizationData, ResponseParser.extractRenderBlockingData,
      ResponseParser.extractThirdPartyData in Hview;
    inv_all; name_audits;
    unfold has_items, has_first_node, has_detail, has_details, has_value,
      has_defined_value in Hmissing;
    unfold ResponseParser.items_or_empty, ResponseParser.node_or_null in *;
    repeat match goal with
    | H : context [if ?b then _ else _] |- _ =>
        match type of Hmissing with b = false => rewrite Hmissing in H end
    end;
    try rewrite Hmissing;
    inv_all; reflexivity.
Qed.

Lemma categories_of_table (response categories : value) :
  ResponseParser.categories_of response = Ok categories ->
  categories = categories_table response.
Proof.
  unfold ResponseParser.categories_of, categories_table. intros Hc.
  apply obind_ok in Hc. destruct Hc as (lighthouse & Hl & Hc).
  rewrite (opt_prop_of_prop _ _ _ Hl). inversion Hc. reflexivity.
Qed.

(** A category without a score has the score [null]; a category without
    [auditRefs] has no key audits. *)
Lemma missing_category_default (response : value) (name key : string) (view : value) :
  In (name, key) other_categories ->
  ResponseParser.extractOtherCategories response = Ok view ->
  let category := opt_prop (categories_table response) name in
  (truthy (opt_prop category "score") = false ->
   opt_prop (opt_prop view key) "score" = VNull)
  /\ (truthy (opt_prop category "auditRefs") = false ->
      opt_prop (opt_prop view key) "keyAudits" = VArr []).
Proof.
  intros Hin Hview category. subst category.
  unfold ResponseParser.extractOtherCategories, ResponseParser.category_score,
    ResponseParser.keyAudits_of in Hview.
  inv_all.
  repeat match goal with
  | H : ResponseParser.categories_of _ = Ok ?c |- _ => apply categories_of_table in H; subst c
  | H : prop (categories_table _) _ = Ok ?c |- _ => apply opt_prop_of_prop in H; subst c
  end.
  simpl in Hin.
  destruct Hin as [Hin|[Hin|[Hin|[Hin|[]]]]]; inversion Hin; subst; clear Hin;
    (split; intros Hmissing;
     [ unfold js_or; rewrite Hmissing; reflexivity
     | repeat match goal with
       | H : context [if ?b then _ else _] |- _ =>
           match type of Hmissing with b = false => rewrite Hmissing in H end
       end;
       inv_all; reflexivity ]).
Qed.

End MissingParts.

Section ParserClaim.
Context `{Runtime}.

Lemma tables_missing (fields : list (string * value)) :
  truthy (opt_prop (opt_prop (VObj fields) "lighthouseResult") "audits") = false ->
  truthy (opt_prop (opt_prop (VObj fields) "lighthouseResult") "categories") = false ->
  ResponseParser.audits_of (VObj fields) = Ok (VObj [])
  /\ ResponseParser.categories_of (VObj fields) = Ok (VObj []).
Proof.
  intros Ha Hc. unfold ResponseParser.audits_of, ResponseParser.categories_of, js_or.
  cbn [prop obind]. cbn [opt_prop prop] in Ha, Hc. rewrite Ha, Hc. split; reflexivity.
Qed.

(** C4 (as the code has it).  On a well-shaped response, an object in
    which every list the parser maps over is an array of objects where
    it is present, every extraction function returns a view and raises
    nothing.  A field of a view whose part of the response is missing
    has its default: the empty list, zero or null.  In particular, when
    the response has no audits and no categories (the empty object, an
    object without [lighthouseResult], a [lighthouseResult] without
    them), every view is the default shape.  The functions are pure: a
    view is built from new objects and the response is only read. *)
Theorem parser_total_on_well_shaped (response : value) :
  well_shaped response = true ->
  ((exists view, ResponseParser.extractVisualData response = Ok view)
   /\ (exists view, ResponseParser.extractElementData response = Ok view)
   /\ (exists view, ResponseParser.extractNetworkData response = Ok view)
   /\ (exists view, ResponseParser.extractJavaScriptData response = Ok view)
   /\ (exists view, ResponseParser.extractImageOptimizationData response = Ok view)
   /\ (exists view, ResponseParser.extractRenderBlockingData response = Ok view)
   /\ (exists view, ResponseParser.extractThirdPartyData response = Ok view)
   /\ (exists view, ResponseParser.extractOtherCategories response = Ok view)
   /\ (exists view, ResponseParser.extractDetailedMetrics response = Ok view))
  /\
  (forall (p : Part) (view : value),
      In p parts ->
      extract (extractor p) response = Ok view ->
      present p (opt_prop (audits_table response) (from_audit p)) = false ->
      opt_prop view (field p) = default p)
  /\
  (forall (name key : string) (view : value),
      In (name, key) other_categories ->
      ResponseParser.extractOtherCategories response = Ok view ->
      (truthy (opt_prop (opt_prop (categories_table response) name) "score") = false ->
       opt_prop (opt_prop view key) "score" = VNull)
      /\ (truthy (opt_prop (opt_prop (categories_table response) name) "auditRefs") = false ->
          opt_prop (opt_prop view key) "keyAudits" = VArr []))
  /\
  (truthy (opt_prop (opt_prop response "lighthouseResult") "audits") = false ->
   truthy (opt_prop (opt_prop response "lighthouseResult") "categories") = false ->
   ResponseParser.extractVisualData response = Ok default_visual
   /\ ResponseParser.extractElementData response = Ok default_elements
   /\ ResponseParser.extractNetworkData response = Ok default_network
   /\ ResponseParser.extractJavaScriptData response = Ok default_javascript
   /\ ResponseParser.extractImageOptimizationData response = Ok default_images
   /\ ResponseParser.extractRenderBlockingData response = Ok default_render_blocking
   /\ ResponseParser.extractThirdPartyData response = Ok default_third_party
   /\ ResponseParser.extractOtherCategories response = Ok default_categories
   /\ ResponseParser.extractDetailedMetrics response = Ok default_metrics).
Proof.
  intros Hshape. split; [|split; [|split]].
  - repeat split.
    + apply extractVisualData_total; exact Hshape.
    + apply extractElementData_total; exact Hshape.
    + apply extractNetworkData_total; exact Hshape.
    + apply extractJavaScriptData_total; exact Hshape.
    + apply extractImageOptimizationData_total; exact Hshape.
    + apply extractRenderBlockingData_total; exact Hshape.
    + apply extractThirdPartyData_total; exact Hshape.
    + apply extractOtherCategories_total; exact Hshape.
    + destruct response as [| | | | | | |fields]; try discriminate.
      apply extractDetailedMetrics_total.
  - intros p view Hin Hview Hmissing. apply (missing_part_default response p view); assumption.
  - intros name key view Hin Hview.
    apply (missing_category_default response name key view Hin Hview).
  - destruct response as [| | | | | | |fields]; try discriminate.
    intros Haudits Hcategories.
    destruct (tables_missing fields Haudits Hcategories) as [Ha Hc].
    unfold ResponseParser.extractVisualData, ResponseParser.extractElementData,
      ResponseParser.extractNetworkData, ResponseParser.extractJavaScriptData,
      ResponseParser.extractImageOptimizationData, ResponseParser.extractRenderBlockingData,
      ResponseParser.extractThirdPartyData, ResponseParser.extractOtherCategories,
      ResponseParser.extractDetailedMetrics.
    rewrite Ha, Hc. repeat split; reflexivity.
Qed.

End ParserClaim.

Lemma parser_total_on_well_shaped_witness :
  ((exists view, ResponseParser.extractVisualData sample_report = Ok view)
   /\ (exists view, ResponseParser.extractElementData sample_report = Ok view)
   /\ (exists view, ResponseParser.extractNetworkData sample_report = Ok view)
   /\ (exists view, ResponseParser.extractJavaScriptData sample_report = Ok view)
   /\ (exists view, ResponseParser.extractImageOptimizationData sample_report = Ok view)
   /\ (exists view, ResponseParser.extractRenderBlockingData sample_report = Ok view)
   /\ (exists view, @ResponseParser.extractThirdPartyData exact_runtime sample_report = Ok view)
   /\ (exists view, @ResponseParser.extractOtherCategories exact_runtime sample_report = Ok view)
   /\ (exists view, ResponseParser.extractDetailedMetrics sample_report = Ok view))
  /\ ResponseParser.extractVisualData (VObj []) = Ok default_visual
  /\ @ResponseParser.extractThirdPartyData exact_runtime (VObj []) = Ok default_third_party.
Proof.
  split.
  - apply (@parser_total_on_well_shaped exact_runtime sample_report). reflexivity.
  - destruct (@parser_total_on_well_shaped exact_runtime (VObj []) eq_refl)
      as (_ & _ & _ & Hdefault).
    destruct (Hdefault eq_refl eq_refl) as (Hv & _ & _ & _ & _ & _ & Ht & _).
    split; [exact Hv | exact Ht].
Defined.

(** On the sample the views hold what the lists hold: two requests, the
    second one unfinished; third-party totals of 1000 bytes and 20 ms;
    one legacy script with its signal. *)
Example sample_views :
  (match ResponseParser.extractNetworkData sample_report with
   | Ok view => opt_prop view "requestCount" = num 2
   | Throw _ => False
   end)
  /\ (match @ResponseParser.extractThirdPartyData exact_runtime sample_report with
      | Ok view =>
          opt_prop view "totalTransferSize" = num 1000
          /\ opt_prop view "totalBlockingTime" = num 20
      | Throw _ => False
      end)
  /\ (match ResponseParser.extractJavaScriptData sample_report with
      | Ok view =>
          opt_prop view "legacyJavaScript"
          = VArr [ VObj [ ("url", VStr "https://example.com/app.js");
                          ("wastedBytes", num 0);
                          ("signals", VArr [ VStr "@babel" ]) ] ]
      | Throw _ => False
      end).
Proof. vm_compute. repeat split; reflexivity. Qed.

(** The claim as it was stated fails on a response whose thumbnails
    audit lists [null]: the callback reads [item.timing] of it. *)
Lemma null_item_raises :
  ResponseParser.extractVisualData null_thumbnail
  = Throw (TypeError "Cannot read properties of null (reading 'timing')").
Proof. reflexivity. Qed.

(* ===================================================================== *)
(** * Part XXVI.  The theorems at concrete inputs                         *)
(* ===================================================================== *)

Lemma retry_policy_witness :
  (@PageSpeedClient.makeRequest exact_runtime plain_libraries default_env
      (PageSpeedClient.psi_request default_env example_input) (boot 0 refusing)
   = (Throw (@PageSpeedClient.psi_error exact_runtime
               {| status := 400; statusText := "Bad Request"; text := "invalid url";
                  json := inl (mkError "SyntaxError" "Unexpected token") |}),
      after_fetch (PageSpeedClient.psi_request default_env example_input) (boot 0 refusing)))
  /\ (exists (e : JsError) (w' : World),
        @PageSpeedClient.makeRequest exact_runtime plain_libraries default_env
           (PageSpeedClient.psi_request default_env example_input) (boot 0 failing_in_turn)
        = (Throw e, w')
        /\ In e (@failures exact_runtime (upstream (boot 0 failing_in_turn)) 0 4)
        /\ fetched w' = 4%nat
        /\ trace w'
           = retry_trace (PageSpeedClient.psi_request default_env example_input) 3 0).
Proof.
  split.
  - apply (proj1 (@retry_policy exact_runtime plain_libraries default_env
                    (PageSpeedClient.psi_request default_env example_input) (boot 0 refusing))
             {| status := 400; statusText := "Bad Request"; text := "invalid url";
                json := inl (mkError "SyntaxError" "Unexpected token") |}).
    + reflexivity.
    + split; [apply Z.leb_le | apply Z.ltb_lt]; reflexivity.
  - apply (proj2 (@retry_policy exact_runtime plain_libraries default_env
                    (PageSpeedClient.psi_request default_env example_input)
                    (boot 0 failing_in_turn))).
    intros [|[|[|i]]] _; reflexivity.
Defined.

(** Such runs, computed: four requests with waits of 1, 2 and 4 seconds
    against a server that answers 503, one request against a server
    that answers 400, and four requests when every request times out. *)
Example unavailable_upstream_is_retried :
  let request := PageSpeedClient.psi_request default_env example_input in
  trace (snd (@PageSpeedClient.makeRequest exact_runtime plain_libraries default_env
                request (boot 0 unavailable)))
  = [ Fetch request; Sleep 1000; Fetch request; Sleep 2000; Fetch request; Sleep 4000;
      Fetch request ]
  /\ trace (snd (@PageSpeedClient.makeRequest exact_runtime plain_libraries default_env
                   request (boot 0 refusing)))
     = [ Fetch request ]
  /\ fetched (snd (@PageSpeedClient.makeRequest exact_runtime plain_libraries default_env
                     request (boot 0 timing_out))) = 4%nat.
Proof. repeat split; reflexivity. Qed.


(** The report of that batch: the second URL fails, the third is still
    analysed. *)
Example batch_with_one_failure :
  match fst (@Server.handleBatchAnalyze exact_runtime plain_libraries default_env batch_args
               (boot 0 second_refused)) with
  | Ok {| content := [ Json report ]; isError := false |} =>
      opt_prop report "summary"
      = VObj [ ("total", num 3); ("successful", num 2); ("failed", num 1) ]
      /\ (match opt_prop report "results" with
          | VArr entries => map (fun entry => truthy (opt_prop entry "error")) entries
          | _ => []
          end) = [ false; true; false ]
  | _ => False
  end.
Proof. vm_compute. split; reflexivity. Qed.


Lemma key_audits_are_the_first_five_failing_witness :
  exists summary : value,
    @ResponseParser.extractOtherCategories exact_runtime sample_report = Ok summary
    /\ forall name key : string,
         In (name, key) other_categories ->
         opt_prop (opt_prop summary key) "keyAudits"
         = VArr (map (listed sample_report)
                   (firstn 5
                      (List.filter
                         (fun ref => below_perfect (referenced_audit sample_report ref))
                         (auditRefs_of sample_report name)))).
Proof.
  apply (@key_audits_are_the_first_five_failing exact_runtime sample_report).
  reflexivity.
Defined.

(** On the sample: of the eight audits, [a2] is perfect and [a3] has no
    score; of the six others the first five are kept, in upstream
    order. *)
Example sample_key_audits :
  match @ResponseParser.extractOtherCategories exact_runtime sample_report with
  | Ok summary =>
      match opt_prop (opt_prop summary "seo") "keyAudits" with
      | VArr entries => map (fun entry => opt_prop entry "id") entries
      | _ => []
      end
      = [ VStr "a1"; VStr "a4"; VStr "a5"; VStr "a6"; VStr "a7" ]
  | Throw _ => False
  end.
Proof. vm_compute. reflexivity. Qed.

(* ===================================================================== *)
(** * Part XXVII.  The cache key and the clear-cache tool (C3, C6)        *)
(* ===================================================================== *)

(** C3 (the code at the failing input).  The client joins the categories
    in the order given, so the two orders of one category set have
    different cache keys, and the second request goes to the upstream
    although the first one is cached and live.  [createPSICacheKey] of
    [cache.ts], which sorts the categories, gives both the same key, but
    the client does not call it. *)
Theorem category_order_changes_the_cache_key :
  PageSpeedClient.psi_cache_key performance_then_seo
  = "psi_v5_categories=performance,seo|locale=en|strategy=mobile|url=https://example.com"
  /\ PageSpeedClient.psi_cache_key seo_then_performance
     = "psi_v5_categories=seo,performance|locale=en|strategy=mobile|url=https://example.com"
  /\ (let w1 :=
        snd (@PageSpeedClient.analyzePageSpeed exact_runtime plain_libraries default_env
               performance_then_seo (boot 0 healthy)) in
      let w2 :=
        snd (@PageSpeedClient.analyzePageSpeed exact_runtime plain_libraries default_env
               seo_then_performance (advance 1000 w1)) in
      fetched w1 = 1%nat /\ fetched w2 = 2%nat)
  /\ SimpleCache.createPSICacheKey "https://example.com" "mobile" [ "performance"; "seo" ] "en"
     = SimpleCache.createPSICacheKey "https://example.com" "mobile" [ "seo"; "performance" ] "en".
Proof. repeat split; reflexivity. Qed.

Section ClearCache.
Context `{Runtime} `{Libraries}.

(** The clear-cache tool empties the [SimpleCache] and nothing else. *)
Lemma handleClearCache_spares_the_client (w : World) :
  exists r : ToolResponse,
    Server.handleClearCache w = (Ok r, set_simple_cache ∅ w)
    /\ isError r = false.
Proof. unfold Server.handleClearCache. eexists. split; reflexivity. Qed.

End ClearCache.

(** C6 (the code at the failing input).  The tool clears the singleton
    of [cache.ts]; the client keeps its answers in a map of its own,
    which the tool does not touch.  After an analysis and a clear, the
    same analysis is answered from the client's map: no second request
    is made. *)
Theorem clear_cache_spares_the_client_cache :
  let w1 :=
    snd (@PageSpeedClient.analyzePageSpeed exact_runtime plain_libraries default_env
           example_input (boot 0 healthy)) in
  let cleared := @Server.handleClearCache exact_runtime w1 in
  let again :=
    @PageSpeedClient.analyzePageSpeed exact_runtime plain_libraries default_env
      example_input (advance 1000 (snd cleared)) in
  fst cleared
  = Ok {| content := [ Plain "✅ Cache cleared successfully. Removed 0 cached entries." ];
          isError := false |}
  /\ client_cache (snd cleared) = client_cache w1
  /\ fst again = Ok mockResponse
  /\ fetched w1 = 1%nat
  /\ fetched (snd again) = 1%nat.
Proof. repeat split; reflexivity. Qed.

(* ===================================================================== *)
(** * Part XXVIII.  The cache service of cache.ts                         *)
(* ===================================================================== *)

(** X1.  An entry stored with [set] can be read with [get] and is
    reported by [has] as long as the clock has not passed its expiry
    time ([Date.now() > expiresAt] is false), the instant of expiry
    included; the read leaves the cache as it is.  Once the clock has
    passed the expiry time, [get] returns [null], [has] returns [false],
    and either of them removes the entry and no other. *)
Theorem simple_cache_entry_lifetime (key : string) (d : value) (ttl dt : Z) (w : World) :
  let w1 := advance dt (snd (SimpleCache.set key d ttl w)) in
  (dt <= ttl ->
     SimpleCache.get key w1 = (Ok d, w1) /\ SimpleCache.has key w1 = (Ok true, w1))
  /\
  (ttl < dt ->
     SimpleCache.get key w1
     = (Ok VNull, set_simple_cache (delete key (simple_cache w1)) w1)
     /\ SimpleCache.has key w1
        = (Ok false, set_simple_cache (delete key (simple_cache w1)) w1)
     /\ delete key (simple_cache w1) = delete key (simple_cache w)).
Proof.
  intros w1.
  assert (Hentry : simple_cache w1 !! key
                   = Some {| sc_data := d; sc_timestamp := now w; expiresAt := now w + ttl |})
    by (unfold w1; simpl; apply lookup_insert_eq).
  assert (Hnow : now w1 = now w + dt) by reflexivity.
  split; intros Hdt; unfold SimpleCache.get, SimpleCache.has; rewrite Hentry, Hnow; simpl.
  - destruct (Z.ltb_spec (now w + ttl) (now w + dt)); [lia|]. split; reflexivity.
  - destruct (Z.ltb_spec (now w + ttl) (now w + dt)); [|lia].
    split; [reflexivity|]. split; [reflexivity|].
    unfold w1. simpl. apply delete_insert_eq.
Qed.

(** X2.  [cleanup] cannot be observed through [get] and [has]: it
    removes the entries whose expiry time has passed, which both of them
    treat as absent, and it keeps every other entry as it is. *)
Theorem cleanup_is_invisible (w : World) (key : string) :
  let w1 := snd (SimpleCache.cleanup w) in
  fst (SimpleCache.get key w1) = fst (SimpleCache.get key w)
  /\ fst (SimpleCache.has key w1) = fst (SimpleCache.has key w)
  /\ (forall entry,
        simple_cache w1 !! key = Some entry
        <-> simple_cache w !! key = Some entry /\ now w <= expiresAt entry)
  /\ client_cache w1 = client_cache w.
Proof.
  intros w1.
  assert (Hlook : forall entry,
             simple_cache w1 !! key = Some entry
             <-> simple_cache w !! key = Some entry /\ now w <= expiresAt entry).
  { intros entry. unfold w1. simpl. rewrite map_lookup_filter_Some. simpl.
    rewrite Z.ltb_ge. reflexivity. }
  assert (Hnow : now w1 = now w) by reflexivity.
  assert (Hcases :
            (exists e, simple_cache w1 !! key = Some e /\ simple_cache w !! key = Some e
                       /\ now w <= expiresAt e)
            \/ (simple_cache w1 !! key = None
                /\ (simple_cache w !! key = None
                    \/ exists e, simple_cache w !! key = Some e /\ expiresAt e < now w))).
  { destruct (simple_cache w !! key) as [e|] eqn:H0.
    - destruct (Z.lt_ge_cases (expiresAt e) (now w)) as [Hold|Hlive].
      + right. split; [|right; eauto].
        destruct (simple_cache w1 !! key) as [e1|] eqn:H1; [|reflexivity].
        destruct (proj1 (Hlook e1) eq_refl) as [H1' Hl]. inversion H1'; subst. lia.
      + left. exists e. split; [apply Hlook; auto | auto].
    - right. split; [|left; reflexivity].
      destruct (simple_cache w1 !! key) as [e1|] eqn:H1; [|reflexivity].
      destruct (proj1 (Hlook e1) eq_refl) as [H1' _]. discriminate H1'. }
  split; [|split; [|split; [exact Hlook | reflexivity]]];
    unfold SimpleCache.get, SimpleCache.has; rewrite Hnow;
    destruct Hcases as [(e & -> & -> & Hlive)|[-> [->|(e & -> & Hold)]]]; try reflexivity.
  - destruct (Z.ltb_spec (expiresAt e) (now w)); [lia | reflexivity].
  - destruct (Z.ltb_spec (expiresAt e) (now w)); [reflexivity | lia].
  - destruct (Z.ltb_spec (expiresAt e) (now w)); [lia | reflexivity].
  - destruct (Z.ltb_spec (expiresAt e) (now w)); [reflexivity | lia].
Qed.

(* ===================================================================== *)
(** * Part XXIX.  Sorting and the two kinds of cache key                  *)
(* ===================================================================== *)

Lemma ascii_compare_N (a b : ascii) :
  Ascii.compare a b = N.compare (N_of_ascii a) (N_of_ascii b).
Proof. reflexivity. Qed.

Lemma ascii_compare_eq (a b : ascii) : Ascii.compare a b = Eq -> a = b.
Proof.
  rewrite ascii_compare_N. intros Hc. apply N.compare_eq in Hc.
  rewrite <- (ascii_N_embedding a), <- (ascii_N_embedding b), Hc. reflexivity.
Qed.

Lemma string_leb_trans (a b c : string) :
  String.leb a b = true -> String.leb b c = true -> String.leb a c = true.
Proof.
  unfold String.leb. revert b c.
  induction a as [|x a IH]; intros [|y b] [|z c]; simpl; try congruence.
  rewrite !ascii_compare_N.
  destruct (N.compare_spec (N_of_ascii x) (N_of_ascii y)) as [Hxy|Hxy|Hxy];
    destruct (N.compare_spec (N_of_ascii y) (N_of_ascii z)) as [Hyz|Hyz|Hyz];
    try congruence;
    destruct (N.compare_spec (N_of_ascii x) (N_of_ascii z)) as [Hxz|Hxz|Hxz];
    try congruence; try lia.
  apply IH.
Qed.

Lemma insert_sorted_swap (a b : string) (l : list string) :
  insert_sorted a (insert_sorted b l) = insert_sorted b (insert_sorted a l).
Proof.
  induction l as [|z l IH]; simpl.
  - destruct (String.leb a b) eqn:Hab, (String.leb b a) eqn:Hba; try reflexivity.
    + rewrite (String.leb_antisym _ _ Hab Hba). reflexivity.
    + destruct (String.leb_total a b); congruence.
  - destruct (String.leb b z) eqn:Hbz, (String.leb a z) eqn:Haz; simpl;
      rewrite ?Hbz, ?Haz.
    + destruct (String.leb a b) eqn:Hab, (String.leb b a) eqn:Hba; try reflexivity.
      * rewrite (String.leb_antisym _ _ Hab Hba). reflexivity.
      * destruct (String.leb_total a b); congruence.
    + destruct (String.leb a b) eqn:Hab; [|reflexivity].
      rewrite (string_leb_trans _ _ _ Hab Hbz) in Haz. discriminate Haz.
    + destruct (String.leb b a) eqn:Hba; [|reflexivity].
      rewrite (string_leb_trans _ _ _ Hba Haz) in Hbz. discriminate Hbz.
    + rewrite IH. reflexivity.
Qed.

(** Sorting forgets the order of its input. *)
Lemma sort_strings_permutation (l1 l2 : list string) :
  Permutation l1 l2 -> sort_strings l1 = sort_strings l2.
Proof.
  unfold sort_strings.
  induction 1 as [|x l1 l2 _ IH|x y l|l1 l2 l3 _ IH1 _ IH2]; simpl.
  - reflexivity.
  - rewrite IH. reflexivity.
  - apply insert_sorted_swap.
  - congruence.
Qed.

(** X3.  The key of [createPSICacheKey] does not depend on the order in
    which the categories are listed: the function sorts them. *)
Theorem createPSICacheKey_ignores_category_order
    (url strategy locale : string) (categories categories' : list string) :
  Permutation categories categories' ->
  SimpleCache.createPSICacheKey url strategy categories locale
  = SimpleCache.createPSICacheKey url strategy categories' locale.
Proof.
  intros Hperm. unfold SimpleCache.createPSICacheKey.
  rewrite (sort_strings_permutation _ _ Hperm). reflexivity.
Qed.

Lemma sort_strings_is_permutation (l : list string) : Permutation (sort_strings l) l.
Proof.
  assert (Hins : forall s l, Permutation (insert_sorted s l) (s :: l)).
  { intros s l0. induction l0 as [|x l0 IH]; simpl; [reflexivity|].
    destruct (String.leb s x); [reflexivity|].
    rewrite IH. apply perm_swap. }
  unfold sort_strings. induction l as [|x l IH]; simpl; [reflexivity|].
  rewrite Hins, IH. reflexivity.
Qed.

Lemma param_of_pair (k v : string) (params : list (string * string)) :
  List.NoDup (map fst params) -> In (k, v) params -> PageSpeedClient.param k params = v.
Proof.
  induction params as [|[k' v'] params IH]; simpl; [tauto|].
  intros Hnd Hin. inversion Hnd as [|k0 l0 Hfresh Hnd']; subst.
  destruct Hin as [Heq|Hin].
  - inversion Heq; subst. rewrite String.eqb_refl. reflexivity.
  - destruct (String.eqb_spec k k') as [->|_]; [|auto].
    exfalso. apply Hfresh. apply (in_map fst) in Hin. exact Hin.
Qed.

(** X4.  The key of [createCacheKey] does not depend on the order in
    which the properties of the parameter object were written: the
    property names are sorted before they are joined. *)
Theorem createCacheKey_ignores_property_order (params params' : list (string * string)) :
  List.NoDup (map fst params) ->
  Permutation params params' ->
  PageSpeedClient.createCacheKey params = PageSpeedClient.createCacheKey params'.
Proof.
  intros Hnd Hperm. unfold PageSpeedClient.createCacheKey.
  assert (Hkeys : Permutation (map fst params) (map fst params'))
    by (apply Permutation_map; exact Hperm).
  rewrite <- (sort_strings_permutation _ _ Hkeys).
  do 2 f_equal. apply map_ext_in. intros key Hin.
  assert (Hin' : In key (map fst params)).
  { eapply Permutation_in; [apply sort_strings_is_permutation | exact Hin]. }
  apply in_map_iff in Hin'. destruct Hin' as ([k v] & Hk & Hpair). simpl in Hk. subst k.
  rewrite (param_of_pair key v params Hnd Hpair).
  rewrite (param_of_pair key v params'); [reflexivity | | ].
  - eapply Permutation_NoDup; [exact Hkeys | exact Hnd].
  - eapply Permutation_in; [exact Hperm | exact Hpair].
Qed.

(* ===================================================================== *)
(** * Part XXX.  More about the client: expiry, failures, the request budget *)
(* ===================================================================== *)

Section ClientFrames.
Context `{Runtime} `{Libraries}.
Variable env : Environment.

(** What no step of a retried request touches: the two caches and the
    upstream.  The run makes at least one request and at most one more
    than the retries it was given. *)
Lemma run_frame (request : Request) (left : nat) :
  forall (k : nat) (errors : list JsError) (w : World) (r : outcome value) (w' : World),
    PRetry.run (PageSpeedClient.retryOptions env) (PageSpeedClient.attempt request)
      left k errors w = (r, w') ->
    client_cache w' = client_cache w
    /\ simple_cache w' = simple_cache w
    /\ upstream w' = upstream w
    /\ (fetched w < fetched w' <= fetched w + S left)%nat.
Proof.
  induction left as [|left IH]; intros k errors w r w' Hrun;
    cbn [PRetry.run] in Hrun;
    destruct (attempt_step request k w) as [Hw _];
    destruct (PageSpeedClient.attempt request k w) as [[v|e] w1]; simpl in Hw; subst w1.
  - inversion Hrun; subst. simpl. repeat split; lia.
  - destruct (_ && _) in Hrun; [inversion Hrun; subst; simpl; repeat split; lia|].
    destruct (PRetry.onFailedAttempt _ e); inversion Hrun; subst; simpl; repeat split; lia.
  - inversion Hrun; subst. simpl. repeat split; lia.
  - destruct (_ && _) in Hrun; [inversion Hrun; subst; simpl; repeat split; lia|].
    destruct (PRetry.onFailedAttempt _ e);
      [|inversion Hrun; subst; simpl; repeat split; lia].
    cbn [sleep] in Hrun. apply IH in Hrun. simpl in Hrun.
    destruct Hrun as (Hc & Hs & Hu & Hf). repeat split; try assumption; lia.
Qed.

Lemma makeRequest_frame (request : Request) (w : World) (r : outcome value) (w' : World) :
  PageSpeedClient.makeRequest env request w = (r, w') ->
  client_cache w' = client_cache w
  /\ simple_cache w' = simple_cache w
  /\ upstream w' = upstream w
  /\ (fetched w < fetched w' <= fetched w + S (RETRY_ATTEMPTS env))%nat.
Proof. apply run_frame. Qed.

(** The lookup at the start of a call: it returns the payload of a live
    entry, or [null]; it can only remove the entry of its key. *)
Lemma getCached_frame (key : string) (w : World) :
  exists v w1,
    PageSpeedClient.getCached env key w = (Ok v, w1)
    /\ client_cache w1 ⊆ client_cache w
    /\ simple_cache w1 = simple_cache w
    /\ upstream w1 = upstream w
    /\ fetched w1 = fetched w
    /\ trace w1 = trace w.
Proof.
  unfold PageSpeedClient.getCached.
  destruct (client_cache w !! key) as [entry|];
    [destruct (_ <? _)%Z|]; eexists; eexists; (split; [reflexivity|]); simpl;
    repeat split; try reflexivity.
  apply delete_subseteq.
Qed.

End ClientFrames.

Section ClientMore.
Context `{Runtime} `{Libraries}.
Variable env : Environment.

(** What a call of the client does to the world outside its own cache. *)
Lemma run_call_frame (c : ClientCall) (w : World) :
  let w' := snd (run_call env c w) in
  (fetched w <= fetched w' <= fetched w + request_budget env c)%nat
  /\ simple_cache w' = simple_cache w
  /\ upstream w' = upstream w.
Proof.
  destruct c as [input|input]; simpl;
    unfold PageSpeedClient.analyzePageSpeed, PageSpeedClient.getCruxData, limiter, bind.
  - destruct (getCached_frame env (PageSpeedClient.psi_cache_key input) (log Acquire w))
      as (v & w1 & -> & _ & Hs & Hu & Hf & _). simpl in Hs, Hu, Hf.
    destruct (truthy v); simpl; [repeat split; (lia || congruence)|].
    destruct (PageSpeedClient.makeRequest env _ w1) as [[d|e] w2] eqn:Hreq;
      apply makeRequest_frame in Hreq; destruct Hreq as (_ & Hs2 & Hu2 & Hf2); simpl;
      repeat split; (lia || congruence).
  - destruct (getCached_frame env (PageSpeedClient.crux_cache_key input) (log Acquire w))
      as (v & w1 & -> & _ & Hs & Hu & Hf & _). simpl in Hs, Hu, Hf.
    destruct (truthy v); simpl; [repeat split; (lia || congruence)|].
    unfold try_catch, bind, fetch.
    destruct (answer (upstream w1 (fetched w1))) as [r|e]; simpl;
      [|repeat split; (lia || congruence)].
    destruct (ok r); simpl; [|repeat split; (lia || congruence)].
    unfold PageSpeedClient.read_json.
    destruct (json r); simpl; repeat split; (lia || congruence).
Qed.

(** X5.  Whatever the upstream does, a call of the client stays within
    its request budget: an analysis makes at most one request more than
    the configured retries, a field-data call at most one.  The call
    leaves the cache service of [cache.ts] and the upstream as they are. *)
Theorem call_stays_within_request_budget (c : ClientCall) (w : World) :
  let w' := snd (run_call env c w) in
  (fetched w <= fetched w' <= fetched w + request_budget env c)%nat
  /\ simple_cache w' = simple_cache w
  /\ upstream w' = upstream w.
Proof. apply run_call_frame. Qed.

(** X6.  A call that fails stores nothing: every entry of the client's
    cache after the call was there before it.  The failure comes from
    the network (at least one request was made), and the limiter slot
    has been given back. *)
Theorem failed_call_stores_nothing (c : ClientCall) (w : World) (e : JsError) (w' : World) :
  run_call env c w = (Throw e, w') ->
  client_cache w' ⊆ client_cache w
  /\ (fetched w < fetched w')%nat
  /\ exists t, trace w' = (t ++ [Release])%list.
Proof.
  destruct c as [input|input]; simpl;
    unfold PageSpeedClient.analyzePageSpeed, PageSpeedClient.getCruxData, limiter, bind.
  - destruct (getCached_frame env (PageSpeedClient.psi_cache_key input) (log Acquire w))
      as (v & w1 & -> & Hc & _ & _ & Hf & _). simpl in Hc, Hf.
    destruct (truthy v); [intros Hr; discriminate Hr|].
    destruct (PageSpeedClient.makeRequest env _ w1) as [[d|e1] w2] eqn:Hreq;
      [intros Hr; discriminate Hr|].
    apply makeRequest_frame in Hreq. destruct Hreq as (Hc2 & _ & _ & Hf2).
    intros Hr. inversion Hr; subst. simpl.
    split; [rewrite Hc2; exact Hc|]. split; [lia|]. eexists. reflexivity.
  - destruct (getCached_frame env (PageSpeedClient.crux_cache_key input) (log Acquire w))
      as (v & w1 & -> & Hc & _ & _ & Hf & _). simpl in Hc, Hf.
    destruct (truthy v); [intros Hr; discriminate Hr|].
    unfold try_catch, bind, fetch.
    destruct (answer (upstream w1 (fetched w1))) as [r|e1]; simpl.
    + destruct (ok r); simpl.
      * unfold PageSpeedClient.read_json. destruct (json r); simpl;
          intros Hr; inversion Hr; subst; simpl.
        split; [exact Hc|]. split; [lia|]. eexists. reflexivity.
      * intros Hr; inversion Hr; subst; simpl.
        split; [exact Hc|]. split; [lia|]. eexists. reflexivity.
    + intros Hr; inversion Hr; subst; simpl.
      split; [exact Hc|]. split; [lia|]. eexists. reflexivity.
Qed.

(** X7.  An entry older than the TTL is not served: the call removes it,
    asks the upstream once, returns the new answer and stores it with
    the time at which the answer arrived. *)
Theorem expired_entry_is_fetched_again
    (c : ClientCall) (w : World) (entry : CacheEntry) (r : Response) (d : value) :
  client_cache w !! call_key c = Some entry ->
  PageSpeedClient.cacheTTL env < now w - timestamp entry ->
  answer (upstream w (fetched w)) = Resolves r ->
  ok r = true ->
  json r = inr d ->
  exists w',
    run_call env c w = (Ok d, w')
    /\ fetched w' = S (fetched w)
    /\ client_cache w' !! call_key c
       = Some {| data := d; timestamp := now w + elapsed (upstream w (fetched w)) |}
    /\ trace w' = (trace w ++ [Acquire; Fetch (call_request env c); Release])%list.
Proof.
  intros Hentry Hold Hans Hok Hjson.
  set (w0 := set_client_cache (delete (call_key c) (client_cache w)) (log Acquire w)).
  assert (Hget : PageSpeedClient.getCached env (call_key c) (log Acquire w) = (Ok VNull, w0)).
  { unfold PageSpeedClient.getCached. simpl. rewrite Hentry.
    destruct (Z.ltb_spec (PageSpeedClient.cacheTTL env) (now w - timestamp entry)); [|lia].
    reflexivity. }
  destruct c as [input|input]; simpl in *;
    unfold PageSpeedClient.analyzePageSpeed, PageSpeedClient.getCruxData, limiter, bind;
    rewrite Hget; simpl.
  - rewrite (makeRequest_first_try env _ w0 r d Hans Hok Hjson). simpl.
    eexists. split; [reflexivity|]. simpl.
    split; [reflexivity|]. split; [apply lookup_insert_eq|].
    rewrite <- !app_assoc. reflexivity.
  - unfold try_catch, bind, fetch, PageSpeedClient.read_json. simpl.
    rewrite Hans, Hok. simpl. rewrite Hjson. simpl.
    eexists. split; [reflexivity|]. simpl.
    split; [reflexivity|]. split; [apply lookup_insert_eq|].
    rewrite <- !app_assoc. reflexivity.
Qed.

(** A run in which [k] attempts fail with transient failures and the
    next one succeeds. *)
Lemma run_recovers (request : Request) (k : nat) :
  forall (left n : nat) (errors : list JsError) (w : World) (r : Response) (d : value),
    (k <= left)%nat ->
    (forall i, (i < k)%nat -> transient (upstream w (fetched w + i)%nat) = true) ->
    answer (upstream w (fetched w + k)%nat) = Resolves r ->
    ok r = true ->
    json r = inr d ->
    exists w',
      PRetry.run (PageSpeedClient.retryOptions env) (PageSpeedClient.attempt request)
        left (S n) errors w = (Ok d, w')
      /\ fetched w' = (fetched w + S k)%nat
      /\ trace w' = (trace w ++ retry_trace request k n)%list
      /\ client_cache w' = client_cache w.
Proof.
  induction k as [|k IH]; intros left n errors w r d Hle Hall Hans Hok Hjson.
  - rewrite Nat.add_0_r in Hans.
    exists (after_fetch request w).
    split; [|simpl; repeat split; lia].
    destruct left; cbn [PRetry.run];
      rewrite (attempt_ok request (S n) w r d Hans Hok Hjson); reflexivity.
  - destruct left as [|left]; [lia|].
    destruct (transient_failure _ (Hall 0%nat (Nat.lt_0_succ _))) as (Hfail & Hc & Ht).
    rewrite Nat.add_0_r in Hfail, Hc, Ht.
    cbn [PRetry.run].
    rewrite (attempt_fails request (S n) w _ Hfail). rewrite Ht.
    cbn [PRetry.onFailedAttempt PageSpeedClient.retryOptions]. rewrite Hc.
    cbn [sleep Nat.pred].
    set (w1 := log _ (advance _ (after_fetch request w))).
    destruct (IH left (S n) (errors ++ [failure_of (upstream w (fetched w))])%list w1 r d)
      as (w' & Hrun & Hf & Ht' & Hc'); try assumption.
    { lia. }
    { intros i Hi. unfold w1. simpl.
      replace (S (fetched w + i)) with (fetched w + S i)%nat by lia.
      apply Hall. lia. }
    { unfold w1. simpl.
      replace (S (fetched w + k)) with (fetched w + S k)%nat by lia. exact Hans. }
    exists w'. rewrite Hrun. split; [reflexivity|].
    split; [rewrite Hf; unfold w1; simpl; lia|].
    split; [|rewrite Hc'; reflexivity].
    rewrite Ht'. unfold w1, PRetry.createTimeout. simpl.
    repeat rewrite <- app_assoc. reflexivity.
Qed.

(** X8.  Failures of the retried kind are invisible to the caller of an
    analysis as long as the retries last: when [k] attempts fail other
    than by an answer with a status in 400-499 (a rejected request, as
    with a timeout or a transport error; a status of 500 and above; a
    body that is not JSON), [k] being at most the configured number of
    retries, and the next attempt is answered, the call returns that
    answer after [k + 1] requests with the back-off delays 1 s, 2 s,
    4 s, ...  (at most 10 s) between them, and stores it. *)
Theorem transient_failures_are_retried_until_success
    (input : AnalyzePageSpeedInput) (k : nat) (w : World) (r : Response) (d : value) :
  client_cache w !! PageSpeedClient.psi_cache_key input = None ->
  (k <= RETRY_ATTEMPTS env)%nat ->
  (forall i, (i < k)%nat -> other_failure (upstream w (fetched w + i)%nat) = true) ->
  answer (upstream w (fetched w + k)%nat) = Resolves r ->
  ok r = true ->
  json r = inr d ->
  exists w',
    PageSpeedClient.analyzePageSpeed env input w = (Ok d, w')
    /\ fetched w' = (fetched w + S k)%nat
    /\ trace w'
       = (trace w ++ [Acquire]
            ++ retry_trace (PageSpeedClient.psi_request env input) k 0 ++ [Release])%list
    /\ client_cache w' !! PageSpeedClient.psi_cache_key input
       = Some {| data := d; timestamp := now w' |}.
Proof.
  intros Hmiss Hk Hall Hans Hok Hjson.
  assert (Hget : PageSpeedClient.getCached env (PageSpeedClient.psi_cache_key input)
                   (log Acquire w) = (Ok VNull, log Acquire w))
    by (apply getCached_miss; exact Hmiss).
  destruct (run_recovers (PageSpeedClient.psi_request env input) k (RETRY_ATTEMPTS env) 0 []
              (log Acquire w) r d Hk
              (fun i Hi => other_failure_transient _ (Hall i Hi)) Hans Hok Hjson)
    as (w1 & Hrun & Hf & Ht & Hc).
  unfold PageSpeedClient.analyzePageSpeed, limiter, bind. rewrite Hget. simpl.
  unfold PageSpeedClient.makeRequest, PRetry.pRetry.
  change (PRetry.retries (PageSpeedClient.retryOptions env)) with (RETRY_ATTEMPTS env).
  rewrite Hrun. simpl.
  eexists. split; [reflexivity|]. simpl.
  split; [exact Hf|]. split; [|apply lookup_insert_eq].
  rewrite Ht. simpl. rewrite <- !app_assoc. reflexivity.
Qed.

(** X9.  The field-data path has no retry: an answer that is not [ok],
    whatever its status (a 404 for an unknown origin as much as a 503),
    ends the call after one request with the error ["CrUX API error:
    <status> <statusText> - <body>"], nothing is stored, and the
    [crux_summary] tool answers with an error-flagged reply that carries
    this message. *)
Theorem field_data_failure_is_not_retried
    (args : value) (input : CruxSummaryInput) (w : World) (r : Response) :
  Schemas.CruxSummarySchema args = inr input ->
  client_cache w !! PageSpeedClient.crux_cache_key input = None ->
  answer (upstream w (fetched w)) = Resolves r ->
  ok r = false ->
  let w' := log Release (after_fetch (PageSpeedClient.crux_request env input) (log Acquire w)) in
  PageSpeedClient.getCruxData env input w = (Throw (PageSpeedClient.crux_error r), w')
  /\ Server.handleCruxSummary env args w
     = (Ok {| content :=
                [ Plain ("Error getting CrUX data: CrUX API error: "
                           ++ number_to_string (inject_Z (status r)) ++ " "
                           ++ statusText r ++ " - " ++ text r) ];
              isError := true |}, w')
  /\ fetched w' = S (fetched w)
  /\ client_cache w' = client_cache w.
Proof.
  intros Hparse Hmiss Hans Hbad w'.
  assert (Hcall : PageSpeedClient.getCruxData env input w
                  = (Throw (PageSpeedClient.crux_error r), w')).
  { unfold PageSpeedClient.getCruxData, limiter, bind.
    rewrite (getCached_miss env _ (log Acquire w) Hmiss). simpl.
    unfold try_catch, bind, fetch. simpl. rewrite Hans, Hbad. reflexivity. }
  split; [exact Hcall|]. split; [|split; reflexivity].
  unfold Server.handleCruxSummary, try_catch, bind, Schemas.parse.
  rewrite Hparse. simpl. rewrite Hcall. reflexivity.
Qed.


End ClientMore.

(* ===================================================================== *)
(** * Part XXXI.  What validation accepts                                 *)
(* ===================================================================== *)

Section Validation.
Context `{Libraries}.

Lemma one_of_inr (options : list string) (p : list PathSeg) (v : value) (s : string) :
  Schemas.one_of options p v = inr s <-> v = VStr s /\ In s options.
Proof.
  unfold Schemas.one_of. split.
  - destruct v; try discriminate.
    destruct (existsb _ options) eqn:Hex; [|discriminate].
    intros Hs. inversion Hs; subst. split; [reflexivity|].
    apply existsb_exists in Hex. destruct Hex as (x & Hin & Hx).
    apply String.eqb_eq in Hx. subst. exact Hin.
  - intros [-> Hin].
    assert (Hex : existsb (String.eqb s) options = true).
    { apply existsb_exists. exists s. split; [exact Hin | apply String.eqb_refl]. }
    rewrite Hex. reflexivity.
Qed.

Lemma parse_categories (p : list PathSeg) (l : list value) :
  forall (i : nat) (cats : list string),
    Schemas.parse_elements Schemas.CategorySchema p i l = inr cats
    <-> l = map VStr cats /\ Forall (fun c => In c category_names) cats.
Proof.
  induction l as [|v l IH]; intros i cats; simpl.
  - split.
    + intros Hc. inversion Hc. split; [reflexivity | constructor].
    + intros [Hl _]. destruct cats; [reflexivity | discriminate Hl].
  - split.
    + destruct (Schemas.both _ _) as [e|[x xs]] eqn:Hb; [discriminate|].
      intros Hc. inversion Hc; subst.
      apply both_inr in Hb. destruct Hb as [Hx Hxs].
      apply one_of_inr in Hx. destruct Hx as [-> Hin].
      apply IH in Hxs. destruct Hxs as [-> Hall].
      split; [reflexivity | constructor; assumption].
    + intros [Hl Hall]. destruct cats as [|c cats]; [discriminate Hl|].
      inversion Hl; subst. inversion Hall; subst.
      assert (Hx : Schemas.CategorySchema (p ++ [Index i])%list (VStr c) = inr c)
        by (apply one_of_inr; auto).
      assert (Hxs : Schemas.parse_elements Schemas.CategorySchema p (S i) (map VStr cats)
                    = inr cats) by (apply IH; auto).
      rewrite Hx, Hxs. reflexivity.
Qed.

Lemma StrategySchema_inr (p : list PathSeg) (v : value) (s : string) :
  Schemas.StrategySchema p v = inr s
  <-> defaulted v s "mobile" VStr (fun s => In s strategy_names).
Proof.
  unfold defaulted, Schemas.StrategySchema. split.
  - destruct v; try (intros Hs; apply one_of_inr in Hs; destruct Hs as [Hv Hin];
                     first [discriminate Hv | right; auto]).
    intros Hs. inversion Hs. left. auto.
  - intros [[-> ->]|[-> Hin]]; [reflexivity|]. apply one_of_inr. auto.
Qed.

Lemma CategoriesSchema_inr (p : list PathSeg) (v : value) (cats : list string) :
  Schemas.CategoriesSchema p v = inr cats
  <-> defaulted v cats [ "performance" ] (fun cats => VArr (map VStr cats))
        (Forall (fun c => In c category_names)).
Proof.
  unfold defaulted, Schemas.CategoriesSchema. split.
  - destruct v; try discriminate.
    + intros Hs. inversion Hs. left. auto.
    + intros Hs. apply parse_categories in Hs. destruct Hs as [-> Hall]. right. auto.
  - intros [[-> ->]|[-> Hall]]; [reflexivity|]. apply parse_categories. auto.
Qed.

Lemma LocaleSchema_inr (p : list PathSeg) (v : value) (l : string) :
  Schemas.LocaleSchema p v = inr l
  <-> defaulted v l "en" VStr (fun l => Schemas.locale_format l = true).
Proof.
  unfold defaulted, Schemas.LocaleSchema. split.
  - destruct v; try discriminate.
    + intros Hs. inversion Hs. left. auto.
    + destruct (Schemas.locale_format s) eqn:Hf; [|discriminate].
      intros Hs. inversion Hs; subst. right. auto.
  - intros [[-> ->]|[-> ->]]; reflexivity.
Qed.

Lemma UrlSchema_inr (p : list PathSeg) (v : value) (u : string) :
  Schemas.UrlSchema p v = inr u <-> v = VStr u /\ is_url u = true.
Proof.
  unfold Schemas.UrlSchema. split.
  - destruct v; try discriminate. destruct (is_url s) eqn:Hu; [|discriminate].
    intros Hs. inversion Hs; subst. auto.
  - intros [-> ->]. reflexivity.
Qed.

Lemma both_inr_iff {A B} (a : Schemas.parsed A) (b : Schemas.parsed B) (x : A) (y : B) :
  Schemas.both a b = inr (x, y) <-> a = inr x /\ b = inr y.
Proof.
  split; [apply both_inr|]. intros [-> ->]. reflexivity.
Qed.

Lemma accepted_analysis_arguments (args : value) (input : AnalyzePageSpeedInput) :
  Schemas.AnalyzePageSpeedSchema args = inr input -> analysis_arguments args input.
Proof.
  unfold Schemas.AnalyzePageSpeedSchema, analysis_arguments, Schemas.member.
  destruct (Schemas.is_object args); simpl; [|discriminate].
  destruct (Schemas.both _ _) as [e|[u [s [c l]]]] eqn:Hb; [discriminate|].
  intros Hi. inversion Hi; subst; simpl.
  apply both_inr_iff in Hb. destruct Hb as [Hu Hb].
  apply both_inr_iff in Hb. destruct Hb as [Hs Hb].
  apply both_inr_iff in Hb. destruct Hb as [Hc Hl].
  apply UrlSchema_inr in Hu. destruct Hu as [Hu Hurl].
  apply StrategySchema_inr in Hs. apply CategoriesSchema_inr in Hc.
  apply LocaleSchema_inr in Hl.
  repeat split; try assumption. exists c. auto.
Qed.

Lemma analysis_arguments_accepted (args : value) (input : AnalyzePageSpeedInput) :
  analysis_arguments args input -> Schemas.AnalyzePageSpeedSchema args = inr input.
Proof.
  unfold Schemas.AnalyzePageSpeedSchema, analysis_arguments, Schemas.member.
  intros (-> & Hu & Hurl & Hs & (cats & Hcat & Hc) & Hl). simpl.
  destruct input as [u s c l]. simpl in *. subst c.
  assert (Hb : Schemas.both (Schemas.UrlSchema [Key "url"] (opt_prop args "url"))
                 (Schemas.both (Schemas.StrategySchema [Key "strategy"] (opt_prop args "strategy"))
                    (Schemas.both
                       (Schemas.CategoriesSchema [Key "category"] (opt_prop args "category"))
                       (Schemas.LocaleSchema [Key "locale"] (opt_prop args "locale"))))
               = inr (u, (s, (cats, l)))).
  { repeat (apply both_inr_iff; split).
    - apply UrlSchema_inr. auto.
    - apply StrategySchema_inr. exact Hs.
    - apply CategoriesSchema_inr. exact Hc.
    - apply LocaleSchema_inr. exact Hl. }
  rewrite Hb. reflexivity.
Qed.

(** X11.  [AnalyzePageSpeedSchema] accepts exactly the argument objects
    whose [url] is a string that is a URL and whose [strategy],
    [category] and [locale] are each either left out or valid; what it
    returns are the given values, with ["mobile"], [["performance"]] and
    ["en"] for the members left out.  Nothing else is changed or added. *)
Theorem AnalyzePageSpeedSchema_accepts (args : value) (input : AnalyzePageSpeedInput) :
  Schemas.AnalyzePageSpeedSchema args = inr input <-> analysis_arguments args input.
Proof.
  split; [apply accepted_analysis_arguments | apply analysis_arguments_accepted].
Qed.

End Validation.

(* ===================================================================== *)
(** * Part XXXII.  The handlers: failures become replies, the batch's load *)
(* ===================================================================== *)

Section Handlers.
Context `{Runtime} `{Libraries}.
Variable env : Environment.
Variable other_handler : string -> value -> M ToolResponse.

(** One turn of the batch loop never fails and stays within the budget
    of one analysis. *)
Lemma analyze_one_frame (input : Schemas.BatchAnalyzeInput) (url : string) (w : World) :
  exists (entry : value) (w' : World),
    Server.analyze_one env input url w = (Ok entry, w')
    /\ (fetched w <= fetched w' <= fetched w + S (RETRY_ATTEMPTS env))%nat
    /\ simple_cache w' = simple_cache w.
Proof.
  unfold Server.analyze_one, try_catch, bind.
  pose proof (run_call_frame env
                (AnalyzePageSpeed
                   {| url := url; strategy := Schemas.batch_strategy input;
                      category := Some (Schemas.batch_category input);
                      locale := Schemas.batch_locale input |}) w) as Hframe.
  simpl in Hframe.
  destruct (PageSpeedClient.analyzePageSpeed env _ w) as [[d|e] w1]; simpl in Hframe;
    destruct Hframe as (Hf & Hs & _).
  - unfold lift. destruct (Server.createPerformanceSummary d url _);
      eexists; eexists; (split; [reflexivity|]); auto.
  - eexists; eexists; (split; [reflexivity|]); auto.
Qed.

Lemma batch_loop_frame (input : Schemas.BatchAnalyzeInput) (todo : list string) :
  forall (results : list value) (w : World),
    exists (all : list value) (w' : World),
      Server.batch_loop env input todo results w = (Ok all, w')
      /\ (fetched w <= fetched w'
          <= fetched w + List.length todo * S (RETRY_ATTEMPTS env))%nat
      /\ simple_cache w' = simple_cache w.
Proof.
  induction todo as [|url todo IH]; intros results w.
  - exists results, w. simpl. repeat split; lia.
  - destruct (analyze_one_frame input url w) as (entry & w1 & Hone & Hf & Hs).
    destruct (IH (results ++ [entry])%list w1) as (all & w' & Hloop & Hf' & Hs').
    exists all, w'. cbn [Server.batch_loop]. unfold bind. rewrite Hone, Hloop.
    split; [reflexivity|]. split; [simpl; lia | congruence].
Qed.

(** X12.  A batch makes at most [10 * (1 + RETRY_ATTEMPTS)] requests,
    whatever its arguments are and whatever the upstream does: at most
    ten URLs pass validation, and each is analysed once, within the
    budget of one analysis. *)
Theorem batch_stays_within_request_budget (args : value) (w : World) :
  let w' := snd (Server.handleBatchAnalyze env args w) in
  (fetched w <= fetched w' <= fetched w + 10 * S (RETRY_ATTEMPTS env))%nat.
Proof.
  unfold Server.handleBatchAnalyze, try_catch, bind, Schemas.parse.
  destruct (Schemas.BatchAnalyzeSchema args) as [issues|input] eqn:Hparse; simpl; [lia|].
  pose proof (BatchAnalyzeSchema_bounds args input Hparse) as Hn.
  destruct (batch_loop_frame input (Schemas.urls input) [] w) as (all & w' & -> & Hf & _).
  simpl.
  assert (List.length (Schemas.urls input) * S (RETRY_ATTEMPTS env)
          <= 10 * S (RETRY_ATTEMPTS env))%nat by (apply Nat.mul_le_mono_r; lia).
  lia.
Qed.

(** X13.  No failure leaves the handlers of [get_performance_summary],
    [crux_summary], [batch_analyze] and [clear_cache]: whatever the
    arguments, the caches and the upstream, the call returns a reply.
    When the validation of the arguments, the call of the client or the
    formatting of its answer throws, the reply is flagged as an error
    and its text is the handler's prefix followed by the message of
    that very error; otherwise the reply is not flagged. *)
Theorem tool_failures_become_error_replies
    (name prefix : string) (args : value) (w : World) :
  In (name, prefix) answering_tools ->
  exists (reply : ToolResponse) (w' : World),
    Server.callTool env other_handler name args w = (Ok reply, w')
    /\ match caught env name args w with
       | Some e => reply = Server.failure prefix e
       | None => isError reply = false
       end.
Proof.
  intros Hin. simpl in Hin.
  destruct Hin as [Hin|[Hin|[Hin|[Hin|[]]]]]; inversion Hin; subst; clear Hin;
    unfold Server.callTool, caught, first_error; simpl.
  - unfold Server.handlePerformanceSummary, try_catch, bind, Schemas.parse.
    destruct (Schemas.PerformanceSummarySchema args) as [issues|input]; simpl;
      [eexists; eexists; split; reflexivity|].
    destruct (PageSpeedClient.analyzePageSpeed env _ w) as [[d|e] w1]; simpl;
      [|eexists; eexists; split; reflexivity].
    unfold lift. destruct (Server.createPerformanceSummary d _ _); simpl;
      eexists; eexists; split; reflexivity.
  - unfold Server.handleCruxSummary, try_catch, bind, Schemas.parse.
    destruct (Schemas.CruxSummarySchema args) as [issues|input]; simpl;
      [eexists; eexists; split; reflexivity|].
    destruct (PageSpeedClient.getCruxData env input w) as [[d|e] w1]; simpl;
      [|eexists; eexists; split; reflexivity].
    unfold lift. destruct (Server.formatCruxSummary d _); simpl;
      eexists; eexists; split; reflexivity.
  - unfold Server.handleBatchAnalyze, try_catch, bind, Schemas.parse.
    destruct (Schemas.BatchAnalyzeSchema args) as [issues|input]; simpl;
      [eexists; eexists; split; reflexivity|].
    destruct (batch_loop_frame input (Schemas.urls input) [] w) as (all & w' & -> & _).
    eexists; eexists; split; reflexivity.
  - unfold Server.handleClearCache, try_catch, bind. simpl.
    eexists; eexists; split; reflexivity.
Qed.

End Handlers.

(* ===================================================================== *)
(** * Part XXXIII.  Cache keys keep validated requests apart              *)
(* ===================================================================== *)

Lemma free_of_app (c : ascii) (a b : string) :
  free_of c (a ++ b) = free_of c a && free_of c b.
Proof.
  induction a as [|x a IH]; simpl; [reflexivity|]. rewrite IH. apply andb_assoc.
Qed.

(** Two strings that are cut at the first occurrence of [c]. *)
Lemma cut_at (c : ascii) (a a' r r' : string) :
  free_of c a = true -> free_of c a' = true ->
  a ++ String c r = a' ++ String c r' -> a = a' /\ r = r'.
Proof.
  revert a'. induction a as [|x a IH]; intros [|x' a']; simpl; intros Ha Ha' Heq.
  - inversion Heq. auto.
  - inversion Heq; subst. rewrite Ascii.eqb_refl in Ha'. discriminate Ha'.
  - inversion Heq; subst. rewrite Ascii.eqb_refl in Ha. discriminate Ha.
  - inversion Heq; subst.
    apply andb_prop in Ha. apply andb_prop in Ha'.
    destruct (IH a' (proj2 Ha) (proj2 Ha') H1) as [-> ->]. auto.
Qed.

Lemma not_cut (c : ascii) (a a' r : string) :
  free_of c a = true -> a <> a' ++ String c r.
Proof.
  intros Ha Heq. subst a. rewrite free_of_app in Ha. simpl in Ha.
  rewrite Ascii.eqb_refl in Ha. simpl in Ha. rewrite andb_false_r in Ha. discriminate Ha.
Qed.

Lemma concat_free (c : ascii) (sep : string) (l : list string) :
  free_of c sep = true -> Forall (fun s => free_of c s = true) l ->
  free_of c (String.concat sep l) = true.
Proof.
  intros Hsep. induction 1 as [|x l Hx Hl IH]; simpl; [reflexivity|].
  destruct l; [exact Hx|]. rewrite !free_of_app, Hx, Hsep, IH. reflexivity.
Qed.

(** Joining with commas loses nothing when no element has a comma and
    no element is empty. *)
Lemma concat_comma_injective (l1 : list string) :
  forall l2,
    Forall (fun s => free_of "," s = true /\ s <> "") l1 ->
    Forall (fun s => free_of "," s = true /\ s <> "") l2 ->
    String.concat "," l1 = String.concat "," l2 -> l1 = l2.
Proof.
  induction l1 as [|x l1 IH]; intros l2 H1 H2 Heq.
  - destruct l2 as [|y l2]; [reflexivity|]. exfalso.
    inversion H2 as [|? ? [_ Hy] _]; subst. simpl in Heq.
    destruct l2; [congruence|]. destruct y; [congruence | discriminate Heq].
  - inversion H1 as [|? ? [Hx Hxne] H1']; subst.
    destruct l2 as [|y l2].
    + exfalso. simpl in Heq. destruct l1; [congruence|].
      destruct x; [congruence | discriminate Heq].
    + inversion H2 as [|? ? [Hy Hyne] H2']; subst.
      simpl in Heq. destruct l1 as [|x' l1], l2 as [|y' l2].
      * congruence.
      * exfalso. apply (not_cut "," x y (String.concat "," (y' :: l2)) Hx). exact Heq.
      * exfalso. apply (not_cut "," y x (String.concat "," (x' :: l1)) Hy). symmetry. exact Heq.
      * destruct (cut_at "," x y _ _ Hx Hy Heq) as [-> Hrest].
        f_equal. apply IH; assumption.
Qed.

Lemma lower_is_no_bar (c : ascii) : Schemas.lower c = true -> Ascii.eqb c "|" = false.
Proof.
  intros Hl. destruct (Ascii.eqb_spec c "|") as [->|_]; [|reflexivity].
  vm_compute in Hl. discriminate Hl.
Qed.

Lemma upper_is_no_bar (c : ascii) : Schemas.upper c = true -> Ascii.eqb c "|" = false.
Proof.
  intros Hl. destruct (Ascii.eqb_spec c "|") as [->|_]; [|reflexivity].
  vm_compute in Hl. discriminate Hl.
Qed.

Lemma locale_has_no_bar (l : string) : Schemas.locale_format l = true -> free_of "|" l = true.
Proof.
  destruct l as [|a [|b [|c [|d [|e [|f l]]]]]];
    try (destruct c as [[] [] [] [] [] [] [] []]); simpl; try discriminate.
  - intros Hf. apply andb_prop in Hf. destruct Hf as [Ha Hb].
    rewrite (lower_is_no_bar _ Ha), (lower_is_no_bar _ Hb). reflexivity.
  - intros Hf. apply andb_prop in Hf. destruct Hf as [Hf He].
    apply andb_prop in Hf. destruct Hf as [Hf Hd].
    apply andb_prop in Hf. destruct Hf as [Ha Hb].
    rewrite (lower_is_no_bar _ Ha), (lower_is_no_bar _ Hb),
      (upper_is_no_bar _ Hd), (upper_is_no_bar _ He). reflexivity.
Qed.

Section KeysApart.
Context `{Libraries}.

Lemma psi_cache_key_shape (i : AnalyzePageSpeedInput) :
  PageSpeedClient.psi_cache_key i
  = "psi_v5_categories=" ++ PageSpeedClient.categories_param i
      ++ String "|" ("locale=" ++ locale i
      ++ String "|" ("strategy=" ++ strategy i
      ++ String "|" ("url=" ++ url i))).
Proof. reflexivity. Qed.

Lemma crux_cache_key_shape (i : CruxSummaryInput) :
  PageSpeedClient.crux_cache_key i
  = "psi_v5_formFactor="
      ++ match formFactor i with
         | Some f => if String.eqb f "" then "PHONE" else f
         | None => "PHONE"
         end
      ++ String "|" ("url=" ++ crux_url i).
Proof. reflexivity. Qed.

Lemma category_has_no_bar_or_comma (c : string) :
  In c category_names -> free_of "|" c = true /\ free_of "," c = true /\ c <> "".
Proof.
  simpl. intros [<-|[<-|[<-|[<-|[<-|[]]]]]]; repeat split; discriminate.
Qed.

Lemma categories_param_of (cats : list string) (s u l : string) :
  Forall (fun c => In c category_names) cats ->
  let i := {| url := u; strategy := s; category := Some cats; locale := l |} in
  free_of "|" (PageSpeedClient.categories_param i) = true
  /\ (cats <> [] -> PageSpeedClient.categories_param i = String.concat "," cats)
  /\ (cats = [] -> PageSpeedClient.categories_param i = "performance").
Proof.
  intros Hall i. unfold PageSpeedClient.categories_param. simpl.
  assert (Hfree : free_of "|" (String.concat "," cats) = true).
  { apply concat_free; [reflexivity|].
    eapply List.Forall_impl; [|exact Hall]. intros c Hc.
    apply (category_has_no_bar_or_comma c Hc). }
  destruct (String.eqb_spec (String.concat "," cats) "") as [Hempty|Hne].
  - split; [reflexivity|]. split; [|intros _; reflexivity].
    intros Hcats. exfalso. destruct cats as [|c cats]; [congruence|].
    inversion Hall; subst.
    destruct (category_has_no_bar_or_comma c) as (_ & _ & Hc); [assumption|].
    simpl in Hempty. destruct cats; [congruence|].
    destruct c; [congruence | discriminate Hempty].
  - split; [exact Hfree|]. split; [intros _; reflexivity|].
    intros ->. contradiction Hne. reflexivity.
Qed.

Lemma append_cancel (a x y : string) : a ++ x = a ++ y -> x = y.
Proof.
  induction a as [|c a IH]; [auto|]. intros Heq. inversion Heq. auto.
Qed.

Lemma strategy_has_no_bar (s : string) : In s strategy_names -> free_of "|" s = true.
Proof. simpl. intros [<-|[<-|[]]]; reflexivity. Qed.

(** What an accepted analysis input is made of. *)
Lemma accepted_analysis_parts (args : value) (i : AnalyzePageSpeedInput) :
  Schemas.AnalyzePageSpeedSchema args = inr i ->
  In (strategy i) strategy_names
  /\ free_of "|" (locale i) = true
  /\ exists cats, category i = Some cats /\ Forall (fun c => In c category_names) cats.
Proof.
  intros Hacc. apply accepted_analysis_arguments in Hacc.
  destruct Hacc as (_ & _ & _ & Hs & (cats & Hcat & Hc) & Hl).
  split; [|split].
  - destruct Hs as [[_ ->]|[_ Hin]]; [simpl; auto | exact Hin].
  - destruct Hl as [[_ ->]|[_ Hf]]; [reflexivity | apply locale_has_no_bar; exact Hf].
  - exists cats. split; [exact Hcat|].
    destruct Hc as [[_ ->]|[_ Hall]]; [|exact Hall].
    repeat constructor.
Qed.

Lemma joined_categories_agree (cats1 cats2 : list string) :
  Forall (fun c => In c category_names) cats1 ->
  Forall (fun c => In c category_names) cats2 ->
  cats1 <> [] -> cats2 <> [] ->
  String.concat "," cats1 = String.concat "," cats2 -> cats1 = cats2.
Proof.
  intros H1 H2 _ _. apply concat_comma_injective.
  - eapply List.Forall_impl; [|exact H1]. intros c Hc.
    destruct (category_has_no_bar_or_comma c Hc) as (_ & Hcomma & Hne). auto.
  - eapply List.Forall_impl; [|exact H2]. intros c Hc.
    destruct (category_has_no_bar_or_comma c Hc) as (_ & Hcomma & Hne). auto.
Qed.

(** X14.  Two analysis inputs that passed validation have the same cache
    key only if they agree on the URL, the strategy and the locale, and
    on the category list, where the empty list counts as
    [["performance"]]: an answer is never served to a request for
    another page, device, language or set of categories. *)
Theorem analysis_keys_separate_requests
    (args1 args2 : value) (i1 i2 : AnalyzePageSpeedInput) :
  Schemas.AnalyzePageSpeedSchema args1 = inr i1 ->
  Schemas.AnalyzePageSpeedSchema args2 = inr i2 ->
  PageSpeedClient.psi_cache_key i1 = PageSpeedClient.psi_cache_key i2 ->
  url i1 = url i2
  /\ strategy i1 = strategy i2
  /\ locale i1 = locale i2
  /\ (category i1 = category i2
      \/ default_category_list (category i1) /\ default_category_list (category i2)).
Proof.
  intros Hacc1 Hacc2 Hkey.
  destruct (accepted_analysis_parts _ _ Hacc1) as (Hs1 & Hl1 & cats1 & Hc1 & Hall1).
  destruct (accepted_analysis_parts _ _ Hacc2) as (Hs2 & Hl2 & cats2 & Hc2 & Hall2).
  destruct i1 as [u1 s1 c1 l1], i2 as [u2 s2 c2 l2]. simpl in *. subst c1 c2.
  destruct (categories_param_of cats1 s1 u1 l1 Hall1) as (Hf1 & Hfull1 & Hdef1).
  destruct (categories_param_of cats2 s2 u2 l2 Hall2) as (Hf2 & Hfull2 & Hdef2).
  rewrite !psi_cache_key_shape in Hkey. simpl url in Hkey. simpl strategy in Hkey.
  simpl locale in Hkey.
  apply append_cancel in Hkey.
  apply cut_at in Hkey; [|assumption|assumption]. destruct Hkey as [Hcats Hkey].
  apply (append_cancel "locale=") in Hkey.
  apply cut_at in Hkey; [|assumption|assumption]. destruct Hkey as [-> Hkey].
  apply (append_cancel "strategy=") in Hkey.
  apply cut_at in Hkey; [|apply strategy_has_no_bar; assumption
                         |apply strategy_has_no_bar; assumption].
  destruct Hkey as [-> Hkey].
  apply (append_cancel "url=") in Hkey. subst u2.
  repeat (split; [reflexivity|]).
  destruct cats1 as [|c1 cats1], cats2 as [|c2 cats2].
  - left. reflexivity.
  - right. split; [right; left; reflexivity|].
    rewrite (Hdef1 eq_refl), (Hfull2 ltac:(discriminate)) in Hcats.
    right. right. f_equal. symmetry.
    apply (joined_categories_agree [ "performance" ] (c2 :: cats2));
      [repeat constructor; simpl; auto | assumption | discriminate | discriminate | exact Hcats].
  - right. split; [|right; left; reflexivity].
    rewrite (Hdef2 eq_refl), (Hfull1 ltac:(discriminate)) in Hcats.
    right. right. f_equal.
    apply (joined_categories_agree (c1 :: cats1) [ "performance" ]);
      [assumption | repeat constructor; simpl; auto | discriminate | discriminate | exact Hcats].
  - left. f_equal.
    rewrite (Hfull1 ltac:(discriminate)), (Hfull2 ltac:(discriminate)) in Hcats.
    apply joined_categories_agree; (assumption || discriminate).
Qed.

(** X15.  The key of a field-data call differs from the key of every
    analysis, and two field-data inputs that passed validation have the
    same key only if they agree on the URL and on the form factor, where
    no form factor counts as ["PHONE"]. *)
Theorem field_data_keys_separate_requests
    (args1 args2 : value) (c1 c2 : CruxSummaryInput) (i : AnalyzePageSpeedInput) :
  PageSpeedClient.crux_cache_key c1 <> PageSpeedClient.psi_cache_key i
  /\ (Schemas.CruxSummarySchema args1 = inr c1 ->
      Schemas.CruxSummarySchema args2 = inr c2 ->
      PageSpeedClient.crux_cache_key c1 = PageSpeedClient.crux_cache_key c2 ->
      crux_url c1 = crux_url c2
      /\ (formFactor c1 = formFactor c2
          \/ default_form_factor (formFactor c1) /\ default_form_factor (formFactor c2))).
Proof.
  split.
  - rewrite crux_cache_key_shape, psi_cache_key_shape. intros Heq.
    apply (append_cancel "psi_v5_") in Heq. discriminate Heq.
  - assert (Hform : forall args c,
               Schemas.CruxSummarySchema args = inr c ->
               formFactor c = None \/ formFactor c = Some "PHONE"
               \/ formFactor c = Some "DESKTOP" \/ formFactor c = Some "TABLET").
    { intros args c. unfold Schemas.CruxSummarySchema, Schemas.member.
      destruct (negb (Schemas.is_object args)); [discriminate|].
      destruct (Schemas.both _ _) as [e|[u f]] eqn:Hb; [discriminate|].
      intros Hc. inversion Hc; subst. simpl.
      apply both_inr in Hb. destruct Hb as [_ Hf].
      destruct (opt_prop args "formFactor");
        try (inversion Hf; auto; fail);
        destruct (Schemas.one_of _ _ _) as [e|f'] eqn:Hone; try discriminate Hf;
        inversion Hf; subst;
        apply one_of_inr in Hone; destruct Hone as [_ Hin]; simpl in Hin;
        destruct Hin as [<-|[<-|[<-|[]]]]; auto. }
    intros Hacc1 Hacc2 Hkey.
    rewrite !crux_cache_key_shape in Hkey.
    apply (append_cancel "psi_v5_formFactor=") in Hkey.
    unfold default_form_factor.
    destruct c1 as [u1 f1], c2 as [u2 f2]. simpl in *.
    destruct (Hform _ _ Hacc1) as [Hf1|[Hf1|[Hf1|Hf1]]];
      destruct (Hform _ _ Hacc2) as [Hf2|[Hf2|[Hf2|Hf2]]];
      simpl in Hf1, Hf2; subst f1 f2; simpl in Hkey;
      try (apply (cut_at "|") in Hkey; [|reflexivity|reflexivity];
           destruct Hkey as [Hf Hkey]; try discriminate Hf;
           apply (append_cancel "url=") in Hkey; subst u2; split; auto).
Qed.

End KeysApart.

(* ===================================================================== *)
(** * Part XXXIV.  The recommendations engine                             *)
(* ===================================================================== *)

Lemma exact_runtime_is_monotone : @MonotoneRuntime exact_runtime.
Proof.
  constructor.
  - intros z x y _ Hle. change (inject_Z z <= Qred (x + y))%Q.
    rewrite Qred_correct. exact Hle.
  - intros z x y _ Hle. change (inject_Z z <= Qred (x * y))%Q.
    rewrite Qred_correct. exact Hle.
  - intros z x Hle. change (inject_Z z <= inject_Z (Qfloor (x + (1 # 2))))%Q.
    rewrite <- Zle_Qle.
    apply Qfloor_resp_le in Hle. rewrite Qfloor_Z in Hle.
    eapply Z.le_trans; [exact Hle|].
    apply Qfloor_resp_le. rewrite <- (Qplus_0_r x) at 1.
    apply Qplus_le_r. discriminate.
Qed.

Section Engine.
Context `{MonotoneRuntime}.

Lemma mapped_points (auditId : string) (m : Recommendations.Mapping) :
  Recommendations.get auditId Recommendations.auditMappings = Some m ->
  (80 <= 50 + Recommendations.impact_points (Recommendations.m_impact m)
         + Recommendations.effort_points (Recommendations.m_effort m) <= 100)%Z.
Proof.
  unfold Recommendations.auditMappings. cbn [Recommendations.get].
  repeat match goal with
  | |- context [String.eqb auditId ?k] =>
      destruct (String.eqb auditId k);
      [intros Hm; inversion Hm; subst; vm_compute; split; discriminate|]
  end.
  discriminate.
Qed.

Lemma score_number (audit : value) :
  unit_score audit = true ->
  exists x : Q,
    to_number (js_or (opt_prop audit "score") (num 0)) = Ok (Some x)
    /\ (0 <= x)%Q /\ (x <= 1)%Q.
Proof.
  unfold unit_score, js_or.
  destruct (opt_prop audit "score") as [| |b|q| |s|l|fs]; try discriminate.
  - intros _. exists 0%Q. repeat split; discriminate.
  - intros _. exists 0%Q. repeat split; discriminate.
  - intros Hq. apply andb_prop in Hq. destruct Hq as [Hlow Hhigh].
    apply Qle_bool_iff in Hlow. apply Qle_bool_iff in Hhigh.
    destruct (truthy (VNum q)).
    + exists q. auto.
    + exists 0%Q. repeat split; discriminate.
Qed.

Lemma math_clamp (lo : Z) (r : Q) :
  (1 <= lo <= 100)%Z -> (inject_Z lo <= r)%Q ->
  (inject_Z lo <= math_min (math_max r 1) 100)%Q /\ (math_min (math_max r 1) 100 <= 100)%Q.
Proof.
  intros Hlo Hr. unfold math_min, math_max.
  assert (H1 : (inject_Z 1 <= inject_Z lo)%Q) by (rewrite <- Zle_Qle; lia).
  assert (H100 : (inject_Z lo <= inject_Z 100)%Q) by (rewrite <- Zle_Qle; lia).
  destruct (Qle_bool r 1) eqn:Hr1.
  - apply Qle_bool_iff in Hr1.
    assert (Heq : (inject_Z lo <= 1)%Q) by (apply (Qle_trans _ r); assumption).
    change (Qle_bool 1 100) with true. cbv iota.
    split; [exact Heq | discriminate].
  - destruct (Qle_bool r 100) eqn:Hr100.
    + apply Qle_bool_iff in Hr100. auto.
    + split; [exact H100 | apply Qle_refl].
Qed.

(** The priority of a mapped audit with a score from 0 to 1. *)
Lemma calculatePriority_high (auditId : string) (audit : value) (m : Recommendations.Mapping) :
  unit_score audit = true ->
  Recommendations.get auditId Recommendations.auditMappings = Some m ->
  exists p : Q,
    Recommendations.calculatePriority audit m = Ok (VNum p)
    /\ (80 <= p)%Q /\ (p <= 100)%Q.
Proof.
  intros Hscore Hm. unfold Recommendations.calculatePriority.
  pose proof (mapped_points auditId m Hm) as Hpoints.
  set (points := (50 + Recommendations.impact_points (Recommendations.m_impact m)
                  + Recommendations.effort_points (Recommendations.m_effort m))%Z) in *.
  destruct (score_number audit Hscore) as (x & -> & Hx0 & Hx1). cbn [obind option_map].
  assert (Hsmall : forall z, (0 <= z <= 100)%Z -> (Z.abs z <= 2 ^ 53)%Z).
  { intros z Hz. rewrite Z.abs_eq by lia. change (2 ^ 53)%Z with 9007199254740992%Z. lia. }
  assert (H1 : (inject_Z 0 <= number_add 1 (- x))%Q).
  { apply add_not_below; [apply Hsmall; lia|].
    apply (Qplus_le_l _ _ x). ring_simplify. exact Hx1. }
  assert (H2 : (inject_Z 0 <= number_mul (number_add 1 (- x)) 20)%Q).
  { apply mul_not_below; [apply Hsmall; lia|].
    apply Qmult_le_0_compat; [exact H1 | discriminate]. }
  assert (H3 : (inject_Z points
                <= number_add (inject_Z points) (number_mul (number_add 1 (- x)) 20))%Q).
  { apply add_not_below; [apply Hsmall; lia|].
    rewrite <- (Qplus_0_r (inject_Z points)) at 1. apply Qplus_le_r. exact H2. }
  assert (Hfinal : forall p, (inject_Z points <= p)%Q ->
             (80 <= math_min (math_max (math_round p) 1) 100)%Q
             /\ (math_min (math_max (math_round p) 1) 100 <= 100)%Q).
  { intros p Hp. apply round_not_below in Hp.
    destruct (math_clamp points (math_round p) ltac:(lia) Hp) as [Hlo Hhi].
    split; [|exact Hhi].
    eapply Qle_trans; [|exact Hlo]. change (inject_Z 80 <= inject_Z points)%Q.
    rewrite <- Zle_Qle. lia. }
  destruct (is_string "opportunity" _); cbn [option_map]; eexists; (split; [reflexivity|]).
  - apply Hfinal. apply add_not_below; [apply Hsmall; lia|].
    eapply Qle_trans; [exact H3|].
    rewrite <- (Qplus_0_r (number_add _ _)) at 1. apply Qplus_le_r. discriminate.
  - apply Hfinal. exact H3.
Qed.

(** What the callback of the loop pushes. *)
Lemma recommend_some (auditId : string) (audit : value) (r : Recommendations.Recommendation) :
  Recommendations.recommend auditId audit = Ok (Some r) ->
  advised (auditId, audit) = true
  /\ Recommendations.id r = auditId
  /\ exists m,
       Recommendations.get auditId Recommendations.auditMappings = Some m
       /\ Recommendations.calculatePriority audit m = Ok (Recommendations.priority r).
Proof.
  unfold Recommendations.recommend, advised. cbn [fst snd].
  destruct (truthy audit); cbn [negb orb andb]; [|discriminate].
  destruct (is_one _); cbn [negb orb andb]; [discriminate|].
  destruct (is_null _); cbn [negb orb andb]; [discriminate|].
  destruct (Recommendations.get auditId Recommendations.auditMappings) as [m|]; [|discriminate].
  destruct (Recommendations.calculatePriority audit m) as [p|e] eqn:Hp; cbn [obind];
    [|discriminate].
  intros Hr. inversion Hr; subst. cbn. eauto.
Qed.

Lemma recommend_none (auditId : string) (audit : value) :
  Recommendations.recommend auditId audit = Ok None -> advised (auditId, audit) = false.
Proof.
  unfold Recommendations.recommend, advised. cbn [fst snd].
  destruct (truthy audit); cbn [negb orb andb]; [|reflexivity].
  destruct (is_one _); cbn [negb orb andb]; [reflexivity|].
  destruct (is_null _); cbn [negb orb andb]; [reflexivity|].
  destruct (Recommendations.get auditId Recommendations.auditMappings) as [m|]; [|reflexivity].
  destruct (Recommendations.calculatePriority audit m); cbn [obind]; discriminate.
Qed.

(** The loop pushes one recommendation for each advised audit, in the
    order of the audits. *)
Lemma collect_advised (audits : list (string * value)) :
  forall rs,
    Recommendations.collect audits = Ok rs ->
    map Recommendations.id rs = map fst (List.filter advised audits).
Proof.
  induction audits as [|[auditId audit] audits IH]; intros rs; simpl.
  - intros Hr. inversion Hr. reflexivity.
  - destruct (Recommendations.recommend auditId audit) as [[r|]|e] eqn:Hone; simpl;
      try discriminate;
      destruct (Recommendations.collect audits) as [others|e] eqn:Hrest; simpl;
      try discriminate; intros Hr; inversion Hr; subst.
    + destruct (recommend_some _ _ _ Hone) as (-> & Hid & _). simpl.
      rewrite Hid, (IH others eq_refl). reflexivity.
    + rewrite (recommend_none _ _ Hone). apply IH. reflexivity.
Qed.

Lemma collect_high (audits : list (string * value)) :
  forall rs,
    forallb (fun kv => unit_score (snd kv)) audits = true ->
    Recommendations.collect audits = Ok rs ->
    Forall (priority_within 80 100) rs.
Proof.
  induction audits as [|[auditId audit] audits IH]; intros rs; simpl.
  - intros _ Hr. inversion Hr. constructor.
  - intros Hall. apply andb_prop in Hall. destruct Hall as [Hscore Hall].
    destruct (Recommendations.recommend auditId audit) as [[r|]|e] eqn:Hone; simpl;
      try discriminate;
      destruct (Recommendations.collect audits) as [others|e] eqn:Hrest; simpl;
      try discriminate; intros Hr; inversion Hr; subst.
    + constructor; [|apply IH; auto].
      destruct (recommend_some _ _ _ Hone) as (_ & _ & m & Hm & Hp).
      destruct (calculatePriority_high auditId audit m Hscore Hm) as (p & Hp' & Hlo & Hhi).
      exists p. rewrite Hp in Hp'. inversion Hp'. auto.
    + apply IH; auto.
Qed.

Lemma insert_permutation
    (r : Recommendations.Recommendation) (l : list Recommendations.Recommendation) :
  Permutation (Recommendations.insert r l) (r :: l).
Proof.
  induction l as [|x l IH]; simpl; [reflexivity|].
  destruct (Recommendations.goes_behind r x); [|reflexivity].
  rewrite IH. apply perm_swap.
Qed.

Lemma sort_permutation (l : list Recommendations.Recommendation) :
  Permutation (Recommendations.sort l) l.
Proof.
  unfold Recommendations.sort. induction l as [|x l IH]; simpl; [reflexivity|].
  rewrite insert_permutation, IH. reflexivity.
Qed.

(** Among recommendations whose priorities are numbers, the sort puts
    the higher priority first. *)
Lemma insert_sorted_by_priority
    (r : Recommendations.Recommendation) (l : list Recommendations.Recommendation) :
  rated r ->
  Forall rated l ->
  StronglySorted ranks_no_lower l ->
  StronglySorted ranks_no_lower (Recommendations.insert r l).
Proof.
  intros (p & Hp) Hnum Hsorted.
  induction Hsorted as [|x l Hl IH Hx]; simpl.
  - repeat constructor.
  - inversion Hnum as [|? ? (q & Hq) Hnum']; subst.
    unfold Recommendations.goes_behind. rewrite Hp, Hq. unfold Qltb.
    destruct (Qcompare p q) eqn:Hc.
    + constructor; [constructor; assumption|].
      apply Qeq_alt in Hc.
      constructor.
      * unfold ranks_no_lower. rewrite Hp, Hq. rewrite Hc. apply Qle_refl.
      * eapply List.Forall_impl; [|exact Hx]. intros y Hy.
        unfold ranks_no_lower in *. rewrite Hp. rewrite Hq in Hy.
        destruct (Recommendations.priority y); try contradiction.
        rewrite Hc. exact Hy.
    + constructor; [apply IH; assumption|].
      apply Qlt_alt in Hc.
      eapply Permutation_Forall; [symmetry; apply insert_permutation|].
      constructor; [|exact Hx].
      unfold ranks_no_lower. rewrite Hp, Hq. apply Qlt_le_weak. exact Hc.
    + constructor; [constructor; assumption|].
      apply Qgt_alt in Hc.
      constructor.
      * unfold ranks_no_lower. rewrite Hp, Hq. apply Qlt_le_weak. exact Hc.
      * eapply List.Forall_impl; [|exact Hx]. intros y Hy.
        unfold ranks_no_lower in *. rewrite Hp. rewrite Hq in Hy.
        destruct (Recommendations.priority y); try contradiction.
        eapply Qle_trans; [exact Hy|]. apply Qlt_le_weak. exact Hc.
Qed.

Lemma sort_sorted_by_priority (l : list Recommendations.Recommendation) :
  Forall rated l ->
  StronglySorted ranks_no_lower (Recommendations.sort l).
Proof.
  unfold Recommendations.sort. induction 1 as [|x l Hx Hl IH]; simpl; [constructor|].
  apply insert_sorted_by_priority; [exact Hx | | exact IH].
  eapply Permutation_Forall; [symmetry; apply sort_permutation | exact Hl].
Qed.

(** A priority is a number or [NaN]. *)
Lemma collect_rated (audits : list (string * value)) :
  forall rs,
    Recommendations.collect audits = Ok rs ->
    Forall (fun r => Recommendations.priority r <> VNaN -> rated r) rs.
Proof.
  induction audits as [|[auditId audit] audits IH]; intros rs; simpl.
  - intros Hr. inversion Hr. constructor.
  - destruct (Recommendations.recommend auditId audit) as [[r|]|e] eqn:Hone; simpl;
      try discriminate;
      destruct (Recommendations.collect audits) as [others|e] eqn:Hrest; simpl;
      try discriminate; intros Hr; inversion Hr; subst; [|apply IH; reflexivity].
    constructor; [|apply IH; reflexivity].
    destruct (recommend_some _ _ _ Hone) as (_ & _ & m & _ & Hp).
    unfold Recommendations.calculatePriority in Hp.
    apply obind_ok in Hp. destruct Hp as (s & _ & Hp). inversion Hp as [Hpriority].
    unfold rated. rewrite <- Hpriority.
    match goal with
    | |- match ?x with Some _ => _ | None => _ end <> _ -> _ => destruct x
    end; [eauto | intros Hnan; contradiction Hnan; reflexivity].
Qed.

(** The parts of a report. *)
Lemma generateRecommendations_ok (d : value) (report : Recommendations.RecommendationReport) :
  Recommendations.generateRecommendations d = Ok report ->
  exists collected,
    Recommendations.collect (object_entries (audits_table d)) = Ok collected
    /\ Recommendations.recommendations report = Recommendations.sort collected
    /\ Recommendations.quickWins report
       = List.filter Recommendations.is_quick_win (Recommendations.recommendations report)
    /\ Recommendations.totalRecommendations (Recommendations.summary report)
       = List.length (Recommendations.recommendations report)
    /\ Recommendations.highPriority (Recommendations.summary report)
       = Recommendations.count (fun r => at_least 80 (Recommendations.priority r))
           (Recommendations.recommendations report)
    /\ Recommendations.mediumPriority (Recommendations.summary report)
       = Recommendations.count
           (fun r => at_least 50 (Recommendations.priority r)
                     && below 80 (Recommendations.priority r))
           (Recommendations.recommendations report)
    /\ Recommendations.lowPriority (Recommendations.summary report)
       = Recommendations.count (fun r => below 50 (Recommendations.priority r))
           (Recommendations.recommendations report).
Proof.
  unfold Recommendations.generateRecommendations, audits_table. intros Hg.
  apply obind_ok in Hg. destruct Hg as (lighthouse & Hl & Hg).
  rewrite (opt_prop_of_prop _ _ _ Hl).
  destruct (negb (truthy lighthouse)); [discriminate|].
  apply obind_ok in Hg. destruct Hg as (collected & Hc & Hg).
  apply obind_ok in Hg. destruct Hg as (s & Hs & Hg).
  apply obind_ok in Hg. destruct Hg as (overall & _ & Hg).
  inversion Hg; subst; clear Hg. simpl.
  exists collected. split; [exact Hc|]. split; [reflexivity|]. split; [reflexivity|].
  unfold Recommendations.generateSummary in Hs.
  apply obind_ok in Hs. destruct Hs as (poor & _ & Hs).
  apply obind_ok in Hs. destruct Hs as (estimated & _ & Hs).
  inversion Hs; subst; clear Hs. simpl. repeat split; reflexivity.
Qed.

Lemma count_all (p : Recommendations.Recommendation -> bool)
    (l : list Recommendations.Recommendation) :
  Forall (fun r => p r = true) l -> Recommendations.count p l = List.length l.
Proof.
  unfold Recommendations.count. induction 1 as [|x l Hx _ IH]; simpl; [reflexivity|].
  rewrite Hx. simpl. rewrite IH. reflexivity.
Qed.

Lemma count_none (p : Recommendations.Recommendation -> bool)
    (l : list Recommendations.Recommendation) :
  Forall (fun r => p r = false) l -> Recommendations.count p l = 0%nat.
Proof.
  unfold Recommendations.count. induction 1 as [|x l Hx _ IH]; simpl; [reflexivity|].
  rewrite Hx. exact IH.
Qed.

(** X16.  Every recommendation is of high priority.  For a response
    whose audit scores are numbers from 0 to 1, [null] or absent, every
    entry of the table gives at least 80 points before the score is
    looked at (50, and at least 30 for impact and effort together), so
    every priority is a number from 80 to 100: the summary counts all
    the recommendations as high priority and none as medium or low. *)
Theorem every_recommendation_is_high_priority
    (d : value) (report : Recommendations.RecommendationReport) :
  Recommendations.generateRecommendations d = Ok report ->
  scores_in_range d = true ->
  Forall (priority_within 80 100) (Recommendations.recommendations report)
  /\ Recommendations.highPriority (Recommendations.summary report)
     = List.length (Recommendations.recommendations report)
  /\ Recommendations.mediumPriority (Recommendations.summary report) = 0%nat
  /\ Recommendations.lowPriority (Recommendations.summary report) = 0%nat.
Proof.
  intros Hg Hscores.
  destruct (generateRecommendations_ok d report Hg)
    as (collected & Hc & Hsorted & _ & _ & -> & -> & ->).
  assert (Hall : Forall (priority_within 80 100) (Recommendations.recommendations report)).
  { rewrite Hsorted.
    eapply Permutation_Forall; [symmetry; apply sort_permutation|].
    apply (collect_high _ _ Hscores Hc). }
  split; [exact Hall|].
  split; [apply count_all | split; apply count_none];
    (eapply List.Forall_impl; [|exact Hall]); intros r (p & -> & Hlo & Hhi); simpl.
  - apply Qle_bool_iff. exact Hlo.
  - apply andb_false_iff. right. unfold Qltb.
    destruct (Qcompare p 80) eqn:Hcmp; try reflexivity.
    apply Qlt_alt in Hcmp. exfalso. apply (Qlt_not_le _ _ Hcmp). exact Hlo.
  - unfold Qltb. destruct (Qcompare p 50) eqn:Hcmp; try reflexivity.
    apply Qlt_alt in Hcmp. exfalso. apply (Qlt_not_le _ _ Hcmp).
    eapply Qle_trans; [|exact Hlo]. discriminate.
Qed.

End Engine.

Section Selection.
Context `{Runtime}.

(** X17.  The report lists one recommendation for each audit that is
    present, has a score other than 1 and [null], and has an entry in
    the table, and for no other audit; the quick wins are the
    recommendations of low effort and high or medium impact, in the
    order of the report; and when no priority is [NaN] the
    recommendations are listed from the highest priority to the lowest. *)
Theorem recommendations_are_the_advised_audits
    (d : value) (report : Recommendations.RecommendationReport) :
  Recommendations.generateRecommendations d = Ok report ->
  Permutation (map Recommendations.id (Recommendations.recommendations report))
    (map fst (List.filter advised (object_entries (audits_table d))))
  /\ Recommendations.quickWins report
     = List.filter Recommendations.is_quick_win (Recommendations.recommendations report)
  /\ Recommendations.totalRecommendations (Recommendations.summary report)
     = List.length (Recommendations.recommendations report)
  /\ (Forall (fun r => Recommendations.priority r <> VNaN)
        (Recommendations.recommendations report) ->
      StronglySorted ranks_no_lower (Recommendations.recommendations report)).
Proof.
  intros Hg.
  destruct (generateRecommendations_ok d report Hg)
    as (collected & Hc & Hsorted & Hquick & Htotal & _).
  split; [|split; [exact Hquick | split; [exact Htotal|]]].
  - rewrite Hsorted, <- (collect_advised _ _ Hc).
    apply Permutation_map. apply sort_permutation.
  - intros Hnum. rewrite Hsorted. apply sort_sorted_by_priority.
    rewrite Hsorted in Hnum.
    assert (Hnum' : Forall (fun r => Recommendations.priority r <> VNaN) collected)
      by (eapply Permutation_Forall; [apply sort_permutation | exact Hnum]).
    pose proof (collect_rated _ _ Hc) as Hrated.
    clear - Hnum' Hrated.
    induction Hrated as [|r rs Hr _ IH]; [constructor|].
    inversion Hnum'; subst. constructor; auto.
Qed.

End Selection.

(* ===================================================================== *)
(** * Part XXXV.  The comparison of two pages                             *)
(* ===================================================================== *)

Lemma string_ltb_asym (x y : string) : String.ltb x y = true -> String.ltb y x = false.
Proof.
  unfold String.ltb. rewrite (String.compare_antisym y x).
  destruct (String.compare x y); simpl; congruence.
Qed.

Lemma Qltb_asym (x y : Q) : Qltb x y = true -> Qltb y x = false.
Proof.
  unfold Qltb. destruct (Qcompare x y) eqn:Hxy; try discriminate. intros _.
  apply Qlt_alt in Hxy.
  destruct (Qcompare y x) eqn:Hyx; try reflexivity.
  apply Qlt_alt in Hyx. exfalso. apply (Qlt_irrefl x). eapply Qlt_trans; eauto.
Qed.

Lemma lookup_exchanged (k : string) (fs : list (string * value)) :
  opt_prop (lookup_field k (map exchanged_entry fs)) "better"
  = exchanged (opt_prop (lookup_field k fs) "better").
Proof.
  induction fs as [|[k' v] fs IH]; simpl; [reflexivity|].
  destruct (String.eqb k k'); [reflexivity | exact IH].
Qed.

Section ComparisonProofs.
Context `{Runtime}.

Lemma prim_lt_asym (pa pb : value) : prim_lt pa pb = true -> prim_lt pb pa = false.
Proof.
  unfold prim_lt.
  destruct pa, pb; simpl; try discriminate; try reflexivity;
    try (apply string_ltb_asym);
    repeat match goal with
    | |- context [string_to_number ?s] => destruct (string_to_number s)
    | |- context [if ?b then _ else _] => destruct b
    end; try discriminate; try reflexivity; try apply Qltb_asym.
Qed.

(** The verdict with the two scores exchanged. *)
Lemma better_exchanged (a b : value) (v : string) :
  better a b = Ok v ->
  better b a = Ok (if String.eqb v "A" then "B" else if String.eqb v "B" then "A" else v)
  /\ (v = "A" \/ v = "B" \/ v = "tie").
Proof.
  unfold better, js_gt, js_lt.
  rewrite (andb_comm (negb (is_null b))).
  destruct (negb (is_null a) && negb (is_null b)).
  - destruct (to_primitive a) as [pa|e]; simpl; [|discriminate].
    destruct (to_primitive b) as [pb|e]; simpl; [|discriminate].
    destruct (prim_lt pb pa) eqn:Hgt.
    + intros Hv. inversion Hv; subst. simpl.
      rewrite (prim_lt_asym _ _ Hgt). auto.
    + destruct (prim_lt pa pb) eqn:Hlt; intros Hv; inversion Hv; subst; simpl; auto.
  - simpl. intros Hv. inversion Hv; subst. simpl. auto.
Qed.

Lemma compare_metric_exchanged (auditsA auditsB : value) (metric : string)
    (fs : list (string * value)) :
  compare_metric auditsA auditsB metric = Ok fs ->
  compare_metric auditsB auditsA metric = Ok (map exchanged_entry fs).
Proof.
  unfold compare_metric. rewrite (andb_comm (truthy (opt_prop auditsB metric))).
  destruct (truthy (opt_prop auditsA metric) && truthy (opt_prop auditsB metric));
    [|intros Hf; inversion Hf; reflexivity].
  destruct (better (opt_prop (opt_prop auditsA metric) "score")
              (opt_prop (opt_prop auditsB metric) "score")) as [v|e] eqn:Hv; simpl;
    [|discriminate].
  destruct (better_exchanged _ _ _ Hv) as [-> Hcases].
  intros Hf. inversion Hf; subst. simpl.
  destruct Hcases as [-> | [-> | ->]]; reflexivity.
Qed.

Lemma compare_metrics_exchanged (auditsA auditsB : value) (metrics : list string) :
  forall fs,
    compare_metrics auditsA auditsB metrics = Ok fs ->
    compare_metrics auditsB auditsA metrics = Ok (map exchanged_entry fs).
Proof.
  induction metrics as [|metric metrics IH]; intros fs; simpl.
  - intros Hf. inversion Hf. reflexivity.
  - destruct (compare_metric auditsA auditsB metric) as [first|e] eqn:Hfirst; simpl;
      [|discriminate].
    destruct (compare_metrics auditsA auditsB metrics) as [others|e] eqn:Hothers; simpl;
      [|discriminate].
    intros Hf. inversion Hf; subst.
    rewrite (compare_metric_exchanged _ _ _ _ Hfirst), (IH others eq_refl). simpl.
    rewrite map_app. reflexivity.
Qed.

(** X18.  Exchanging the two pages exchanges the verdicts: the
    comparison of B with A exists whenever the comparison of A with B
    does, a metric on which A was better is one on which B is better and
    the other way round, a tie stays a tie, and the two scores change
    places. *)
Theorem comparison_exchanges_with_the_pages
    (resultA resultB : value) (urlA urlB strategy : string) (comparison : value) :
  createComparison resultA resultB urlA urlB strategy = Ok comparison ->
  exists comparison',
    createComparison resultB resultA urlB urlA strategy = Ok comparison'
    /\ (forall metric,
          verdict_of comparison' metric = exchanged (verdict_of comparison metric))
    /\ score_of comparison' "urlA" = score_of comparison "urlB"
    /\ score_of comparison' "urlB" = score_of comparison "urlA".
Proof.
  unfold createComparison. intros Hc.
  apply obind_ok in Hc. destruct Hc as (lighthouseA & HA & Hc).
  apply obind_ok in Hc. destruct Hc as (lighthouseB & HB & Hc).
  apply obind_ok in Hc. destruct Hc as (metrics & Hm & Hc).
  apply obind_ok in Hc. destruct Hc as (roundedA & HrA & Hc).
  apply obind_ok in Hc. destruct Hc as (roundedB & HrB & Hc).
  apply obind_ok in Hc. destruct Hc as (difference & Hd & Hc).
  inversion Hc; subst; clear Hc.
  rewrite HB, HA. cbn [obind].
  rewrite (compare_metrics_exchanged _ _ _ _ Hm). cbn [obind].
  rewrite HrB, HrA. cbn [obind].
  assert (Hd' : exists difference',
             rounded_difference
               (js_or (opt_prop (opt_prop (opt_prop lighthouseB "categories") "performance")
                         "score") (num 0))
               (js_or (opt_prop (opt_prop (opt_prop lighthouseA "categories") "performance")
                         "score") (num 0)) = Ok difference').
  { unfold rounded_difference in *.
    destruct (to_number (js_or (opt_prop (opt_prop (opt_prop lighthouseA "categories")
                                            "performance") "score") (num 0)));
      [|discriminate Hd].
    destruct (to_number (js_or (opt_prop (opt_prop (opt_prop lighthouseB "categories")
                                            "performance") "score") (num 0)));
      [|discriminate Hd].
    simpl. eauto. }
  destruct Hd' as (difference' & ->). cbn [obind].
  eexists. split; [reflexivity|].
  split; [|split; reflexivity].
  intros metric. unfold verdict_of. simpl. apply lookup_exchanged.
Qed.

End ComparisonProofs.

(* ===================================================================== *)
(** * Part XXXVI.  The opportunities of the performance summary           *)
(* ===================================================================== *)

Section Opportunities.
Context `{Runtime}.

Lemma audit_of_ref_typed (audits ref : value) :
  ref_with_id ref = true ->
  Server.audit_of_ref audits ref
  = Ok (match opt_prop ref "id" with VStr id => opt_prop audits id | _ => VUndefined end).
Proof.
  unfold ref_with_id, Server.audit_of_ref.
  destruct ref as [| |b|q| |s|l|fs]; try discriminate.
  change (opt_prop (VObj fs) "id") with (lookup_field "id" fs).
  change (prop (VObj fs) "id") with (Ok (lookup_field "id" fs)).
  destruct (lookup_field "id" fs) as [| |b|q| |id|l|fs']; try discriminate.
  intros _. destruct (nullish audits) eqn:Hn.
  - destruct audits; try discriminate Hn; reflexivity.
  - cbn [obind]. unfold elem. cbn [to_string obind]. apply prop_present. exact Hn.
Qed.

Lemma opportunities_typed (d lighthouse : value) (refs : list value) :
  opt_prop d "lighthouseResult" = lighthouse ->
  forallb ref_with_id refs = true ->
  let audits := opt_prop lighthouse "audits" in
  (let! kept := js_filter (VArr refs) (Server.is_opportunity audits) in
   let! mapped := js_map kept (Server.opportunity audits) in
   let! top := js_slice0 mapped 5 in
   Ok (js_or top (VArr [])))
  = Ok (VArr (map (opportunity_entry d)
                (firstn 5
                   (List.filter (fun ref => is_opportunity_audit (summary_audit d ref)) refs)))).
Proof.
  intros Hl Htyped audits.
  apply forallb_Forall in Htyped.
  assert (Haudit : forall ref, ref_with_id ref = true ->
             Server.audit_of_ref audits ref = Ok (summary_audit d ref)).
  { intros ref Href. rewrite (audit_of_ref_typed audits ref Href).
    unfold summary_audit. rewrite Hl. reflexivity. }
  unfold js_filter, js_map. cbn [as_array obind].
  rewrite (filterO_pure _ (fun ref => is_opportunity_audit (summary_audit d ref))).
  2:{ eapply List.Forall_impl; [|exact Htyped]. intros ref Href. simpl in Href.
      unfold Server.is_opportunity. rewrite (Haudit ref Href). reflexivity. }
  cbn [as_array obind].
  rewrite (mapO_pure _ (opportunity_entry d)).
  2:{ apply Forall_filter.
      eapply List.Forall_impl; [|exact Htyped]. intros ref Href. simpl in Href.
      unfold Server.opportunity, object. cbn [build].
      rewrite (Haudit ref Href). cbn [obind].
      assert (Hid : prop ref "id" = Ok (opt_prop ref "id")).
      { apply prop_present. destruct ref; try discriminate Href; reflexivity. }
      rewrite Hid. reflexivity. }
  cbn [obind js_slice0 js_or truthy]. rewrite firstn_map. reflexivity.
Qed.

(** X19.  The opportunities of a performance summary are the first five
    references of the performance category, in upstream order, whose
    audit has details of type ["opportunity"], each listed with the
    title, description, score and display value of its audit; there are
    none when the category has no [auditRefs]. *)
Theorem opportunities_are_the_first_five
    (d : value) (url strategy : string) (summary : value) :
  Server.createPerformanceSummary d url strategy = Ok summary ->
  (nullish (summary_refs d) = true -> opt_prop summary "opportunities" = VArr [])
  /\ (forall refs,
        summary_refs d = VArr refs ->
        forallb ref_with_id refs = true ->
        opt_prop summary "opportunities"
        = VArr (map (opportunity_entry d)
                  (firstn 5
                     (List.filter (fun ref => is_opportunity_audit (summary_audit d ref))
                        refs)))).
Proof.
  unfold Server.createPerformanceSummary, summary_refs. intros Hs.
  apply obind_ok in Hs. destruct Hs as (lighthouse & Hl & Hs).
  pose proof (opt_prop_of_prop _ _ _ Hl) as Hl'. rewrite Hl'.
  unfold object in Hs. cbn [build] in Hs. inv_all.
  match goal with
  | Hopp : (if nullish _ then _ else _) = Ok ?listed |- _ =>
      split; [intros Hn | intros refs Hrefs Htyped];
      match goal with
      | |- opt_prop (VObj ?fs) _ = _ =>
          change (opt_prop (VObj fs) "opportunities") with listed
      end;
      [ rewrite Hn in Hopp; inversion Hopp; reflexivity
      | rewrite Hrefs in Hopp; cbn [nullish] in Hopp;
        rewrite (opportunities_typed d _ refs eq_refl Htyped) in Hopp;
        inversion Hopp; reflexivity ]
  end.
Qed.

End Opportunities.

(* ===================================================================== *)
(** * Part XXXVII.  Scores of the other categories, the form factor of a record *)
(* ===================================================================== *)

Section CategoryScores.
Context `{Runtime}.

(** X20.  The parser passes the score of accessibility, SEO, best
    practices and PWA on as it is, on the scale from 0 to 1 of the
    upstream (it is not scaled to 0-100 as in the performance summary),
    except that a score that is falsy, the number 0 included, is
    reported as [null]. *)
Theorem category_score_is_passed_on_unless_zero
    (response view : value) (name key : string) :
  In (name, key) other_categories ->
  ResponseParser.extractOtherCategories response = Ok view ->
  view_score view key
  = (if truthy (category_score_of response name) then category_score_of response name
     else VNull)
  /\ (is_zero (category_score_of response name) = true -> view_score view key = VNull).
Proof.
  intros Hin Hview.
  assert (Hscore : view_score view key
                   = js_or (category_score_of response name) VNull).
  { unfold ResponseParser.extractOtherCategories in Hview.
    apply obind_ok in Hview. destruct Hview as (categories & Hc & Hview).
    apply obind_ok in Hview. destruct Hview as (audits & _ & Hview).
    apply categories_of_table in Hc.
    subst categories.
    unfold ResponseParser.category_score in Hview. inv_all.
    repeat match goal with
    | Hp : prop _ _ = Ok _ |- _ => apply opt_prop_of_prop in Hp; subst
    end.
    unfold category_score_of, view_score. simpl in Hin.
    destruct Hin as [Hin|[Hin|[Hin|[Hin|[]]]]]; inversion Hin; subst; reflexivity. }
  split; [exact Hscore|].
  intros Hzero. rewrite Hscore. unfold js_or.
  destruct (category_score_of response name); try discriminate Hzero.
  simpl in Hzero. simpl. rewrite Hzero. reflexivity.
Qed.

Lemma prefix_append (a b : string) : String.prefix a (a ++ b) = true.
Proof.
  induction a as [|c a IH]; simpl; [destruct b; reflexivity|].
  destruct (Ascii.ascii_dec c c) as [_|Hne]; [exact IH | contradiction Hne; reflexivity].
Qed.

(** X21.  A record whose key carries no form factor is summarised under
    the form factor ["undefined"]: the summary prints [record.key.formFactor]
    as it is.  (The client leaves the form factor out of its request when
    the tool call names none.) *)
Theorem missing_form_factor_is_printed_as_undefined
    (cruxData : value) (url text : string) :
  truthy (opt_prop cruxData "record") = true ->
  opt_prop (opt_prop (opt_prop cruxData "record") "key") "formFactor" = VUndefined ->
  Server.formatCruxSummary cruxData url = Ok text ->
  String.prefix
    ("# CrUX Field Data Summary" ++ nl ++ nl ++ "**URL:** " ++ url ++ nl
       ++ "**Form Factor:** undefined" ++ nl ++ nl
       ++ "## Core Web Vitals (Real User Data)" ++ nl)
    text = true.
Proof.
  intros Htruthy Hform. unfold Server.formatCruxSummary. intros Ht.
  apply obind_ok in Ht. destruct Ht as (record & Hr & Ht).
  apply opt_prop_of_prop in Hr. subst record.
  rewrite Htruthy in Ht. cbn [negb] in Ht.
  apply obind_ok in Ht. destruct Ht as (key & Hk & Ht).
  apply opt_prop_of_prop in Hk. subst key.
  apply obind_ok in Ht. destruct Ht as (formFactor & Hf & Ht).
  apply opt_prop_of_prop in Hf. rewrite Hform in Hf. subst formFactor.
  cbn [to_string obind] in Ht.
  inv_all. apply prefix_append.
Qed.

End CategoryScores.

(* ===================================================================== *)
(** * Part XXXVIII.  The further properties at concrete inputs            *)
(* ===================================================================== *)

Lemma simple_cache_entry_lifetime_witness :
  (let w1 := advance 300000 (snd (SimpleCache.set "k" mockResponse SimpleCache.defaultTTL
                                    (boot 0 healthy))) in
   SimpleCache.get "k" w1 = (Ok mockResponse, w1) /\ SimpleCache.has "k" w1 = (Ok true, w1))
  /\
  (let w1 := advance 300001 (snd (SimpleCache.set "k" mockResponse SimpleCache.defaultTTL
                                    (boot 0 healthy))) in
   SimpleCache.get "k" w1 = (Ok VNull, set_simple_cache (delete "k" (simple_cache w1)) w1)
   /\ SimpleCache.has "k" w1 = (Ok false, set_simple_cache (delete "k" (simple_cache w1)) w1)
   /\ delete "k" (simple_cache w1) = delete "k" (simple_cache (boot 0 healthy))).
Proof.
  split.
  - apply (proj1 (simple_cache_entry_lifetime "k" mockResponse SimpleCache.defaultTTL 300000
                    (boot 0 healthy))).
    vm_compute. discriminate.
  - apply (proj2 (simple_cache_entry_lifetime "k" mockResponse SimpleCache.defaultTTL 300001
                    (boot 0 healthy))).
    reflexivity.
Defined.

Lemma createPSICacheKey_ignores_category_order_witness :
  SimpleCache.createPSICacheKey "https://example.com" "mobile" [ "seo"; "performance" ] "en"
  = SimpleCache.createPSICacheKey "https://example.com" "mobile" [ "performance"; "seo" ] "en".
Proof.
  apply (createPSICacheKey_ignores_category_order "https://example.com" "mobile" "en"
           [ "seo"; "performance" ] [ "performance"; "seo" ]).
  apply perm_swap.
Defined.

Lemma createCacheKey_ignores_property_order_witness :
  PageSpeedClient.createCacheKey [ ("url", "https://example.com"); ("formFactor", "PHONE") ]
  = PageSpeedClient.createCacheKey [ ("formFactor", "PHONE"); ("url", "https://example.com") ].
Proof.
  apply createCacheKey_ignores_property_order.
  - simpl. repeat constructor; simpl; intuition discriminate.
  - apply perm_swap.
Defined.

Lemma failed_call_stores_nothing_witness :
  let r := @run_call exact_runtime plain_libraries default_env
             (AnalyzePageSpeed example_input) (boot 0 refusing) in
  fst r = Throw (mkError "ClientError" "PSI API error: 400 Bad Request - invalid url")
  /\ client_cache (snd r) ⊆ client_cache (boot 0 refusing)
  /\ (fetched (boot 0 refusing) < fetched (snd r))%nat
  /\ exists t, trace (snd r) = (t ++ [Release])%list.
Proof.
  intros r. split; [reflexivity|].
  apply (@failed_call_stores_nothing exact_runtime plain_libraries default_env
           (AnalyzePageSpeed example_input) (boot 0 refusing)
           (mkError "ClientError" "PSI API error: 400 Bad Request - invalid url") (snd r)).
  reflexivity.
Defined.

Lemma expired_entry_is_fetched_again_witness :
  exists w',
    @run_call exact_runtime plain_libraries default_env (AnalyzePageSpeed example_input)
      stale_world = (Ok mockResponse, w')
    /\ fetched w' = 1%nat
    /\ client_cache w' !! call_key (AnalyzePageSpeed example_input)
       = Some {| data := mockResponse; timestamp := 3600001 + 800 |}
    /\ trace w'
       = [ Acquire; Fetch (call_request default_env (AnalyzePageSpeed example_input));
           Release ].
Proof.
  apply (@expired_entry_is_fetched_again exact_runtime plain_libraries default_env
           (AnalyzePageSpeed example_input) stale_world
           {| data := VObj [ ("kind", VStr "old") ]; timestamp := 0 |}
           {| status := 200; statusText := "OK"; text := "{...}"; json := inr mockResponse |}
           mockResponse).
  - apply lookup_insert_eq.
  - reflexivity.
  - reflexivity.
  - reflexivity.
  - reflexivity.
Defined.

Lemma transient_failures_are_retried_until_success_witness :
  exists w',
    @PageSpeedClient.analyzePageSpeed exact_runtime plain_libraries default_env example_input
      (boot 0 recovering) = (Ok mockResponse, w')
    /\ fetched w' = 3%nat
    /\ trace w'
       = [ Acquire;
           Fetch (PageSpeedClient.psi_request default_env example_input); Sleep 1000;
           Fetch (PageSpeedClient.psi_request default_env example_input); Sleep 2000;
           Fetch (PageSpeedClient.psi_request default_env example_input);
           Release ]
    /\ client_cache w' !! PageSpeedClient.psi_cache_key example_input
       = Some {| data := mockResponse; timestamp := now w' |}.
Proof.
  apply (@transient_failures_are_retried_until_success exact_runtime plain_libraries
           default_env example_input 2 (boot 0 recovering)
           {| status := 200; statusText := "OK"; text := "{...}"; json := inr mockResponse |}
           mockResponse).
  - reflexivity.
  - vm_compute. lia.
  - intros i Hi. destruct i as [|[|i]]; [reflexivity | reflexivity | lia].
  - reflexivity.
  - reflexivity.
  - reflexivity.
Defined.

Lemma field_data_failure_is_not_retried_witness :
  let input := {| crux_url := "https://example.com"; formFactor := None |} in
  let w := boot 0 not_found in
  let w' := log Release (after_fetch (PageSpeedClient.crux_request default_env input)
                           (log Acquire w)) in
  @PageSpeedClient.getCruxData exact_runtime default_env input w
  = (Throw (@PageSpeedClient.crux_error exact_runtime
              {| status := 404; statusText := "Not Found";
                 text := "chrome ux report data not found";
                 json := inr (VObj [ ("error", VObj [ ("code", num 404) ]) ]) |}), w')
  /\ @Server.handleCruxSummary exact_runtime plain_libraries default_env
       (VObj [ ("url", VStr "https://example.com") ]) w
     = (Ok {| content :=
                [ Plain ("Error getting CrUX data: CrUX API error: 404 Not Found - "
                           ++ "chrome ux report data not found") ];
              isError := true |}, w')
  /\ fetched w' = 1%nat
  /\ client_cache w' = client_cache w.
Proof.
  intros input w w'.
  apply (@field_data_failure_is_not_retried exact_runtime plain_libraries default_env
           (VObj [ ("url", VStr "https://example.com") ]) input w
           {| status := 404; statusText := "Not Found";
              text := "chrome ux report data not found";
              json := inr (VObj [ ("error", VObj [ ("code", num 404) ]) ]) |}).
  - reflexivity.
  - reflexivity.
  - reflexivity.
  - reflexivity.
Defined.

Lemma AnalyzePageSpeedSchema_accepts_witness :
  @Schemas.AnalyzePageSpeedSchema plain_libraries
     (VObj [ ("url", VStr "https://example.com"); ("strategy", VStr "desktop") ])
  = inr {| url := "https://example.com"; strategy := "desktop";
           category := Some [ "performance" ]; locale := "en" |}.
Proof.
  apply (proj2 (@AnalyzePageSpeedSchema_accepts plain_libraries
                  (VObj [ ("url", VStr "https://example.com"); ("strategy", VStr "desktop") ])
                  {| url := "https://example.com"; strategy := "desktop";
                     category := Some [ "performance" ]; locale := "en" |})).
  unfold analysis_arguments, defaulted. simpl.
  split; [reflexivity|]. split; [reflexivity|]. split; [reflexivity|].
  split; [right; split; [reflexivity | auto]|].
  split; [exists [ "performance" ]; split; [reflexivity | left; split; reflexivity]|].
  left. split; reflexivity.
Defined.

Lemma analysis_keys_separate_requests_witness :
  let with_empty_list :=
    {| url := "https://example.com"; strategy := "mobile"; category := Some [];
       locale := "en" |} in
  url with_empty_list = url example_input
  /\ strategy with_empty_list = strategy example_input
  /\ locale with_empty_list = locale example_input
  /\ (category with_empty_list = category example_input
      \/ default_category_list (category with_empty_list)
         /\ default_category_list (category example_input)).
Proof.
  intros with_empty_list.
  apply (@analysis_keys_separate_requests plain_libraries
           (VObj [ ("url", VStr "https://example.com"); ("category", VArr []) ])
           (VObj [ ("url", VStr "https://example.com") ])
           with_empty_list example_input).
  - reflexivity.
  - reflexivity.
  - reflexivity.
Defined.

Lemma field_data_keys_separate_requests_witness :
  let phone := {| crux_url := "https://example.com"; formFactor := Some "PHONE" |} in
  let unspecified := {| crux_url := "https://example.com"; formFactor := None |} in
  PageSpeedClient.crux_cache_key phone <> PageSpeedClient.psi_cache_key example_input
  /\ crux_url phone = crux_url unspecified
  /\ (formFactor phone = formFactor unspecified
      \/ default_form_factor (formFactor phone) /\ default_form_factor (formFactor unspecified)).
Proof.
  intros phone unspecified.
  destruct (@field_data_keys_separate_requests plain_libraries
              (VObj [ ("url", VStr "https://example.com"); ("formFactor", VStr "PHONE") ])
              (VObj [ ("url", VStr "https://example.com") ])
              phone unspecified example_input) as [Hdiffer Hsame].
  split; [exact Hdiffer|].
  apply Hsame; reflexivity.
Defined.

Lemma tool_failures_become_error_replies_witness :
  exists (reply : ToolResponse) (w' : World),
    @Server.callTool exact_runtime plain_libraries default_env canned_report
       "crux_summary" (VObj [ ("url", VStr "https://example.com") ]) (boot 0 not_found)
    = (Ok reply, w')
    /\ reply
       = {| content :=
              [ Plain ("Error getting CrUX data: "
                         ++ "CrUX API error: 404 Not Found - chrome ux report data not found") ];
            isError := true |}.
Proof.
  destruct (@tool_failures_become_error_replies exact_runtime plain_libraries default_env
              canned_report "crux_summary" "Error getting CrUX data: "
              (VObj [ ("url", VStr "https://example.com") ]) (boot 0 not_found))
    as (reply & w' & Hcall & Hreply).
  - simpl. auto.
  - exists reply, w'. split; [exact Hcall|]. exact Hreply.
Defined.

Lemma every_recommendation_is_high_priority_witness :
  exists report,
    @Recommendations.generateRecommendations exact_runtime slow_page = Ok report
    /\ map Recommendations.id (Recommendations.recommendations report)
       = [ "unused-javascript"; "render-blocking-resources"; "image-alt"; "unminified-css" ]
    /\ map Recommendations.priority (Recommendations.recommendations report)
       = [ num 100; num 100; num 100; num 82 ]
    /\ Forall (priority_within 80 100) (Recommendations.recommendations report)
    /\ Recommendations.highPriority (Recommendations.summary report)
       = List.length (Recommendations.recommendations report)
    /\ Recommendations.mediumPriority (Recommendations.summary report) = 0%nat
    /\ Recommendations.lowPriority (Recommendations.summary report) = 0%nat.
Proof.
  eexists. split; [vm_compute; reflexivity|].
  split; [reflexivity|]. split; [reflexivity|].
  apply (@every_recommendation_is_high_priority exact_runtime exact_runtime_is_monotone
           slow_page).
  - vm_compute. reflexivity.
  - reflexivity.
Defined.

Lemma recommendations_are_the_advised_audits_witness :
  exists report,
    @Recommendations.generateRecommendations exact_runtime slow_page = Ok report
    /\ Permutation (map Recommendations.id (Recommendations.recommendations report))
         [ "unminified-css"; "unused-javascript"; "render-blocking-resources"; "image-alt" ]
    /\ map Recommendations.id (Recommendations.quickWins report)
       = [ "render-blocking-resources"; "image-alt" ]
    /\ Recommendations.totalRecommendations (Recommendations.summary report) = 4%nat.
Proof.
  eexists. split; [vm_compute; reflexivity|].
  match goal with
  | |- Permutation (map _ (Recommendations.recommendations ?r)) _ /\ _ =>
      assert (Hg : @Recommendations.generateRecommendations exact_runtime slow_page = Ok r)
        by (vm_compute; reflexivity);
      destruct (@recommendations_are_the_advised_audits exact_runtime slow_page r Hg)
        as (Hperm & Hquick & Htotal & _)
  end.
  vm_compute in Hperm. vm_compute.
  split; [exact Hperm|]. split; reflexivity.
Defined.

Lemma comparison_exchanges_with_the_pages_witness :
  exists comparison',
    @createComparison exact_runtime
      (measured_page (7 # 10) (1 # 2) (9 # 10)) (measured_page (9 # 10) (4 # 5) (9 # 10))
      "https://b.example" "https://a.example" "mobile" = Ok comparison'
    /\ verdict_of comparison' "largest-contentful-paint" = VStr "B"
    /\ verdict_of comparison' "total-blocking-time" = VStr "tie"
    /\ verdict_of comparison' "cumulative-layout-shift" = VUndefined
    /\ score_of comparison' "urlA" = num 70
    /\ score_of comparison' "urlB" = num 90.
Proof.
  destruct (@comparison_exchanges_with_the_pages exact_runtime
              (measured_page (9 # 10) (4 # 5) (9 # 10))
              (measured_page (7 # 10) (1 # 2) (9 # 10))
              "https://a.example" "https://b.example" "mobile" _ eq_refl)
    as (comparison' & Hc & Hverdicts & HA & HB).
  exists comparison'. split; [exact Hc|].
  split; [apply (Hverdicts "largest-contentful-paint")|].
  split; [apply (Hverdicts "total-blocking-time")|].
  split; [apply (Hverdicts "cumulative-layout-shift")|].
  split; [exact HA | exact HB].
Defined.

Lemma opportunities_are_the_first_five_witness :
  exists summary,
    @Server.createPerformanceSummary exact_runtime slow_page "https://example.com/" "mobile"
    = Ok summary
    /\ opt_prop summary "opportunities"
       = VArr [ opportunity_entry slow_page (ref "unused-javascript");
                opportunity_entry slow_page (ref "render-blocking-resources") ].
Proof.
  eexists. split; [reflexivity|].
  apply (proj2 (@opportunities_are_the_first_five exact_runtime slow_page
                  "https://example.com/" "mobile" _ eq_refl)
           [ ref "unminified-css"; ref "unused-javascript"; ref "speed-index";
             ref "render-blocking-resources" ]).
  - reflexivity.
  - reflexivity.
Defined.

Lemma category_score_is_passed_on_unless_zero_witness :
  exists view,
    @ResponseParser.extractOtherCategories exact_runtime sample_report = Ok view
    /\ view_score view "seo" = VNum (7 # 10)
    /\ view_score view "pwa" = VNull.
Proof.
  eexists. split; [reflexivity|].
  split.
  - apply (proj1 (@category_score_is_passed_on_unless_zero exact_runtime sample_report _
                    "seo" "seo" ltac:(simpl; auto) eq_refl)).
  - apply (proj1 (@category_score_is_passed_on_unless_zero exact_runtime sample_report _
                    "pwa" "pwa" ltac:(simpl; auto) eq_refl)).
Defined.

Lemma missing_form_factor_is_printed_as_undefined_witness :
  exists text,
    @Server.formatCruxSummary exact_runtime record_without_form_factor "https://example.com/"
    = Ok text
    /\ String.prefix
         ("# CrUX Field Data Summary" ++ nl ++ nl ++ "**URL:** https://example.com/" ++ nl
            ++ "**Form Factor:** undefined" ++ nl ++ nl
            ++ "## Core Web Vitals (Real User Data)" ++ nl)
         text = true.
Proof.
  eexists. split; [reflexivity|].
  apply (@missing_form_factor_is_printed_as_undefined exact_runtime
           record_without_form_factor "https://example.com/").
  - reflexivity.
  - reflexivity.
  - reflexivity.
Defined.

